(** * OmnyChat relay core: offline mailbox, connection registry, presence,
      signal/message routing.

    Shallow embedding of
      - [MessageModel]: the statements on the [messages] table;
      - the WebSocket server: the module-level [clients] array,
        [handleConnect], [handleDisconnect], [handleSignal], [handleMessage],
        [broadcastPresence], [isUserOnline] and the listeners that
        [setupWebSocketServer] installs;
      - [SignalController] and [MessageController], the HTTP endpoints that
        read the registry and drain the mailbox.

    The [messages] table is a list of rows in insertion order together with
    the value of its SERIAL sequence.  The [clients] array, the Redis
    presence keys, the ids of the [users] table and the [messages] table form
    one [World]; every primitive effect (an assignment to [clients], a Redis
    command, a call of a [MessageModel] function, [ws.send], [ws.close]) is
    also appended to a trace, so that the order of effects inside one handler
    can be stated.  Redis, the database connection and the sockets do not
    fail in this model.  A statement fails, and the query throws, where
    schema.sql makes it fail: a column that the table does not have, a
    foreign key to [users], a number outside the range of an INTEGER column;
    the [catch] branches of the handlers are reached through these throws and
    through a property read on a missing payload. *)

From Stdlib Require Import ZArith Lia Sorted Permutation.
From stdpp Require Import gmap strings list fin_maps pretty.

Local Open Scope Z_scope.

(** ** JSON values ([any]-typed payloads, parsed message contents) *)

#[local] Unset Elimination Schemes.
Inductive json : Type :=
| JNull
| JBool (b : bool)
| JNum (n : Z)
| JStr (s : string)
| JArr (items : list json)
| JObj (fields : list (string * json)).
#[local] Set Elimination Schemes.

(** JavaScript truthiness, as used by [!x] in the request validation. *)
Definition truthy (v : json) : bool :=
  match v with
  | JNull => false
  | JBool b => b
  | JNum n => negb (n =? 0)
  | JStr s => negb (String.eqb s "")
  | JArr _ => true
  | JObj _ => true
  end.

(** Property read [obj.key] on a parsed object: [None] is [undefined]. *)
Fixpoint get_field (key : string) (fields : list (string * json)) : option json :=
  match fields with
  | [] => None
  | (k, v) :: rest => if String.eqb k key then Some v else get_field key rest
  end.

(** ** The [messages] table (schema.sql, types/index.ts [Message]) *)

(** One row: the columns of CREATE TABLE messages.  Timestamps are points
    on an integer time line and a NULL timestamp is [None]. *)
Record Message : Type := mkMessage {
  id : Z;
  sender_id : Z;
  recipient_id : Z;
  encrypted_content : string;
  is_delivered : bool;
  created_at : Z;
  delivered_at : option Z
}.

Record MessagesTable : Type := mkTable {
  rows : list Message;
  messages_id_seq : Z
}.

(** A freshly created table: no rows, SERIAL starts at 1. *)
Definition empty_table : MessagesTable := mkTable [] 1.

(** The values of an INTEGER column or parameter.  A number outside this
    range bound to such a parameter makes PostgreSQL reject the statement
    before it runs, and [pool.query] throws. *)
Definition int4 (n : Z) : Prop := -2147483648 ≤ n ≤ 2147483647.

#[global] Instance int4_dec n : Decision (int4 n).
Proof. unfold int4. apply _. Defined.

(** [ORDER BY created_at ASC]: insertion sort on the creation time.  Rows
    with equal creation time keep their relative table order. *)
Fixpoint insert_by_created_at (m : Message) (l : list Message) : list Message :=
  match l with
  | [] => [m]
  | x :: l' =>
      if decide (created_at m ≤ created_at x) then m :: l
      else x :: insert_by_created_at m l'
  end.

Definition order_by_created_at (l : list Message) : list Message :=
  foldr insert_by_created_at [] l.

(** [SET is_delivered = true, delivered_at = CURRENT_TIMESTAMP] *)
Definition set_delivered (now : Z) (m : Message) : Message :=
  mkMessage (id m) (sender_id m) (recipient_id m) (encrypted_content m)
            true (created_at m) (Some now).

Module MessageModel.

(** [INSERT INTO messages (sender_id, recipient_id, encrypted_content)
     VALUES ($1, $2, $3) RETURNING *]; the other columns take their
    defaults.  [now] is the value of CURRENT_TIMESTAMP for the statement and
    [users] are the ids of the rows of [users] (an INTEGER column, so no
    number outside INTEGER is among them).  The result is the returned row,
    or [None] when the query throws: for a sender or recipient that is not a
    user the row violates [REFERENCES users(id)], no row is stored, and the
    value drawn from the sequence for it is not given back; for an id
    outside INTEGER the statement is rejected before it runs. *)
Definition storeMessage (users : list Z) (now senderId recipientId : Z)
    (encryptedContent : string) (t : MessagesTable) : option Message * MessagesTable :=
  let row := mkMessage (messages_id_seq t) senderId recipientId encryptedContent
                       false now None in
  if decide (senderId ∈ users ∧ recipientId ∈ users)
  then (Some row, mkTable (rows t ++ [row]) (messages_id_seq t + 1))
  else if decide (int4 senderId ∧ int4 recipientId)
  then (None, mkTable (rows t) (messages_id_seq t + 1))
  else (None, t).

(** [SELECT * FROM messages WHERE recipient_id = $1 AND is_delivered = false
     ORDER BY created_at ASC] *)
Definition getUndeliveredMessages (userId : Z) (t : MessagesTable) : list Message :=
  order_by_created_at
    (filter (λ m, recipient_id m = userId ∧ is_delivered m = false) (rows t)).

(** [UPDATE messages SET is_delivered = true, delivered_at = CURRENT_TIMESTAMP
     WHERE id IN (...)]; returns [rowCount]. *)
Definition markAsDelivered (now : Z) (messageIds : list Z)
    (t : MessagesTable) : Z * MessagesTable :=
  match messageIds with
  | [] => (0, t)
  | _ =>
      (Z.of_nat (length (filter (λ m, id m ∈ messageIds) (rows t))),
       mkTable ((λ m, if decide (id m ∈ messageIds) then set_delivered now m else m)
                  <$> rows t)
               (messages_id_seq t))
  end.

(** [UPDATE messages SET is_read = true, read_at = CURRENT_TIMESTAMP
     WHERE id IN (...) AND recipient_id = $n].  The [messages] table of
    schema.sql has no column [is_read] or [read_at], and no migration adds
    one, so PostgreSQL rejects the statement whatever the ids and the user
    are: the query throws ([None]) and no row changes.  Only the early
    return for an empty id list gives a count. *)
Definition markAsRead (messageIds : list Z) (userId : Z) (t : MessagesTable)
    : option Z * MessagesTable :=
  match messageIds with
  | [] => (Some 0, t)
  | _ => (None, t)
  end.

(** [DELETE FROM messages WHERE is_delivered = true
     AND delivered_at < NOW() - INTERVAL '${days} days']; the time line is
    counted in seconds, and a NULL [delivered_at] never compares. *)
Definition expired (now days : Z) (m : Message) : Prop :=
  is_delivered m = true ∧
  match delivered_at m with
  | Some d => d < now - days * 86400
  | None => False
  end.

#[global] Instance expired_dec now days m : Decision (expired now days m).
Proof. unfold expired. destruct (delivered_at m); apply _. Defined.

Definition cleanupOldMessages (now days : Z) (t : MessagesTable) : Z * MessagesTable :=
  (Z.of_nat (length (filter (expired now days) (rows t))),
   mkTable (filter (λ m, ¬ expired now days m) (rows t)) (messages_id_seq t)).

End MessageModel.


(** ** Wire-level types (types/index.ts) *)

Module SignalMessage.
(** [{ type: 'offer' | 'answer' | 'ice-candidate'; recipient: number; data: any }];
    the tag is kept as the string the code compares it with. *)
Record t : Type := mk { type : string; recipient : Z; data : json }.
End SignalMessage.

Module ChatMessage.
Record t : Type := mk { recipient : Z; encryptedContent : string; timestamp : Z }.
End ChatMessage.

Record TokenPayload : Type := mkTokenPayload { tp_userId : Z; email : string }.

(** A [ws] handle; [===] on handles is identity of the connection. *)
Definition WS : Type := nat.
Bind Scope nat_scope with WS.

Record WebSocketClient : Type := mkClient { userId : Z; ws : WS }.

Inductive PresenceStatus : Type := online | offline.

Definition status_string (s : PresenceStatus) : string :=
  match s with online => "online" | offline => "offline" end.

(** [{ id, sender, content, timestamp }] of the pending-message bundle. *)
Record PendingMessage : Type := mkPending {
  pm_id : Z; pm_sender : Z; pm_content : string; pm_timestamp : Z
}.

Definition to_pending (msg : Message) : PendingMessage :=
  mkPending (id msg) (sender_id msg) (encrypted_content msg) (created_at msg).

(** The object literals handed to [ws.send(JSON.stringify(...))]. *)
Inductive Frame : Type :=
| FrError (message : string)
| FrConnect (success : bool) (uid : Z)
| FrPresence (uid : Z) (status : PresenceStatus)
| FrPendingMessages (pendingMessages : list PendingMessage)
| FrSignal (sender : Z) (type : string) (data : json)
| FrMessage (sender : Z) (encryptedContent : string) (timestamp : Z)
| FrDelivered (recipient : Z) (timestamp : Z)
| FrStored (recipient : Z) (timestamp : Z).

(** ** The world: registry, presence store, mailbox, and the effect trace *)

Record RedisEntry : Type := mkEntry { value : string; ttl : option Z }.

(** The primitive effects.  The last five are calls of the [MessageModel]
    functions; [cleanupOldMessages] has no caller among the handlers below
    and is there for runs of arbitrary effects. *)
Inductive Event : Type :=
| EvClientsFilterUser (uid : Z)          (* clients = clients.filter(c => c.userId !== uid) *)
| EvClientsPush (c : WebSocketClient)    (* clients.push(c) *)
| EvClientsFilterWs (w : WS)             (* clients = clients.filter(c => c.ws !== w) *)
| EvRedisSet (key val : string)          (* redisClient.set(key, val) *)
| EvRedisExpire (key : string) (seconds : Z)
| EvWsSend (w : WS) (f : Frame)
| EvWsClose (w : WS)
| EvStoreMessage (now senderId recipientId : Z) (content : string)
| EvGetUndelivered (uid : Z)
| EvMarkAsDelivered (now : Z) (ids : list Z)
| EvMarkAsRead (ids : list Z) (uid : Z)
| EvCleanupOldMessages (now days : Z).

(** [user_ids] are the ids of the rows of the [users] table, which the
    foreign keys of [messages] refer to; no function modelled here inserts
    or deletes a user. *)
Record World : Type := mkWorld {
  clients : list WebSocketClient;
  redis : gmap string RedisEntry;
  user_ids : list Z;
  messages : MessagesTable;
  trace : list Event
}.

Definition presence_key (uid : Z) : string := "presence:" +:+ pretty uid.

(** One primitive effect: what it does to the world, and its entry in the
    trace.  SET drops any previous expiry; EXPIRE on a missing key does
    nothing; sends and closes only show in the trace. *)
Definition step (e : Event) (w : World) : World :=
  let tr := trace w ++ [e] in
  let us := user_ids w in
  match e with
  | EvClientsFilterUser uid =>
      mkWorld (filter (λ c, userId c ≠ uid) (clients w)) (redis w) us (messages w) tr
  | EvClientsPush c =>
      mkWorld (clients w ++ [c]) (redis w) us (messages w) tr
  | EvClientsFilterWs s =>
      mkWorld (filter (λ c, ws c ≠ s) (clients w)) (redis w) us (messages w) tr
  | EvRedisSet key val =>
      mkWorld (clients w) (<[key := mkEntry val None]> (redis w)) us (messages w) tr
  | EvRedisExpire key seconds =>
      mkWorld (clients w)
              (alter (λ en, mkEntry (value en) (Some seconds)) key (redis w))
              us (messages w) tr
  | EvWsSend _ _ | EvWsClose _ | EvGetUndelivered _ =>
      mkWorld (clients w) (redis w) us (messages w) tr
  | EvStoreMessage now senderId recipientId content =>
      mkWorld (clients w) (redis w) us
              (snd (MessageModel.storeMessage us now senderId recipientId content
                      (messages w)))
              tr
  | EvMarkAsDelivered now ids =>
      mkWorld (clients w) (redis w) us
              (snd (MessageModel.markAsDelivered now ids (messages w))) tr
  | EvMarkAsRead ids uid =>
      mkWorld (clients w) (redis w) us
              (snd (MessageModel.markAsRead ids uid (messages w))) tr
  | EvCleanupOldMessages now days =>
      mkWorld (clients w) (redis w) us
              (snd (MessageModel.cleanupOldMessages now days (messages w))) tr
  end.

(** Running a list of effects, and the worlds seen after each prefix. *)
Definition run (es : list Event) (w : World) : World :=
  foldl (λ w e, step e w) w es.

Fixpoint moments (es : list Event) (w : World) : list World :=
  match es with
  | [] => [w]
  | e :: es' => w :: moments es' (step e w)
  end.

(** [clients.find(p)] *)
Definition find_client (P : WebSocketClient → Prop) `{!∀ c, Decision (P c)}
    (l : list WebSocketClient) : option WebSocketClient :=
  snd <$> list_find P l.

(** [isUserOnline]: [status === 'online'] on the presence key. *)
Definition isUserOnline (uid : Z) (w : World) : bool :=
  match redis w !! presence_key uid with
  | Some en => String.eqb (value en) "online"
  | None => false
  end.

(** ** The WebSocket server *)

(** What a connect frame carries as [data.payload]: [None] is a frame
    without payload (undefined or null), on which the property read
    [payload.token] throws; in a payload, [token] is [None] when there is no
    token or it is not a string. *)
Module ConnectPayload.
Record t : Type := mk { token : option string }.
End ConnectPayload.

(** The payload of a connect frame that carries this token. *)
Definition with_token (token : string) : option ConnectPayload.t :=
  Some (ConnectPayload.mk (Some token)).

(** Decoded inbound frame: the [switch (data.type)] of the message handler.
    Tags without a case of their own ('presence', 'error', anything else)
    are [MsgOther].  A signal or message frame is taken with a payload
    object of its declared shape. *)
Inductive WebSocketMessage : Type :=
| MsgConnect (payload : option ConnectPayload.t)
| MsgDisconnect
| MsgSignal (payload : SignalMessage.t)
| MsgMessage (payload : ChatMessage.t)
| MsgOther (type : string).

(** [broadcastPresence]: one presence frame to every entry of [clients]. *)
Definition broadcastPresence (uid : Z) (status : PresenceStatus) (w : World) : World :=
  run ((λ c, EvWsSend (ws c) (FrPresence uid status)) <$> clients w) w.

Section Server.

(** [verifyToken] of utils/jwt on a string: the decoded payload, or null.
    On anything that is not a string [jwt.verify] throws and [verifyToken]
    catches and returns null. *)
Variable verifyToken : string → option TokenPayload.

(** Without a payload the read of [payload.token] throws inside the [try],
    and the [catch] answers 'Connection error' and closes. *)
Definition handleConnect (s : WS) (payload : option ConnectPayload.t) (now : Z)
    (w : World) : World :=
  match payload with
  | None =>
      step (EvWsClose s) (step (EvWsSend s (FrError "Connection error")) w)
  | Some p =>
      match ConnectPayload.token p ≫= verifyToken with
      | None =>
          step (EvWsClose s) (step (EvWsSend s (FrError "Invalid token")) w)
      | Some decoded =>
          let uid := tp_userId decoded in
          let w := step (EvClientsFilterUser uid) w in
          let w := step (EvClientsPush (mkClient uid s)) w in
          let w := step (EvRedisSet (presence_key uid) "online") w in
          let w := step (EvRedisExpire (presence_key uid) 60) w in
          let w := step (EvWsSend s (FrConnect true uid)) w in
          let w := broadcastPresence uid online w in
          let w := step (EvGetUndelivered uid) w in
          let undeliveredMessages :=
            MessageModel.getUndeliveredMessages uid (messages w) in
          if decide (0 < length undeliveredMessages)%nat then
            let w := step (EvWsSend s (FrPendingMessages
                                         (to_pending <$> undeliveredMessages))) w in
            step (EvMarkAsDelivered now (id <$> undeliveredMessages)) w
          else w
      end
  end.

Definition handleDisconnect (s : WS) (w : World) : World :=
  match find_client (λ c, ws c = s) (clients w) with
  | Some client =>
      let w := step (EvRedisSet (presence_key (userId client)) "offline") w in
      let w := step (EvClientsFilterWs s) w in
      broadcastPresence (userId client) offline w
  | None => w
  end.

Definition handleSignal (s : WS) (payload : SignalMessage.t) (w : World) : World :=
  match find_client (λ c, ws c = s) (clients w) with
  | None => step (EvWsSend s (FrError "Not authenticated")) w
  | Some sender =>
      match find_client (λ c, userId c = SignalMessage.recipient payload) (clients w) with
      | Some recipient =>
          step (EvWsSend (ws recipient)
                  (FrSignal (userId sender) (SignalMessage.type payload)
                            (SignalMessage.data payload))) w
      | None => step (EvWsSend s (FrError "Recipient is offline")) w
      end
  end.

Definition handleMessage (s : WS) (payload : ChatMessage.t) (now : Z) (w : World) : World :=
  match find_client (λ c, ws c = s) (clients w) with
  | None => step (EvWsSend s (FrError "Not authenticated")) w
  | Some sender =>
      match find_client (λ c, userId c = ChatMessage.recipient payload) (clients w) with
      | Some recipient =>
          let w := step (EvWsSend (ws recipient)
                           (FrMessage (userId sender) (ChatMessage.encryptedContent payload)
                                      (ChatMessage.timestamp payload))) w in
          step (EvWsSend s (FrDelivered (ChatMessage.recipient payload)
                                        (ChatMessage.timestamp payload))) w
      | None =>
          let stored :=
            fst (MessageModel.storeMessage (user_ids w) now (userId sender)
                   (ChatMessage.recipient payload)
                   (ChatMessage.encryptedContent payload) (messages w)) in
          let w := step (EvStoreMessage now (userId sender) (ChatMessage.recipient payload)
                           (ChatMessage.encryptedContent payload)) w in
          match stored with
          | Some _ =>
              step (EvWsSend s (FrStored (ChatMessage.recipient payload)
                                         (ChatMessage.timestamp payload))) w
          | None => step (EvWsSend s (FrError "Failed to store message")) w
          end
      end
  end.

(** The ['message'] listener of a connection; [None] is a frame on which
    [JSON.parse] throws. *)
Definition onMessage (s : WS) (data : option WebSocketMessage) (now : Z) (w : World) : World :=
  match data with
  | Some (MsgConnect payload) => handleConnect s payload now w
  | Some MsgDisconnect => handleDisconnect s w
  | Some (MsgSignal payload) => handleSignal s payload w
  | Some (MsgMessage payload) => handleMessage s payload now w
  | Some (MsgOther _) => step (EvWsSend s (FrError "Unknown message type")) w
  | None => step (EvWsSend s (FrError "Invalid message format")) w
  end.

(** The ['close'] listener. *)
Definition onClose (s : WS) (w : World) : World := handleDisconnect s w.

End Server.

(** ** HTTP controllers *)

Record SignalDTO : Type := mkSignalDTO {
  sg_id : Z; sg_sender : Z; sg_type : option json; sg_data : option json; sg_timestamp : Z
}.

(** The objects passed to [res.status(n).json(...)]. *)
Inductive HttpBody : Type :=
| BodyMessage (message : string)
| BodySignals (signals : list SignalDTO)
| BodyOfflineMessages (success : bool) (msgs : list PendingMessage) (message : string)
| BodySuccess (message : string)
| BodyStored (row_id : Z) (message : string)
| BodyFailure (error : string).

Record HttpResponse : Type := mkResponse { status : Z; body : HttpBody }.

Module SignalController.
Section WithJSON.

Variable JSON_stringify : json → string.
Variable JSON_parse : string → option json.

(** The stored form of a queued signal. *)
Definition signal_content (p : SignalMessage.t) : json :=
  JObj [("type", JStr "signal");
        ("signalType", JStr (SignalMessage.type p));
        ("data", SignalMessage.data p)].

Definition sendSignal (senderId : Z) (signalData : SignalMessage.t) (now : Z)
    (w : World) : HttpResponse * World :=
  if (SignalMessage.recipient signalData =? 0)
     || String.eqb (SignalMessage.type signalData) ""
     || negb (truthy (SignalMessage.data signalData))
  then (mkResponse 400 (BodyMessage "Recipient, type, and data are required"), w)
  else
    match find_client (λ c, userId c = SignalMessage.recipient signalData) (clients w) with
    | Some recipientClient =>
        (mkResponse 200 (BodyMessage "Signal sent successfully"),
         step (EvWsSend (ws recipientClient)
                 (FrSignal senderId (SignalMessage.type signalData)
                           (SignalMessage.data signalData))) w)
    | None =>
        let accepted :=
          mkResponse 202 (BodyMessage "Recipient offline, signal queued for delivery") in
        if negb (String.eqb (SignalMessage.type signalData) "ice-candidate") then
          let content := JSON_stringify (signal_content signalData) in
          let stored :=
            fst (MessageModel.storeMessage (user_ids w) now senderId
                   (SignalMessage.recipient signalData) content (messages w)) in
          let w := step (EvStoreMessage now senderId (SignalMessage.recipient signalData)
                           content) w in
          match stored with
          | Some _ => (accepted, w)
          | None => (mkResponse 500 (BodyMessage "Server error"), w)
          end
        else (accepted, w)
    end.

(** The [map] callback of [getPendingSignals]: a signal object for a row
    whose content parses to an object with [type === 'signal'], else null. *)
Definition as_signal (msg : Message) : option SignalDTO :=
  match JSON_parse (encrypted_content msg) with
  | Some (JObj fields) =>
      match get_field "type" fields with
      | Some (JStr ty) =>
          if String.eqb ty "signal" then
            Some (mkSignalDTO (id msg) (sender_id msg) (get_field "signalType" fields)
                              (get_field "data" fields) (created_at msg))
          else None
      | _ => None
      end
  | _ => None
  end.

Definition getPendingSignals (uid : Z) (now : Z) (w : World) : HttpResponse * World :=
  let w := step (EvGetUndelivered uid) w in
  let msgs := MessageModel.getUndeliveredMessages uid (messages w) in
  let signals := omap as_signal msgs in
  let w :=
    if decide (0 < length signals)%nat then
      step (EvMarkAsDelivered now (sg_id <$> signals)) w
    else w in
  (mkResponse 200 (BodySignals signals), w).

End WithJSON.
End SignalController.

Module MessageController.

Definition getOfflineMessages (uid : Z) (now : Z) (w : World) : HttpResponse * World :=
  let w := step (EvGetUndelivered uid) w in
  let msgs := MessageModel.getUndeliveredMessages uid (messages w) in
  let w :=
    if decide (0 < length msgs)%nat then
      step (EvMarkAsDelivered now (id <$> msgs)) w
    else w in
  (mkResponse 200
     (BodyOfflineMessages true (to_pending <$> msgs)
                          "Offline messages retrieved successfully"), w).

(** [messageIds] is [None] when the body has no [messageIds] or it is not
    an array.  A throw of [markAsRead] is caught and answered with 500. *)
Definition markMessagesAsRead (uid : Z) (messageIds : option (list Z))
    (w : World) : HttpResponse * World :=
  match messageIds with
  | None => (mkResponse 400 (BodyFailure "Message IDs are required"), w)
  | Some ids =>
      let marked := fst (MessageModel.markAsRead ids uid (messages w)) in
      let w := step (EvMarkAsRead ids uid) w in
      match marked with
      | Some _ => (mkResponse 200 (BodySuccess "Messages marked as read"), w)
      | None => (mkResponse 500 (BodyFailure "Failed to mark messages as read"), w)
      end
  end.

(** A throw of the INSERT is caught and answered with 500. *)
Definition storeMessage (senderId recipientId : Z) (content : string) (now : Z)
    (w : World) : HttpResponse * World :=
  if (recipientId =? 0) || String.eqb content "" then
    (mkResponse 400 (BodyFailure "Recipient ID and content are required"), w)
  else
    let stored := fst (MessageModel.storeMessage (user_ids w) now senderId recipientId
                         content (messages w)) in
    let w := step (EvStoreMessage now senderId recipientId content) w in
    match stored with
    | Some message =>
        (mkResponse 200 (BodyStored (id message) "Message stored successfully"), w)
    | None => (mkResponse 500 (BodyFailure "Failed to store message"), w)
    end.

(** Stores the row and then marks it delivered; [later] is the time of the
    second statement.  A throw of the INSERT is caught and answered with
    500, and the UPDATE is not issued. *)
Definition storeReceivedMessage (recipientId senderId : Z) (content : string)
    (now later : Z) (w : World) : HttpResponse * World :=
  if (senderId =? 0) || String.eqb content "" then
    (mkResponse 400 (BodyFailure "Sender ID and content are required"), w)
  else
    let stored := fst (MessageModel.storeMessage (user_ids w) now senderId recipientId
                         content (messages w)) in
    let w := step (EvStoreMessage now senderId recipientId content) w in
    match stored with
    | Some message =>
        (mkResponse 200 (BodyStored (id message) "P2P message stored successfully"),
         step (EvMarkAsDelivered later [id message]) w)
    | None => (mkResponse 500 (BodyFailure "Failed to store received P2P message"), w)
    end.

End MessageController.

(** ** The presence heartbeat *)

(** One run of the callback that [startPresenceHeartbeat] schedules every
    30 seconds: for each entry of [clients], SET the presence key to online
    and EXPIRE it after 60 seconds. *)
Definition refresh_presence (w : World) (client : WebSocketClient) : World :=
  step (EvRedisExpire (presence_key (userId client)) 60)
       (step (EvRedisSet (presence_key (userId client)) "online") w).

Definition presenceHeartbeat (w : World) : World :=
  foldl refresh_presence w (clients w).

(** ** Contact requests, contacts and keys *)

(** The tables [users], [contact_requests], [contacts] and [user_keys].  Of
    a user only the columns that these functions select are kept.  Rows are
    in insertion order; a query without ORDER BY is modelled in table order. *)

(** ['pending' | 'accepted' | 'rejected'] *)
Inductive RequestStatus : Type := StPending | StAccepted | StRejected.

#[global] Instance RequestStatus_eq_dec : EqDecision RequestStatus.
Proof. solve_decision. Defined.

Module UserDTO.
Record t : Type := mk { id : Z; username : string; email : string }.
End UserDTO.

Module ContactRequest.
Record t : Type := mk {
  id : Z; sender_id : Z; recipient_id : Z; status : RequestStatus;
  created_at : Z; updated_at : Z
}.
End ContactRequest.

Module Contact.
Record t : Type := mk { id : Z; user_id : Z; contact_id : Z; created_at : Z }.
End Contact.

Module UserKey.
Record t : Type := mk {
  id : Z; user_id : Z; public_key : string; signed_key : string; key_type : string;
  created_at : Z; updated_at : Z
}.
End UserKey.

Record Db : Type := mkDb {
  users : list UserDTO.t;
  contact_requests : list ContactRequest.t;
  contact_requests_id_seq : Z;
  contacts : list Contact.t;
  contacts_id_seq : Z;
  user_keys : list UserKey.t;
  user_keys_id_seq : Z
}.

Definition with_contact_requests (rs : list ContactRequest.t) (sq : Z) (db : Db) : Db :=
  mkDb (users db) rs sq (contacts db) (contacts_id_seq db)
       (user_keys db) (user_keys_id_seq db).

Definition with_contacts (cs : list Contact.t) (sq : Z) (db : Db) : Db :=
  mkDb (users db) (contact_requests db) (contact_requests_id_seq db) cs sq
       (user_keys db) (user_keys_id_seq db).

Definition with_user_keys (ks : list UserKey.t) (sq : Z) (db : Db) : Db :=
  mkDb (users db) (contact_requests db) (contact_requests_id_seq db)
       (contacts db) (contacts_id_seq db) ks sq.

(** What a function that may throw gives back, with the database after the
    call; a throw inside a transaction leaves the rows as they were
    (ROLLBACK).  The ids of the authenticated user and ids read from rows
    are in the range of INTEGER; where a function is handed a number from a
    request body or a path, a number outside that range makes its first
    query throw. *)
Inductive Outcome (A : Type) : Type :=
| Returned (a : A) (db : Db)
| Thrown (message : string) (db : Db).
Arguments Returned {A} a db.
Arguments Thrown {A} message db.

Definition db_of {A} (o : Outcome A) : Db :=
  match o with Returned _ db | Thrown _ db => db end.

(** [SET status = ..., updated_at = CURRENT_TIMESTAMP] *)
Definition set_status (st : RequestStatus) (now : Z) (q : ContactRequest.t)
    : ContactRequest.t :=
  ContactRequest.mk (ContactRequest.id q) (ContactRequest.sender_id q)
                    (ContactRequest.recipient_id q) st (ContactRequest.created_at q) now.

(** [{ ...request, sender?, recipient? }] *)
Record ContactRequestDTO : Type := mkRequestDTO {
  dto_request : ContactRequest.t;
  dto_sender : option UserDTO.t;
  dto_recipient : option UserDTO.t
}.

Module UserModel.

(** [SELECT ... FROM users WHERE id = $1]; [rows[0] || null] *)
Definition findById (i : Z) (db : Db) : Outcome (option UserDTO.t) :=
  if decide (int4 i) then Returned (head (filter (λ u, UserDTO.id u = i) (users db))) db
  else Thrown "value out of range for type integer" db.

Definition getAllUsers (db : Db) : list UserDTO.t := users db.

(** [SELECT u.id, u.username, u.email, c.contact_id FROM users u
     JOIN contacts c ON u.id = c.contact_id WHERE c.user_id = $1] *)
Definition getUserContacts (userId : Z) (db : Db) : list UserDTO.t :=
  c ← filter (λ c, Contact.user_id c = userId) (contacts db);
  filter (λ u, UserDTO.id u = Contact.contact_id c) (users db).

(** Check, then [INSERT INTO contacts (user_id, contact_id)].  Both
    columns reference [users(id)]: for an id that is not a user the INSERT
    throws, no row is added, and the value drawn from the sequence is not
    given back; for an id outside INTEGER the check already throws. *)
Definition addContact (now userId contactId : Z) (db : Db) : Outcome bool :=
  if decide (0 < length (filter (λ c, Contact.user_id c = userId
                                     ∧ Contact.contact_id c = contactId)
                                (contacts db)))%nat
  then Returned true db
  else if decide (userId ∈ UserDTO.id <$> users db
                  ∧ contactId ∈ UserDTO.id <$> users db)
  then Returned true
         (with_contacts
            (contacts db ++ [Contact.mk (contacts_id_seq db) userId contactId now])
            (contacts_id_seq db + 1) db)
  else if decide (int4 userId ∧ int4 contactId)
  then Thrown "insert on table contacts violates a foreign key constraint"
         (with_contacts (contacts db) (contacts_id_seq db + 1) db)
  else Thrown "value out of range for type integer" db.

End UserModel.

Module ContactRequestModel.

(** [SELECT ... WHERE sender_id = $1 AND recipient_id = $2]; [rows[0] || null] *)
Definition findBySenderAndRecipient (senderId recipientId : Z) (db : Db)
    : option ContactRequest.t :=
  head (filter (λ q, ContactRequest.sender_id q = senderId
                     ∧ ContactRequest.recipient_id q = recipientId)
               (contact_requests db)).

(** [SELECT ... WHERE id = $1]; [rows[0] || null] *)
Definition findById (i : Z) (db : Db) : option ContactRequest.t :=
  head (filter (λ q, ContactRequest.id q = i) (contact_requests db)).

(** An existing rejected request goes back to pending (the returned row is
    the first row of RETURNING, the update of the row found); any other
    existing request is returned as it is; otherwise a pending row is
    inserted. *)
Definition create (now senderId recipientId : Z) (db : Db) : ContactRequest.t * Db :=
  match findBySenderAndRecipient senderId recipientId db with
  | Some existingRequest =>
      if decide (ContactRequest.status existingRequest = StRejected) then
        (set_status StPending now existingRequest,
         with_contact_requests
           ((λ q, if decide (ContactRequest.sender_id q = senderId
                             ∧ ContactRequest.recipient_id q = recipientId)
                  then set_status StPending now q else q) <$> contact_requests db)
           (contact_requests_id_seq db) db)
      else (existingRequest, db)
  | None =>
      let row := ContactRequest.mk (contact_requests_id_seq db) senderId recipientId
                                   StPending now now in
      (row, with_contact_requests (contact_requests db ++ [row])
                                  (contact_requests_id_seq db + 1) db)
  end.

(** [... JOIN users u ON cr.sender_id = u.id
     WHERE cr.recipient_id = $1 AND cr.status = 'pending'] *)
Definition getPendingRequests (userId : Z) (db : Db) : list ContactRequestDTO :=
  q ← filter (λ q, ContactRequest.recipient_id q = userId
                   ∧ ContactRequest.status q = StPending) (contact_requests db);
  (λ u, mkRequestDTO q (Some u) None)
    <$> filter (λ u, UserDTO.id u = ContactRequest.sender_id q) (users db).

(** [... JOIN users u ON cr.recipient_id = u.id WHERE cr.sender_id = $1] *)
Definition getSentRequests (userId : Z) (db : Db) : list ContactRequestDTO :=
  q ← filter (λ q, ContactRequest.sender_id q = userId) (contact_requests db);
  (λ u, mkRequestDTO q None (Some u))
    <$> filter (λ u, UserDTO.id u = ContactRequest.recipient_id q) (users db).

(** [INSERT INTO contacts (user_id, contact_id) VALUES ($1, $2)
     ON CONFLICT (user_id, contact_id) DO NOTHING]; the sequence value for
    the id is drawn before the conflict is seen. *)
Definition insert_contact (now userId contactId : Z) (db : Db) : Db :=
  if decide (0 < length (filter (λ c, Contact.user_id c = userId
                                     ∧ Contact.contact_id c = contactId)
                                (contacts db)))%nat
  then with_contacts (contacts db) (contacts_id_seq db + 1) db
  else with_contacts (contacts db ++ [Contact.mk (contacts_id_seq db) userId contactId now])
                     (contacts_id_seq db + 1) db.

(** One transaction: the request is looked up by id and recipient; if it
    is not there the function throws (and rolls back); otherwise the status
    becomes accepted and both directions are inserted into [contacts].
    [requestId] comes from the path of the request; outside INTEGER, where
    no row has its id, it is the lookup itself that throws. *)
Definition acceptRequest (now requestId userId : Z) (db : Db) : Outcome bool :=
  match head (filter (λ q, ContactRequest.id q = requestId
                           ∧ ContactRequest.recipient_id q = userId)
                     (contact_requests db)) with
  | None =>
      Thrown (if decide (int4 requestId)
              then "Contact request not found or you are not the recipient"
              else "value out of range for type integer") db
  | Some request =>
      let db1 :=
        with_contact_requests
          ((λ q, if decide (ContactRequest.id q = requestId)
                 then set_status StAccepted now q else q) <$> contact_requests db)
          (contact_requests_id_seq db) db in
      let db2 := insert_contact now (ContactRequest.recipient_id request)
                                (ContactRequest.sender_id request) db1 in
      let db3 := insert_contact now (ContactRequest.sender_id request)
                                (ContactRequest.recipient_id request) db2 in
      Returned true db3
  end.

(** [UPDATE ... SET status = 'rejected' ... WHERE id = $1 AND recipient_id = $2
     RETURNING id]; true when a row was updated.  [requestId] comes from the
    path of the request. *)
Definition rejectRequest (now requestId userId : Z) (db : Db) : Outcome bool :=
  if decide (int4 requestId) then
    Returned
      (bool_decide (0 < length (filter (λ q, ContactRequest.id q = requestId
                                             ∧ ContactRequest.recipient_id q = userId)
                                       (contact_requests db)))%nat)
      (with_contact_requests
         ((λ q, if decide (ContactRequest.id q = requestId
                           ∧ ContactRequest.recipient_id q = userId)
                then set_status StRejected now q else q) <$> contact_requests db)
         (contact_requests_id_seq db) db)
  else Thrown "value out of range for type integer" db.

(** [DELETE ... WHERE id = $1 AND sender_id = $2 RETURNING id];
    [requestId] comes from the path of the request. *)
Definition cancelRequest (requestId userId : Z) (db : Db) : Outcome bool :=
  if decide (int4 requestId) then
    Returned
      (bool_decide (0 < length (filter (λ q, ContactRequest.id q = requestId
                                             ∧ ContactRequest.sender_id q = userId)
                                       (contact_requests db)))%nat)
      (with_contact_requests
         (filter (λ q, ¬ (ContactRequest.id q = requestId
                          ∧ ContactRequest.sender_id q = userId)) (contact_requests db))
         (contact_requests_id_seq db) db)
  else Thrown "value out of range for type integer" db.

End ContactRequestModel.

Module KeyModel.
Section WithSigning.

(** [signPublicKey] of utils/crypto, with the server key in place. *)
Variable signPublicKey : string → string.

(** [SELECT * FROM user_keys WHERE user_id = $1 AND key_type = $2] *)
Definition getKey (userId : Z) (keyType : string) (db : Db) : option UserKey.t :=
  head (filter (λ k, UserKey.user_id k = userId ∧ UserKey.key_type k = keyType)
               (user_keys db)).

Definition getUserKeys (userId : Z) (db : Db) : list UserKey.t :=
  filter (λ k, UserKey.user_id k = userId) (user_keys db).

(** [SET public_key = $1, signed_key = $2, updated_at = CURRENT_TIMESTAMP] *)
Definition set_key (publicKey signedKey : string) (now : Z) (k : UserKey.t) : UserKey.t :=
  UserKey.mk (UserKey.id k) (UserKey.user_id k) publicKey signedKey (UserKey.key_type k)
             (UserKey.created_at k) now.

(** Update when the user has a key of this type, insert otherwise; the
    returned row is the first row of RETURNING. *)
Definition storeKey (now userId : Z) (publicKey keyType : string) (db : Db)
    : UserKey.t * Db :=
  let signedKey := signPublicKey publicKey in
  match getKey userId keyType db with
  | Some existing =>
      (set_key publicKey signedKey now existing,
       with_user_keys
         ((λ k, if decide (UserKey.user_id k = userId ∧ UserKey.key_type k = keyType)
                then set_key publicKey signedKey now k else k) <$> user_keys db)
         (user_keys_id_seq db) db)
  | None =>
      let row := UserKey.mk (user_keys_id_seq db) userId publicKey signedKey keyType
                            now now in
      (row, with_user_keys (user_keys db ++ [row]) (user_keys_id_seq db + 1) db)
  end.

End WithSigning.

(** False with fewer than two key rows; otherwise whether the key types
    include both 'ecdh' and 'ed25519'. *)
Definition hasRequiredKeys (userId : Z) (db : Db) : bool :=
  let keyTypes := UserKey.key_type <$> filter (λ k, UserKey.user_id k = userId)
                                              (user_keys db) in
  if decide (length keyTypes < 2)%nat then false
  else bool_decide ("ecdh" ∈ keyTypes) && bool_decide ("ed25519" ∈ keyTypes).

End KeyModel.

(** The answers of the contact and key endpoints. *)
Inductive ContactBody : Type :=
| CbFailure (error : string)
| CbSuccess (message : string)
| CbRequest (request : ContactRequest.t) (message : string)
| CbKey (id : Z) (publicKey signedKey keyType : string) (message : string).

Record ContactResponse : Type := mkContactResponse { cr_status : Z; cr_body : ContactBody }.

Module ContactRequestController.

(** [recipientId] is the number in the request body; a throw of a model
    function is caught and answered with 500. *)
Definition sendRequest (senderId recipientId : Z) (now : Z) (db : Db)
    : ContactResponse * Db :=
  if recipientId =? 0 then
    (mkContactResponse 400 (CbFailure "Invalid recipient ID"), db)
  else
    match UserModel.findById recipientId db with
    | Thrown _ db' =>
        (mkContactResponse 500 (CbFailure "Failed to send contact request"), db')
    | Returned None _ => (mkContactResponse 404 (CbFailure "User not found"), db)
    | Returned (Some recipient) _ =>
        if recipientId =? senderId then
          (mkContactResponse 400
             (CbFailure "Cannot send a contact request to yourself"), db)
        else if negb (KeyModel.hasRequiredKeys recipientId db) then
          (mkContactResponse 400
             (CbFailure "Recipient does not have required keys"), db)
        else if bool_decide (Exists (λ contact, UserDTO.id contact = recipientId)
                                    (UserModel.getUserContacts senderId db)) then
          (mkContactResponse 400 (CbFailure "User is already in your contacts"), db)
        else
          let '(request, db') := ContactRequestModel.create now senderId recipientId db in
          (mkContactResponse 200 (CbRequest request "Contact request sent successfully"),
           db')
    end.

(** [requestId] is the number that [parseInt] reads from the path; a throw
    of the model is caught and answered with 500. *)
Definition acceptRequest (userId requestId : Z) (now : Z) (db : Db)
    : ContactResponse * Db :=
  match ContactRequestModel.acceptRequest now requestId userId db with
  | Thrown _ db' =>
      (mkContactResponse 500 (CbFailure "Failed to accept contact request"), db')
  | Returned success db' =>
      if negb success then
        (mkContactResponse 404
           (CbFailure "Contact request not found or you are not the recipient"), db')
      else (mkContactResponse 200 (CbSuccess "Contact request accepted successfully"), db')
  end.

Definition rejectRequest (userId requestId : Z) (now : Z) (db : Db)
    : ContactResponse * Db :=
  match ContactRequestModel.rejectRequest now requestId userId db with
  | Thrown _ db' =>
      (mkContactResponse 500 (CbFailure "Failed to reject contact request"), db')
  | Returned success db' =>
      if negb success then
        (mkContactResponse 404
           (CbFailure "Contact request not found or you are not the recipient"), db')
      else (mkContactResponse 200 (CbSuccess "Contact request rejected successfully"), db')
  end.

Definition cancelRequest (userId requestId : Z) (db : Db) : ContactResponse * Db :=
  match ContactRequestModel.cancelRequest requestId userId db with
  | Thrown _ db' =>
      (mkContactResponse 500 (CbFailure "Failed to cancel contact request"), db')
  | Returned success db' =>
      if negb success then
        (mkContactResponse 404
           (CbFailure "Contact request not found or you are not the sender"), db')
      else (mkContactResponse 200 (CbSuccess "Contact request canceled successfully"), db')
  end.

End ContactRequestController.

Module KeyController.
Section WithSigning.
Variable signPublicKey : string → string.

(** [keyData] is the body [{ public_key, key_type }]. *)
Definition publishKey (userId : Z) (public_key key_type : string) (now : Z) (db : Db)
    : ContactResponse * Db :=
  if String.eqb public_key "" || String.eqb key_type "" then
    (mkContactResponse 400 (CbFailure "Public key and key type are required"), db)
  else if negb (String.eqb key_type "ecdh") && negb (String.eqb key_type "ed25519") then
    (mkContactResponse 400 (CbFailure "Invalid key type"), db)
  else
    let '(key, db') := KeyModel.storeKey signPublicKey now userId public_key key_type db in
    (mkContactResponse 200
       (CbKey (UserKey.id key) (UserKey.public_key key) (UserKey.signed_key key)
              (UserKey.key_type key) "Key published successfully"), db').

End WithSigning.
End KeyController.

(** The constraints of the schema that the statements rely on: the primary
    key of [contact_requests] with its sequence, and the UNIQUE constraints
    of [contact_requests], [contacts] and [user_keys]. *)
Definition request_pair (q : ContactRequest.t) : Z * Z :=
  (ContactRequest.sender_id q, ContactRequest.recipient_id q).

Definition contact_pair (c : Contact.t) : Z * Z :=
  (Contact.user_id c, Contact.contact_id c).

Definition key_pair (k : UserKey.t) : Z * string :=
  (UserKey.user_id k, UserKey.key_type k).

Record db_wf (db : Db) : Prop := mk_db_wf {
  wf_request_ids : NoDup (ContactRequest.id <$> contact_requests db);
  wf_request_seq : Forall (λ q, ContactRequest.id q < contact_requests_id_seq db)
                          (contact_requests db);
  wf_request_pairs : NoDup (request_pair <$> contact_requests db);
  wf_contact_pairs : NoDup (contact_pair <$> contacts db);
  wf_key_pairs : NoDup (key_pair <$> user_keys db)
}.

(** An empty database with user 1 and user 2, and one with a pending
    request 1 -> 2. *)
Definition two_users : Db :=
  mkDb [UserDTO.mk 1 "ann" "ann@example.org"; UserDTO.mk 2 "bob" "bob@example.org"]
       [] 1 [] 1 [] 1.

Definition requested_1_2 : Db := snd (ContactRequestModel.create 10 1 2 two_users).

(** User 2 has published both keys (signed by a stand-in for the server's
    signature), and then user 1 has user 2 as a contact. *)
Definition sample_sign (publicKey : string) : string := "signed:" +:+ publicKey.

Definition bob_has_keys : Db :=
  snd (KeyModel.storeKey sample_sign 12 2 "pk-b" "ed25519"
         (snd (KeyModel.storeKey sample_sign 11 2 "pk-a" "ecdh" two_users))).

Definition bob_is_contact : Db := db_of (UserModel.addContact 20 1 2 bob_has_keys).

(** ** Vocabulary of the statements *)

(** Creation-time order of two rows. *)
Definition created_le (a b : Message) : Prop := created_at a ≤ created_at b.

(** Two rows that agree on every column except [delivered_at]. *)
Definition same_except_delivered_at (m1 m2 : Message) : Prop :=
  id m2 = id m1 ∧ sender_id m2 = sender_id m1 ∧ recipient_id m2 = recipient_id m1 ∧
  encrypted_content m2 = encrypted_content m1 ∧ is_delivered m2 = is_delivered m1 ∧
  created_at m2 = created_at m1.

(** The primary key and its sequence: ids are pairwise distinct and below
    the next value of the sequence. *)
Definition table_wf (t : MessagesTable) : Prop :=
  NoDup (id <$> rows t) ∧ Forall (λ m, id m < messages_id_seq t) (rows t).

(** The two registry updates: [handleConnect] assigns
    [clients.filter(c => c.userId !== userId)] and pushes the new entry;
    [handleDisconnect] assigns [clients.filter(c => c.ws !== ws)]. *)
Definition register (uid : Z) (s : WS) (cs : list WebSocketClient) : list WebSocketClient :=
  filter (λ c, userId c ≠ uid) cs ++ [mkClient uid s].

Definition unregister (s : WS) (cs : list WebSocketClient) : list WebSocketClient :=
  filter (λ c, ws c ≠ s) cs.

Inductive registry_reachable : list WebSocketClient → Prop :=
| reach_empty : registry_reachable []
| reach_register uid s cs :
    registry_reachable cs → registry_reachable (register uid s cs)
| reach_unregister s cs :
    registry_reachable cs → registry_reachable (unregister s cs).

(** What the process reacts to: a frame or a close on a connection, and
    the HTTP calls that touch the relay state. *)
Inductive Request : Type :=
| ReqFrame (s : WS) (data : option WebSocketMessage) (now : Z)
| ReqClose (s : WS)
| ReqSendSignal (senderId : Z) (signalData : SignalMessage.t) (now : Z)
| ReqGetPendingSignals (uid now : Z)
| ReqGetOfflineMessages (uid now : Z)
| ReqMarkMessagesAsRead (uid : Z) (messageIds : option (list Z))
| ReqStoreMessage (senderId recipientId : Z) (content : string) (now : Z)
| ReqStoreReceivedMessage (recipientId senderId : Z) (content : string) (now later : Z).

Section Serve.
Variable verifyToken : string → option TokenPayload.
Variable JSON_stringify : json → string.
Variable JSON_parse : string → option json.

Definition serve (w : World) (r : Request) : World :=
  match r with
  | ReqFrame s data now => onMessage verifyToken s data now w
  | ReqClose s => onClose s w
  | ReqSendSignal senderId signalData now =>
      snd (SignalController.sendSignal JSON_stringify senderId signalData now w)
  | ReqGetPendingSignals uid now =>
      snd (SignalController.getPendingSignals JSON_parse uid now w)
  | ReqGetOfflineMessages uid now =>
      snd (MessageController.getOfflineMessages uid now w)
  | ReqMarkMessagesAsRead uid messageIds =>
      snd (MessageController.markMessagesAsRead uid messageIds w)
  | ReqStoreMessage senderId recipientId content now =>
      snd (MessageController.storeMessage senderId recipientId content now w)
  | ReqStoreReceivedMessage recipientId senderId content now later =>
      snd (MessageController.storeReceivedMessage recipientId senderId content now later w)
  end.
End Serve.

(** The effects of a successful connect of user [uid] on transport [s],
    in program order: registry update, presence write with its expiry, the
    confirmation frame, the presence broadcast to every registered entry,
    the fetch, and, when something was fetched, the bundle and the
    delivery marking.  The bundle lists, for each fetched row in fetch
    order, its id, its sender, its content and its creation time. *)
Definition connect_effects (uid : Z) (s : WS) (now : Z) (w : World) : list Event :=
  let key := presence_key uid in
  let fetched := MessageModel.getUndeliveredMessages uid (messages w) in
  [EvClientsFilterUser uid; EvClientsPush (mkClient uid s);
   EvRedisSet key "online"; EvRedisExpire key 60;
   EvWsSend s (FrConnect true uid)]
  ++ ((λ c, EvWsSend (ws c) (FrPresence uid online)) <$> register uid s (clients w))
  ++ [EvGetUndelivered uid]
  ++ match fetched with
     | [] => []
     | _ => [EvWsSend s (FrPendingMessages
                           ((λ m, mkPending (id m) (sender_id m) (encrypted_content m)
                                            (created_at m)) <$> fetched));
             EvMarkAsDelivered now (id <$> fetched)]
     end.

(** Rows whose id is in [ids] are delivered, and the sequence is past
    those ids. *)
Definition delivered_for_good (ids : list Z) (t : MessagesTable) : Prop :=
  Forall (λ m, id m ∈ ids → is_delivered m = true) (rows t)
  ∧ Forall (λ i, i < messages_id_seq t) ids.

(** The effects that a handler appended to the trace. *)
Definition new_events (before after : World) : list Event :=
  drop (length (trace before)) (trace after).

(** Two rows that are the same message: same id, sender, recipient, content
    and creation time, with the delivered flag of the second at least that
    of the first. *)
Definition same_message (m m' : Message) : Prop :=
  id m' = id m ∧ sender_id m' = sender_id m ∧ recipient_id m' = recipient_id m
  ∧ encrypted_content m' = encrypted_content m ∧ created_at m' = created_at m
  ∧ (is_delivered m = true → is_delivered m' = true).

(** The transports closed by a list of effects, in order. *)
Definition closed_by (es : list Event) : list WS :=
  omap (λ e, match e with EvWsClose s => Some s | _ => None end) es.

(** The requests that open or end a session: a connect frame, a
    disconnect frame, a transport close. *)
Definition is_session_request (r : Request) : Prop :=
  match r with
  | ReqFrame _ (Some (MsgConnect _)) _ | ReqFrame _ (Some MsgDisconnect) _
  | ReqClose _ => True
  | _ => False
  end.

(** The HTTP requests on the mailbox. *)
Definition is_mailbox_request (r : Request) : Prop :=
  match r with
  | ReqGetPendingSignals _ _ | ReqGetOfflineMessages _ _ | ReqMarkMessagesAsRead _ _
  | ReqStoreMessage _ _ _ _ | ReqStoreReceivedMessage _ _ _ _ _ => True
  | _ => False
  end.

(** The effects of one heartbeat on a registry entry. *)
Definition heartbeat_effects (c : WebSocketClient) : list Event :=
  [EvRedisSet (presence_key (userId c)) "online";
   EvRedisExpire (presence_key (userId c)) 60].

(** The effects that only write to a transport. *)
Definition is_send (e : Event) : Prop :=
  match e with EvWsSend _ _ => True | _ => False end.

(** ** Sample data *)

(** The ids of the users in the examples. *)
Definition sample_users : list Z := [1; 2; 3; 4; 7; 8; 9; 10].

(** One queued message from user 1 to user 2, stored at time 5. *)
Definition one_message : MessagesTable :=
  snd (MessageModel.storeMessage sample_users 5 1 2 "hello" empty_table).

(** A message for user 2 and a message for user 3. *)
Definition two_recipients : MessagesTable :=
  snd (MessageModel.storeMessage sample_users 6 1 3 "for 3" one_message).

(** Users 7 and 8 connected on transports 1 and 2; nothing else. *)
Definition two_clients : World :=
  mkWorld [mkClient 7 1; mkClient 8 2] ∅ sample_users empty_table [].


(** User 7 has sent "hello" to user 9, who is not connected. *)
Definition queued_for_9 : World :=
  handleMessage 1 (ChatMessage.mk 9 "hello" 5) 100 two_clients.

(** Stand-ins for the JSON codec and the token check in closed examples:
    every signal serialises to one fixed text, which parses back to a
    signal object; the only valid token belongs to user 9. *)
Definition sample_stringify (v : json) : string := "{signal}".

Definition sample_parse (s : string) : option json :=
  if String.eqb s "{signal}" then
    Some (JObj [("type", JStr "signal"); ("signalType", JStr "offer"); ("data", JStr "sdp")])
  else None.

Definition sample_verifyToken (token : string) : option TokenPayload :=
  if String.eqb token "token-of-9" then Some (mkTokenPayload 9 "nine@example.org")
  else None.

(** A token check that knows users 9 and 10. *)
Definition two_tokens (token : string) : option TokenPayload :=
  if String.eqb token "token-of-9" then Some (mkTokenPayload 9 "nine@example.org")
  else if String.eqb token "token-of-10" then Some (mkTokenPayload 10 "ten@example.org")
  else None.

(** User 9 has the chat message "hello" and an offer from user 7 queued. *)
Definition mixed_for_9 : World :=
  snd (SignalController.sendSignal sample_stringify 7
         (SignalMessage.mk "offer" 9 (JStr "sdp")) 110 queued_for_9).

(** * Properties *)

(** Closed decidable side conditions of the examples. *)
Ltac by_decide := apply (bool_decide_unpack _); vm_compute; exact I.

(** ** Sorting by creation time *)

Lemma insert_by_created_at_perm m l :
  Permutation (insert_by_created_at m l) (m :: l).
Proof.
  induction l as [|x l IH]; simpl; [done|].
  case_decide; [done|].
  rewrite IH. apply perm_swap.
Qed.

Lemma order_by_created_at_perm l : Permutation (order_by_created_at l) l.
Proof.
  induction l as [|x l IH]; simpl; [done|].
  rewrite insert_by_created_at_perm. by constructor.
Qed.

Lemma insert_by_created_at_sorted m l :
  StronglySorted created_le l → StronglySorted created_le (insert_by_created_at m l).
Proof.
  induction 1 as [|x l Hl IH Hx]; simpl.
  - repeat constructor.
  - case_decide as Hmx.
    + constructor; [by constructor|].
      constructor; [done|].
      eapply Forall_impl; [exact Hx|]. unfold created_le in *. intros; lia.
    + constructor; [done|].
      rewrite (Forall_forall (created_le x)). intros y Hy.
      rewrite insert_by_created_at_perm in Hy.
      apply elem_of_cons in Hy as [->|Hy].
      * unfold created_le. lia.
      * rewrite Forall_forall in Hx. by apply Hx.
Qed.

Lemma order_by_created_at_sorted l : StronglySorted created_le (order_by_created_at l).
Proof.
  induction l; simpl; [constructor|]. by apply insert_by_created_at_sorted.
Qed.

(** A list that is already in creation order is returned as it is. *)
Lemma order_by_created_at_id l :
  StronglySorted created_le l → order_by_created_at l = l.
Proof.
  induction 1 as [|x l Hl IH Hx]; simpl; [done|].
  rewrite IH. destruct l as [|y l]; simpl; [done|].
  inversion Hx; subst. by rewrite decide_True.
Qed.

Lemma insert_by_created_at_app m l k :
  Forall (created_le m) k →
  insert_by_created_at m (l ++ k) = insert_by_created_at m l ++ k.
Proof.
  intros Hk. induction l as [|x l IH]; simpl.
  - destruct k as [|y k]; simpl; [done|].
    inversion Hk; subst. by rewrite decide_True.
  - case_decide; [done|]. by rewrite IH.
Qed.

(** The sort is stable: rows that are in creation order among themselves
    keep their relative order. *)
Lemma insert_by_created_at_sublist m k l :
  Forall (created_le m) k → k `sublist_of` l →
  m :: k `sublist_of` insert_by_created_at m l.
Proof.
  intros Hk. induction l as [|x l IH]; intros Hsub; simpl.
  - apply sublist_nil_r in Hsub as ->. done.
  - case_decide as Hmx; [by apply sublist_skip|].
    apply sublist_cons_r in Hsub as [Hsub|(k' & -> & Hsub)].
    + by apply sublist_cons, IH.
    + inversion Hk; subst. unfold created_le in *. lia.
Qed.

Lemma sublist_insert_by_created_at m l :
  l `sublist_of` insert_by_created_at m l.
Proof.
  induction l as [|x l IH]; simpl; [apply sublist_nil_l|].
  case_decide; [by apply sublist_cons|by apply sublist_skip].
Qed.

Lemma order_by_created_at_sublist k l :
  StronglySorted created_le k → k `sublist_of` l →
  k `sublist_of` order_by_created_at l.
Proof.
  intros Hk Hsub. induction Hsub as [|x k l Hsub IH|x k l Hsub IH]; simpl.
  - done.
  - inversion Hk; subst. apply insert_by_created_at_sublist; [done|]. by apply IH.
  - etrans; [by apply IH|]. apply sublist_insert_by_created_at.
Qed.

Lemma order_by_created_at_app l k :
  Forall (λ a, Forall (created_le a) k) l →
  StronglySorted created_le k →
  order_by_created_at (l ++ k) = order_by_created_at l ++ k.
Proof.
  intros Hl Hk. induction Hl as [|a l Ha Hl IH]; simpl.
  - by apply order_by_created_at_id.
  - rewrite IH. by apply insert_by_created_at_app.
Qed.

(** With pairwise distinct creation times there is only one way to list
    given rows in creation order. *)
Lemma sorted_by_created_at_unique l1 l2 :
  StronglySorted created_le l1 → StronglySorted created_le l2 →
  Permutation l1 l2 → NoDup (created_at <$> l1) → l1 = l2.
Proof.
  revert l2. induction l1 as [|a l1 IH]; intros l2 Hs1 Hs2 Hp Hnd.
  - by apply Permutation_nil in Hp.
  - destruct l2 as [|b l2]; [by apply Permutation_sym, Permutation_nil in Hp|].
    inversion Hs1 as [|? ? Hs1' Ha]; subst.
    inversion Hs2 as [|? ? Hs2' Hb]; subst.
    rewrite fmap_cons in Hnd. apply NoDup_cons in Hnd as [Hna Hnd].
    assert (Hab : a = b).
    { assert (Hal : a ∈ b :: l2) by (rewrite <- Hp; left).
      assert (Hbl : b ∈ a :: l1) by (rewrite Hp; left).
      apply elem_of_cons in Hal as [?|Hal]; [done|].
      apply elem_of_cons in Hbl as [?|Hbl]; [done|].
      rewrite Forall_forall in Ha. rewrite Forall_forall in Hb.
      specialize (Ha _ Hbl). specialize (Hb _ Hal). unfold created_le in *.
      exfalso. apply Hna. apply list_elem_of_fmap. exists b. split; [lia|done]. }
    subst b. f_equal. apply IH; try done.
    by apply Permutation_cons_inv in Hp.
Qed.

(** ** The mailbox *)

Section Mailbox.
Import MessageModel.

(** The row that an INSERT at time [now] adds to table [t]. *)
Lemma storeMessage_users us now s r c t :
  s ∈ us → r ∈ us →
  storeMessage us now s r c t
  = (Some (mkMessage (messages_id_seq t) s r c false now None),
     mkTable (rows t ++ [mkMessage (messages_id_seq t) s r c false now None])
             (messages_id_seq t + 1)).
Proof. intros Hs Hr. unfold storeMessage. by rewrite decide_True. Qed.

Lemma storeMessage_not_users us now s r c t :
  ¬ (s ∈ us ∧ r ∈ us) →
  fst (storeMessage us now s r c t) = None
  ∧ rows (snd (storeMessage us now s r c t)) = rows t
  ∧ messages_id_seq (snd (storeMessage us now s r c t))
    = if decide (int4 s ∧ int4 r) then messages_id_seq t + 1 else messages_id_seq t.
Proof.
  intros Hno. unfold storeMessage. rewrite decide_False by done. by case_decide.
Qed.

(** Whatever the outcome, the rows afterwards are the rows before and the
    returned row, if there is one; a returned row carries the value of the
    sequence before the call, and the sequence never goes back. *)
Lemma rows_storeMessage us now s r c t :
  rows (snd (storeMessage us now s r c t))
  = rows t ++ option_list (fst (storeMessage us now s r c t)).
Proof.
  unfold storeMessage. repeat case_decide; simpl; by rewrite ?app_nil_r.
Qed.

Lemma seq_storeMessage us now s r c t :
  messages_id_seq t ≤ messages_id_seq (snd (storeMessage us now s r c t)).
Proof. unfold storeMessage. repeat case_decide; simpl; lia. Qed.

Lemma fst_storeMessage us now s r c t m :
  fst (storeMessage us now s r c t) = Some m →
  m = mkMessage (messages_id_seq t) s r c false now None
  ∧ (s ∈ us ∧ r ∈ us)
  ∧ messages_id_seq (snd (storeMessage us now s r c t)) = messages_id_seq t + 1.
Proof.
  unfold storeMessage. repeat case_decide; simpl; intros [= <-]; done.
Qed.

Lemma rows_markAsDelivered now ids t :
  rows (snd (markAsDelivered now ids t))
  = (λ m, if decide (id m ∈ ids) then set_delivered now m else m) <$> rows t.
Proof.
  destruct ids as [|i ids]; [|done]. simpl.
  transitivity (Datatypes.id <$> rows t); [by rewrite list_fmap_id|].
  apply list_fmap_ext. by intros ? m _.
Qed.

Lemma seq_markAsDelivered now ids t :
  messages_id_seq (snd (markAsDelivered now ids t)) = messages_id_seq t.
Proof. by destruct ids. Qed.

Lemma count_markAsDelivered now ids t :
  fst (markAsDelivered now ids t)
  = Z.of_nat (length (filter (λ m, id m ∈ ids) (rows t))).
Proof.
  destruct ids as [|i ids]; [|done]. simpl.
  replace (filter (λ m, id m ∈ []) (rows t)) with (@nil Message); [done|].
  symmetry. induction (rows t) as [|m l IH]; [done|].
  rewrite filter_cons_False; [done|]. apply not_elem_of_nil.
Qed.

Lemma snd_markAsRead ids uid t : snd (markAsRead ids uid t) = t.
Proof. by destruct ids. Qed.

Lemma getUndeliveredMessages_perm uid t :
  Permutation (getUndeliveredMessages uid t)
              (filter (λ m, recipient_id m = uid ∧ is_delivered m = false) (rows t)).
Proof. apply order_by_created_at_perm. Qed.

Lemma elem_of_getUndeliveredMessages uid t m :
  m ∈ getUndeliveredMessages uid t
  ↔ (recipient_id m = uid ∧ is_delivered m = false) ∧ m ∈ rows t.
Proof. rewrite getUndeliveredMessages_perm. by rewrite list_elem_of_filter. Qed.

Lemma getUndeliveredMessages_nil uid t :
  getUndeliveredMessages uid t = []
  ↔ Forall (λ m, recipient_id m = uid → is_delivered m = true) (rows t).
Proof.
  rewrite Forall_forall. split.
  - intros Hnil m Hm Hr. destruct (is_delivered m) eqn:Hd; [done|].
    assert (m ∈ getUndeliveredMessages uid t) as Hin
      by (by apply elem_of_getUndeliveredMessages).
    rewrite Hnil in Hin. by apply not_elem_of_nil in Hin.
  - intros H. destruct (getUndeliveredMessages uid t) as [|m l] eqn:E; [done|].
    assert (m ∈ getUndeliveredMessages uid t) as Hin by (rewrite E; left).
    apply elem_of_getUndeliveredMessages in Hin as [[Hr Hd] Hm].
    specialize (H m Hm Hr). congruence.
Qed.

End Mailbox.

Section MailboxClaims.
Import MessageModel.

Lemma length_filter_fmap_id (f : Message → Message) (ids : list Z) l :
  (∀ m, id (f m) = id m) →
  length (filter (λ m, id m ∈ ids) (f <$> l)) = length (filter (λ m, id m ∈ ids) l).
Proof.
  intros Hf. induction l as [|m l IH]; [done|].
  rewrite fmap_cons. destruct (decide (id m ∈ ids)) as [Hin|Hin].
  - rewrite !filter_cons_True; [|done|by rewrite Hf]. simpl. by rewrite IH.
  - rewrite !filter_cons_False; [done|done|by rewrite Hf].
Qed.

Lemma id_mark_delivered (now : Z) (ids : list Z) (m : Message) :
  id (if decide (id m ∈ ids) then set_delivered now m else m) = id m.
Proof. by case_decide. Qed.

(** C2, as amended: a second [markAsDelivered] with the same ids raises
    nothing and ends in the state one call at the second timestamp gives:
    every column except [delivered_at] is as after the first call, the
    returned count is the same, and [delivered_at] of the rows named by the
    ids is overwritten with the time of the second call (with the same
    timestamp in both calls the state is identical).  An empty id list
    changes no row and returns 0. *)
Theorem C2_markAsDelivered_twice (now1 now2 : Z) (ids : list Z) (t : MessagesTable) :
  let first := markAsDelivered now1 ids t in
  let second := markAsDelivered now2 ids (snd first) in
  snd second = snd (markAsDelivered now2 ids t)
  ∧ fst second = fst first
  ∧ Forall2 same_except_delivered_at (rows (snd first)) (rows (snd second))
  ∧ Forall2 (λ m1 m2, delivered_at m2
                      = if decide (id m1 ∈ ids) then Some now2 else delivered_at m1)
            (rows (snd first)) (rows (snd second))
  ∧ snd (markAsDelivered now1 ids (snd first)) = snd first
  ∧ markAsDelivered now1 [] t = (0, t).
Proof.
  simpl.
  assert (Hagain : ∀ n, snd (markAsDelivered n ids (snd (markAsDelivered now1 ids t)))
                        = snd (markAsDelivered n ids t)).
  { intros n. destruct t as [rs sq].
    assert (∀ t1 t2, rows t1 = rows t2 → messages_id_seq t1 = messages_id_seq t2 → t1 = t2)
      as Heq by (intros [] []; simpl; congruence).
    apply Heq; [|by rewrite !seq_markAsDelivered].
    rewrite !rows_markAsDelivered. rewrite <- list_fmap_compose.
    apply list_fmap_ext. intros _ m _. simpl.
    destruct (decide (id m ∈ ids)) as [Hin|Hin].
    - by rewrite decide_True.
    - by rewrite decide_False. }
  split; [apply Hagain|].
  split.
  { rewrite !count_markAsDelivered, rows_markAsDelivered.
    f_equal. apply length_filter_fmap_id. intros m. apply id_mark_delivered. }
  split.
  { rewrite (rows_markAsDelivered now2). apply Forall2_fmap_r, Forall_Forall2_diag.
    apply Forall_forall. intros m Hm.
    rewrite rows_markAsDelivered in Hm.
    apply list_elem_of_fmap in Hm as (m0 & -> & _).
    unfold compose, same_except_delivered_at. rewrite id_mark_delivered.
    destruct (decide (id m0 ∈ ids)); [by rewrite decide_True|by rewrite decide_False]. }
  split.
  { rewrite (rows_markAsDelivered now2). apply Forall2_fmap_r, Forall_Forall2_diag.
    apply Forall_forall. intros m _. unfold compose. by case_decide. }
  split; [|done].
  rewrite Hagain. done.
Qed.

(** C2, as stated, fails: the second call moves [delivered_at] of an
    already delivered row from the first to the second timestamp. *)
Lemma C2_second_call_restamps :
  let first := snd (markAsDelivered 10 [1] one_message) in
  let second := snd (markAsDelivered 20 [1] first) in
  second ≠ first
  ∧ delivered_at <$> rows first = [Some 10]
  ∧ delivered_at <$> rows second = [Some 20].
Proof. vm_compute. split; [discriminate|done]. Qed.

(** C8: the UPDATE of [markAsRead] is scoped by [recipient_id = userId], but
    it assigns [is_read] and [read_at], columns that the [messages] table
    does not have.  So the call changes no row, of no recipient, and it
    throws for every non-empty id list: for user 2 and the ids 1 and 2, of
    which row 2 belongs to user 3, the call throws instead of leaving row 2
    out in silence, and the endpoint answers 500. *)
Theorem C8_markAsRead_throws_on_messages_table :
  (∀ ids uid t, snd (markAsRead ids uid t) = t
                ∧ (fst (markAsRead ids uid t) = None ↔ ids ≠ []))
  ∧ (id <$> rows two_recipients = [1; 2]
     ∧ recipient_id <$> rows two_recipients = [2; 3])
  ∧ markAsRead [1; 2] 2 two_recipients = (None, two_recipients)
  ∧ (let w := mkWorld [] ∅ sample_users two_recipients [] in
     let r := MessageController.markMessagesAsRead 2 (Some [1; 2]) w in
     fst r = mkResponse 500 (BodyFailure "Failed to mark messages as read")
     ∧ messages (snd r) = two_recipients).
Proof.
  split; [|by vm_compute].
  intros ids uid t. split; [apply snd_markAsRead|].
  by destruct ids.
Qed.

End MailboxClaims.

Section Fifo.
Import MessageModel.

Lemma filter_storeMessage (us : list Z) (uid now s : Z) (c : string) (t : MessagesTable) :
  s ∈ us → uid ∈ us →
  filter (λ m, recipient_id m = uid ∧ is_delivered m = false)
         (rows (snd (storeMessage us now s uid c t)))
  = filter (λ m, recipient_id m = uid ∧ is_delivered m = false) (rows t)
    ++ [mkMessage (messages_id_seq t) s uid c false now None].
Proof.
  intros Hs Hu. rewrite (storeMessage_users us now s uid c t Hs Hu). simpl.
  rewrite filter_app. f_equal. by rewrite filter_cons_True.
Qed.

(** C7: [getUndeliveredMessages] returns exactly the rows of the recipient
    that are not delivered (as a list: a permutation of them), in ascending
    creation time.  Three messages stored for one recipient, by senders that
    are users like the recipient, at times [now1 ≤ now2 ≤ now3] are stored
    as rows [m1], [m2], [m3] and come back in the order they were stored;
    when no row of the table is younger than the first of them, they come
    right after what was already queued; and when the three times differ
    and nothing was queued before, every listing of the selected rows in
    creation order is [m1; m2; m3], whatever the order among equal times. *)
Theorem C7_getUndeliveredMessages_fifo
    (us : list Z) (uid : Z) (t : MessagesTable) (now1 now2 now3 s1 s2 s3 : Z)
    (c1 c2 c3 : string)
    (Huid : uid ∈ us) (Hs1 : s1 ∈ us) (Hs2 : s2 ∈ us) (Hs3 : s3 ∈ us)
    (H12 : now1 ≤ now2) (H23 : now2 ≤ now3) :
  let r1 := storeMessage us now1 s1 uid c1 t in
  let r2 := storeMessage us now2 s2 uid c2 (snd r1) in
  let r3 := storeMessage us now3 s3 uid c3 (snd r2) in
  let m1 := mkMessage (messages_id_seq t) s1 uid c1 false now1 None in
  let m2 := mkMessage (messages_id_seq t + 1) s2 uid c2 false now2 None in
  let m3 := mkMessage (messages_id_seq t + 1 + 1) s3 uid c3 false now3 None in
  (∀ u tb,
      Permutation (getUndeliveredMessages u tb)
                  (filter (λ m, recipient_id m = u ∧ is_delivered m = false) (rows tb))
      ∧ StronglySorted created_le (getUndeliveredMessages u tb))
  ∧ (fst r1 = Some m1 ∧ fst r2 = Some m2 ∧ fst r3 = Some m3)
  ∧ [m1; m2; m3] `sublist_of` getUndeliveredMessages uid (snd r3)
  ∧ (Forall (λ m, created_at m ≤ now1) (rows t) →
     getUndeliveredMessages uid (snd r3)
     = getUndeliveredMessages uid t ++ [m1; m2; m3])
  ∧ (∀ l, now1 < now2 → now2 < now3 → getUndeliveredMessages uid t = [] →
          Permutation l (filter (λ m, recipient_id m = uid ∧ is_delivered m = false)
                                (rows (snd r3))) →
          StronglySorted created_le l →
          l = [m1; m2; m3]).
Proof.
  intros r1 r2 r3 m1 m2 m3.
  assert (Hr1 : r1 = (Some m1, mkTable (rows t ++ [m1]) (messages_id_seq t + 1)))
    by (by apply storeMessage_users).
  assert (Hr2 : r2 = (Some m2, mkTable (rows (snd r1) ++ [m2])
                                       (messages_id_seq t + 1 + 1))).
  { unfold r2. rewrite (storeMessage_users us now2 s2 uid c2 (snd r1) Hs2 Huid).
    by rewrite Hr1. }
  assert (Hr3 : fst r3 = Some m3).
  { unfold r3. rewrite (storeMessage_users us now3 s3 uid c3 (snd r2) Hs3 Huid).
    by rewrite Hr2. }
  assert (Hsel : filter (λ m, recipient_id m = uid ∧ is_delivered m = false)
                        (rows (snd r3))
                 = filter (λ m, recipient_id m = uid ∧ is_delivered m = false) (rows t)
                   ++ [m1; m2; m3]).
  { unfold r3. rewrite (filter_storeMessage us uid now3 s3 c3 (snd r2) Hs3 Huid).
    unfold r2. rewrite (filter_storeMessage us uid now2 s2 c2 (snd r1) Hs2 Huid).
    unfold r1. rewrite (filter_storeMessage us uid now1 s1 c1 t Hs1 Huid).
    rewrite <- !app_assoc. simpl.
    fold r1. fold r2. by rewrite Hr2, Hr1. }
  assert (Hnew : StronglySorted created_le [m1; m2; m3]).
  { repeat constructor; unfold created_le; simpl; lia. }
  split; [|split; [|split; [|split]]].
  - intros u tb. split.
    + apply getUndeliveredMessages_perm.
    + apply order_by_created_at_sorted.
  - by rewrite Hr1, Hr2.
  - unfold getUndeliveredMessages. rewrite Hsel.
    apply order_by_created_at_sublist; [done|]. apply sublist_inserts_l. done.
  - intros Hold. unfold getUndeliveredMessages at 1. rewrite Hsel.
    apply order_by_created_at_app; [|done].
    apply Forall_forall. intros m Hm.
    apply list_elem_of_filter in Hm as [_ Hm].
    rewrite Forall_forall in Hold. specialize (Hold m Hm).
    repeat constructor; unfold created_le; simpl; lia.
  - intros l Hlt12 Hlt23 Hnone Hperm Hsorted.
    assert (filter (λ m, recipient_id m = uid ∧ is_delivered m = false) (rows t) = [])
      as Hnil.
    { apply Permutation_nil. rewrite <- Hnone. apply getUndeliveredMessages_perm. }
    rewrite Hsel, Hnil in Hperm. simpl in Hperm.
    symmetry. apply sorted_by_created_at_unique; [done|done|by symmetry|].
    simpl. rewrite !NoDup_cons, !not_elem_of_cons.
    repeat split; try lia; try apply not_elem_of_nil. apply NoDup_nil_2.
Qed.

Lemma C7_getUndeliveredMessages_fifo_witness :
  getUndeliveredMessages 2
    (snd (storeMessage sample_users 9 4 2 "m3"
      (snd (storeMessage sample_users 8 3 2 "m2"
        (snd (storeMessage sample_users 7 1 2 "m1" two_recipients))))))
  = [mkMessage 1 1 2 "hello" false 5 None;
     mkMessage 3 1 2 "m1" false 7 None;
     mkMessage 4 3 2 "m2" false 8 None;
     mkMessage 5 4 2 "m3" false 9 None].
Proof.
  apply (proj1 (proj2 (proj2 (proj2 (C7_getUndeliveredMessages_fifo
                        sample_users 2 two_recipients 7 8 9 1 3 4 "m1" "m2" "m3"
                        ltac:(by_decide)
                        ltac:(by_decide)
                        ltac:(by_decide)
                        ltac:(by_decide)
                        ltac:(by compute) ltac:(by compute)))))).
  repeat constructor; by compute.
Defined.

End Fifo.

(** ** Effects and the trace *)

Lemma trace_step e w : trace (step e w) = trace w ++ [e].
Proof. by destruct e. Qed.

Lemma run_app es1 es2 w : run (es1 ++ es2) w = run es2 (run es1 w).
Proof. unfold run. by rewrite foldl_app. Qed.

Lemma trace_run es w : trace (run es w) = trace w ++ es.
Proof.
  revert w. induction es as [|e es IH]; intros w; simpl.
  - by rewrite app_nil_r.
  - unfold run in *. simpl. rewrite IH, trace_step, <- app_assoc. done.
Qed.

Lemma new_events_app (w w' : World) (es : list Event) :
  trace w' = trace w ++ es → new_events w w' = es.
Proof. intros H. unfold new_events. rewrite H. apply drop_app_length. Qed.

(** Sending frames touches neither the registry, nor Redis, nor the table. *)
Lemma user_ids_step e w : user_ids (step e w) = user_ids w.
Proof. by destruct e. Qed.

Lemma user_ids_run es w : user_ids (run es w) = user_ids w.
Proof.
  revert w. induction es as [|e es IH]; intros w; [done|].
  unfold run in *. simpl. by rewrite IH, user_ids_step.
Qed.

Lemma run_sends es w :
  Forall is_send es →
  clients (run es w) = clients w ∧ redis (run es w) = redis w
  ∧ messages (run es w) = messages w.
Proof.
  intros H. revert w. induction H as [|e es He _ IH]; intros w; [done|].
  unfold run in *. simpl. destruct e; try done.
  destruct (IH (step (EvWsSend w0 f) w)) as (-> & -> & ->). done.
Qed.

Lemma broadcastPresence_sends uid st w :
  Forall is_send ((λ c, EvWsSend (ws c) (FrPresence uid st)) <$> clients w).
Proof. apply Forall_fmap, Forall_forall. by intros. Qed.

Lemma broadcastPresence_frame uid st w :
  clients (broadcastPresence uid st w) = clients w
  ∧ redis (broadcastPresence uid st w) = redis w
  ∧ messages (broadcastPresence uid st w) = messages w.
Proof. apply run_sends, broadcastPresence_sends. Qed.

Lemma trace_broadcastPresence uid st w :
  trace (broadcastPresence uid st w)
  = trace w ++ ((λ c, EvWsSend (ws c) (FrPresence uid st)) <$> clients w).
Proof. apply trace_run. Qed.

(** ** Lookups in the registry *)

Lemma find_client_None (P : WebSocketClient → Prop) `{!∀ c, Decision (P c)} l :
  find_client P l = None ↔ Forall (λ c, ¬ P c) l.
Proof.
  unfold find_client. rewrite fmap_None, list_find_None. done.
Qed.

Lemma find_client_Some (P : WebSocketClient → Prop) `{!∀ c, Decision (P c)} l c :
  find_client P l = Some c → c ∈ l ∧ P c.
Proof.
  unfold find_client. intros Hfind.
  apply fmap_Some in Hfind as ([i c'] & Hf & ->).
  apply list_find_Some in Hf as (Hi & HP & _). simpl.
  split; [|done]. by eapply list_elem_of_lookup_2.
Qed.

Lemma find_client_ws_None s l :
  s ∉ ws <$> l → find_client (λ c, ws c = s) l = None.
Proof.
  intros H. apply find_client_None, Forall_forall. intros c Hc Heq.
  apply H. subst s. by apply list_elem_of_fmap_2.
Qed.

Lemma find_client_userId_None uid l :
  uid ∉ userId <$> l → find_client (λ c, userId c = uid) l = None.
Proof.
  intros H. apply find_client_None, Forall_forall. intros c Hc Heq.
  apply H. subst uid. by apply list_elem_of_fmap_2.
Qed.

(** ** Routing of inbound frames *)

Section Routing.
Variable verifyToken : string → option TokenPayload.

(** C10: a signal or message frame on a transport that is not in the
    registry is answered with one 'Not authenticated' error frame on that
    transport and nothing else happens: the handler's whole effect is that
    one send, and registry, presence store and mailbox are as before. *)
Theorem C10_frame_on_unregistered_transport
    (s : WS) (now : Z) (w : World) (Hunreg : s ∉ ws <$> clients w) :
  let reply := EvWsSend s (FrError "Not authenticated") in
  (∀ payload, onMessage verifyToken s (Some (MsgSignal payload)) now w = step reply w)
  ∧ (∀ payload, onMessage verifyToken s (Some (MsgMessage payload)) now w = step reply w)
  ∧ trace (step reply w) = trace w ++ [reply]
  ∧ clients (step reply w) = clients w
  ∧ redis (step reply w) = redis w
  ∧ messages (step reply w) = messages w.
Proof.
  simpl. pose proof (find_client_ws_None s (clients w) Hunreg) as Hnone.
  repeat split.
  - intros payload. unfold handleSignal. by rewrite Hnone.
  - intros payload. unfold handleMessage. by rewrite Hnone.
Qed.

(** C4, as amended: a signal frame from a registered transport to a
    recipient that is not in the registry is not persisted, whatever its
    subtype (offer, answer or ICE candidate): the handler sends one
    'Recipient is offline' error frame back to the sender and leaves the
    mailbox, the registry and the presence store as they were. *)
Theorem C4_handleSignal_recipient_absent
    (s : WS) (payload : SignalMessage.t) (now : Z) (w : World) (sender : WebSocketClient)
    (Hsender : find_client (λ c, ws c = s) (clients w) = Some sender)
    (Habsent : SignalMessage.recipient payload ∉ userId <$> clients w) :
  let w' := onMessage verifyToken s (Some (MsgSignal payload)) now w in
  trace w' = trace w ++ [EvWsSend s (FrError "Recipient is offline")]
  ∧ messages w' = messages w
  ∧ clients w' = clients w
  ∧ redis w' = redis w.
Proof.
  simpl. unfold handleSignal. rewrite Hsender.
  by rewrite (find_client_userId_None _ _ Habsent).
Qed.

End Routing.

Lemma C10_frame_on_unregistered_transport_witness :
  let reply := EvWsSend 5 (FrError "Not authenticated") in
  (∀ payload, onMessage sample_verifyToken 5 (Some (MsgSignal payload)) 100 two_clients
              = step reply two_clients)
  ∧ (∀ payload, onMessage sample_verifyToken 5 (Some (MsgMessage payload)) 100 two_clients
                = step reply two_clients)
  ∧ trace (step reply two_clients) = trace two_clients ++ [reply]
  ∧ clients (step reply two_clients) = clients two_clients
  ∧ redis (step reply two_clients) = redis two_clients
  ∧ messages (step reply two_clients) = messages two_clients.
Proof.
  apply (C10_frame_on_unregistered_transport sample_verifyToken 5 100 two_clients).
  simpl. rewrite !not_elem_of_cons. repeat split; try discriminate. apply not_elem_of_nil.
Defined.

Lemma C4_handleSignal_recipient_absent_witness :
  let w' := onMessage sample_verifyToken 1
              (Some (MsgSignal (SignalMessage.mk "offer" 9 (JStr "sdp")))) 100 two_clients in
  trace w' = trace two_clients ++ [EvWsSend 1 (FrError "Recipient is offline")]
  ∧ messages w' = messages two_clients
  ∧ clients w' = clients two_clients
  ∧ redis w' = redis two_clients.
Proof.
  apply (C4_handleSignal_recipient_absent sample_verifyToken 1
           (SignalMessage.mk "offer" 9 (JStr "sdp")) 100 two_clients (mkClient 7 1)).
  - reflexivity.
  - simpl. rewrite !not_elem_of_cons. repeat split; try discriminate. apply not_elem_of_nil.
Defined.

(** C4, as stated, fails: an offer sent over the authenticated transport of
    user 7 to user 9, who is not connected, is answered with an error frame;
    no INSERT is issued and the table has no row afterwards. *)
Lemma C4_offer_to_absent_recipient_not_stored :
  let w' := onMessage sample_verifyToken 1
              (Some (MsgSignal (SignalMessage.mk "offer" 9 (JStr "sdp")))) 100 two_clients in
  find_client (λ c, ws c = 1%nat) (clients two_clients) = Some (mkClient 7 1)
  ∧ find_client (λ c, userId c = 9) (clients two_clients) = None
  ∧ trace w' = [EvWsSend 1 (FrError "Recipient is offline")]
  ∧ rows (messages w') = [].
Proof. vm_compute. done. Qed.

(** ** The HTTP signalling endpoints *)

Section SendSignal.
Import SignalController.
Variable JSON_stringify : json → string.

(** C1, as amended: an ICE-candidate signal for a recipient without a
    registered connection is never stored, and the whole world stays as it
    is; the sender gets the accepted answer (status 202, "queued") and not
    an error, unless the request fails validation (recipient 0 or falsy
    data), which gives status 400. *)
Theorem C1_sendSignal_ice_candidate_offline
    (senderId : Z) (signalData : SignalMessage.t) (now : Z) (w : World)
    (Hice : SignalMessage.type signalData = "ice-candidate")
    (Hoffline : SignalMessage.recipient signalData ∉ userId <$> clients w) :
  let r := sendSignal JSON_stringify senderId signalData now w in
  snd r = w
  ∧ fst r = if (SignalMessage.recipient signalData =? 0)
               || negb (truthy (SignalMessage.data signalData))
            then mkResponse 400 (BodyMessage "Recipient, type, and data are required")
            else mkResponse 202
                   (BodyMessage "Recipient offline, signal queued for delivery").
Proof.
  simpl. unfold sendSignal. rewrite Hice.
  rewrite (find_client_userId_None _ _ Hoffline). simpl.
  rewrite orb_false_r.
  by destruct (_ || _).
Qed.

End SendSignal.

Lemma C1_sendSignal_ice_candidate_offline_witness :
  let r := SignalController.sendSignal sample_stringify 7
             (SignalMessage.mk "ice-candidate" 9 (JStr "candidate")) 100 two_clients in
  snd r = two_clients
  ∧ fst r = mkResponse 202 (BodyMessage "Recipient offline, signal queued for delivery").
Proof.
  apply (C1_sendSignal_ice_candidate_offline sample_stringify 7
           (SignalMessage.mk "ice-candidate" 9 (JStr "candidate")) 100 two_clients).
  - reflexivity.
  - simpl. rewrite !not_elem_of_cons. repeat split; try discriminate. apply not_elem_of_nil.
Defined.

(** C1, as stated, fails: for a well-formed ICE candidate to user 9, who has
    no connection, the answer is status 202 with the "queued" message, which
    is the answer of the accepted path and not an error; nothing is stored. *)
Lemma C1_ice_candidate_offline_answers_202 :
  let r := SignalController.sendSignal sample_stringify 7
             (SignalMessage.mk "ice-candidate" 9 (JStr "candidate")) 100 two_clients in
  find_client (λ c, userId c = 9) (clients two_clients) = None
  ∧ status (fst r) = 202
  ∧ body (fst r) = BodyMessage "Recipient offline, signal queued for delivery"
  ∧ ¬ (400 ≤ status (fst r))
  ∧ rows (messages (snd r)) = [].
Proof. vm_compute. repeat split; done. Qed.

(** ** Draining the mailbox *)

Section Drain.
Import MessageModel.

(** After marking what [getUndeliveredMessages] returned, the user has no
    undelivered row left. *)
Lemma markAsDelivered_fetched uid now t :
  Forall (λ m, recipient_id m = uid → is_delivered m = true)
         (rows (snd (markAsDelivered now (id <$> getUndeliveredMessages uid t) t))).
Proof.
  rewrite rows_markAsDelivered. apply Forall_fmap, Forall_forall.
  intros m Hm. unfold compose. case_decide as Hin; [done|].
  intros Hr. destruct (is_delivered m) eqn:Hd; [done|].
  exfalso. apply Hin. apply list_elem_of_fmap_2.
  by apply elem_of_getUndeliveredMessages.
Qed.

(** With pairwise distinct ids the rows that change are exactly the
    fetched ones. *)
Lemma rows_markAsDelivered_fetched uid now t :
  NoDup (id <$> rows t) →
  rows (snd (markAsDelivered now (id <$> getUndeliveredMessages uid t) t))
  = (λ m, if decide (recipient_id m = uid ∧ is_delivered m = false)
          then set_delivered now m else m) <$> rows t.
Proof.
  intros Hnd. rewrite rows_markAsDelivered.
  apply list_fmap_ext. intros i m Hi.
  assert (Hm : m ∈ rows t) by (by eapply list_elem_of_lookup_2).
  destruct (decide (recipient_id m = uid ∧ is_delivered m = false)) as [Hsel|Hsel].
  - rewrite decide_True; [done|].
    apply list_elem_of_fmap_2. by apply elem_of_getUndeliveredMessages.
  - rewrite decide_False; [done|]. intros Hin.
    apply list_elem_of_fmap in Hin as (m' & Hid & Hm').
    apply elem_of_getUndeliveredMessages in Hm' as [Hsel' Hm'].
    apply Hsel.
    assert (m = m') as ->; [|done].
    apply list_elem_of_lookup in Hm' as [j Hj].
    assert (i = j) as ->.
    { eapply NoDup_lookup; [exact Hnd| |].
      - by rewrite list_lookup_fmap, Hi.
      - rewrite list_lookup_fmap, Hj. simpl. by rewrite Hid. }
    congruence.
Qed.

Lemma messages_getOfflineMessages uid now w :
  messages (snd (MessageController.getOfflineMessages uid now w))
  = snd (markAsDelivered now (id <$> getUndeliveredMessages uid (messages w)) (messages w)).
Proof.
  unfold MessageController.getOfflineMessages. simpl.
  case_decide as Hlen; [done|].
  destruct (getUndeliveredMessages uid (messages w)); [done|simpl in Hlen; lia].
Qed.

Variable JSON_parse : string → option json.

Lemma getPendingSignals_nothing_pending uid now w :
  getUndeliveredMessages uid (messages w) = [] →
  SignalController.getPendingSignals JSON_parse uid now w
  = (mkResponse 200 (BodySignals []), step (EvGetUndelivered uid) w).
Proof.
  intros Hnil. unfold SignalController.getPendingSignals.
  change (messages (step (EvGetUndelivered uid) w)) with (messages w).
  by rewrite Hnil.
Qed.

(** C9: [getOfflineMessages] returns every undelivered row of the user,
    signal-shaped or not, and marks each of them delivered, so none is
    left; a [getPendingSignals] call for the same user right after it
    answers with an empty signal list and changes nothing in the mailbox. *)
Theorem C9_getOfflineMessages_drains_signals (uid now now' : Z) (w : World) :
  let r := MessageController.getOfflineMessages uid now w in
  let r' := SignalController.getPendingSignals JSON_parse uid now' (snd r) in
  fst r = mkResponse 200
            (BodyOfflineMessages true
               (to_pending <$> getUndeliveredMessages uid (messages w))
               "Offline messages retrieved successfully")
  ∧ Forall (λ m, recipient_id m = uid ∧ is_delivered m = false →
                 m ∈ getUndeliveredMessages uid (messages w)
                 ∧ set_delivered now m ∈ rows (messages (snd r)))
           (rows (messages w))
  ∧ Forall (λ m, recipient_id m = uid → is_delivered m = true) (rows (messages (snd r)))
  ∧ getUndeliveredMessages uid (messages (snd r)) = []
  ∧ fst r' = mkResponse 200 (BodySignals [])
  ∧ messages (snd r') = messages (snd r).
Proof.
  intros r r'.
  assert (Hdone : Forall (λ m, recipient_id m = uid → is_delivered m = true)
                         (rows (messages (snd r)))).
  { unfold r. rewrite messages_getOfflineMessages. apply markAsDelivered_fetched. }
  assert (Hnil : getUndeliveredMessages uid (messages (snd r)) = [])
    by (by apply getUndeliveredMessages_nil).
  split; [done|]. split; [|split; [done|split; [done|]]].
  - apply Forall_forall. intros m Hm Hsel.
    assert (Hin : m ∈ getUndeliveredMessages uid (messages w))
      by (by apply elem_of_getUndeliveredMessages).
    split; [done|].
    unfold r. rewrite messages_getOfflineMessages, rows_markAsDelivered.
    apply list_elem_of_fmap. exists m. split; [|done].
    rewrite decide_True; [done|]. by apply list_elem_of_fmap_2.
  - unfold r'. by rewrite (getPendingSignals_nothing_pending _ _ _ Hnil).
Qed.

End Drain.

Example signal_row_is_drained_by_getOfflineMessages :
  let queued := snd (SignalController.sendSignal sample_stringify 7
                       (SignalMessage.mk "offer" 9 (JStr "sdp")) 100 two_clients) in
  body (fst (SignalController.getPendingSignals sample_parse 9 110 queued))
  = BodySignals [mkSignalDTO 1 7 (Some (JStr "offer")) (Some (JStr "sdp")) 100]
  ∧ body (fst (SignalController.getPendingSignals sample_parse 9 120
                 (snd (MessageController.getOfflineMessages 9 110 queued))))
    = BodySignals [].
Proof. vm_compute. done. Qed.

(** ** Disconnect *)


Lemma last_moments es w : last (moments es w) = Some (run es w).
Proof.
  revert w. induction es as [|e es IH]; intros w; [done|].
  simpl. specialize (IH (step e w)).
  destruct (moments es (step e w)) eqn:E; [done|]. exact IH.
Qed.

Section Disconnect.
Variable verifyToken : string → option TokenPayload.


End Disconnect.



(** ** Connect *)

Lemma world_eq (w1 w2 : World) :
  clients w1 = clients w2 → redis w1 = redis w2 → user_ids w1 = user_ids w2 →
  messages w1 = messages w2 → trace w1 = trace w2 → w1 = w2.
Proof. destruct w1, w2; simpl; congruence. Qed.

Lemma run_sends_world es w :
  Forall is_send es →
  run es w = mkWorld (clients w) (redis w) (user_ids w) (messages w) (trace w ++ es).
Proof.
  intros H. destruct (run_sends es w H) as (Hc & Hr & Hm).
  apply world_eq; simpl; [done|done|apply user_ids_run|done|]. apply trace_run.
Qed.

Section Connect.
Import MessageModel.
Variable verifyToken : string → option TokenPayload.

Lemma handleConnect_valid s token now w d :
  verifyToken token = Some d →
  let uid := tp_userId d in
  handleConnect verifyToken s (with_token token) now w
  = mkWorld (register uid s (clients w))
            (alter (λ en, mkEntry (value en) (Some 60)) (presence_key uid)
                   (<[presence_key uid := mkEntry "online" None]> (redis w)))
            (user_ids w)
            (snd (markAsDelivered now (id <$> getUndeliveredMessages uid (messages w))
                                  (messages w)))
            (trace w ++ connect_effects uid s now w).
Proof.
  intros Hvalid uid. unfold handleConnect, with_token. simpl. rewrite Hvalid. fold uid.
  unfold broadcastPresence.
  rewrite run_sends_world by (apply Forall_fmap, Forall_forall; by intros).
  unfold connect_effects. simpl.
  destruct (getUndeliveredMessages uid (messages w)) as [|m l] eqn:Hf.
  - rewrite decide_False by (simpl; lia). simpl.
    apply world_eq; simpl; try done.
    rewrite <- !app_assoc. done.
  - rewrite decide_True by (simpl; lia). simpl.
    apply world_eq; simpl; try done.
    rewrite <- !app_assoc. done.
Qed.

End Connect.

(** ** Delivery marking is for good *)

Section DeliveredForGood.
Import MessageModel.

Lemma delivered_for_good_step ids e w :
  delivered_for_good ids (messages w) → delivered_for_good ids (messages (step e w)).
Proof.
  intros [Hrows Hseq]. destruct e; try done; simpl.
  - (* INSERT *)
    split.
    + rewrite rows_storeMessage. apply Forall_app. split; [done|].
      destruct (fst (storeMessage _ _ _ _ _ _)) as [m|] eqn:Hm; [|constructor].
      apply fst_storeMessage in Hm as (-> & _ & _).
      constructor; [|done]. simpl.
      intros Hin. rewrite Forall_forall in Hseq. specialize (Hseq _ Hin). lia.
    + eapply Forall_impl; [exact Hseq|]. simpl. intros i Hi.
      pose proof (seq_storeMessage (user_ids w) now senderId recipientId content
                    (messages w)). lia.
  - (* UPDATE ... SET is_delivered *)
    split; [|by rewrite seq_markAsDelivered].
    rewrite rows_markAsDelivered. apply Forall_fmap.
    eapply Forall_impl; [exact Hrows|]. intros m Hm. unfold compose.
    by case_decide.
  - (* UPDATE ... SET is_read *)
    by rewrite snd_markAsRead.
  - (* DELETE *)
    split; [|done]. simpl.
    rewrite Forall_forall in Hrows. apply Forall_forall. intros m Hm.
    apply list_elem_of_filter in Hm as [_ Hm]. by apply Hrows.
Qed.

Lemma delivered_for_good_run ids es w :
  delivered_for_good ids (messages w) → delivered_for_good ids (messages (run es w)).
Proof.
  revert w. induction es as [|e es IH]; intros w H; [done|].
  apply (IH (step e w)). by apply delivered_for_good_step.
Qed.

Lemma delivered_for_good_fetch ids t u :
  delivered_for_good ids t →
  Forall (λ m, id m ∉ ids) (getUndeliveredMessages u t).
Proof.
  intros [Hrows _]. apply Forall_forall. intros m Hm Hin.
  apply elem_of_getUndeliveredMessages in Hm as [[_ Hd] Hm].
  rewrite Forall_forall in Hrows. specialize (Hrows m Hm Hin). congruence.
Qed.

Lemma delivered_for_good_markAsDelivered uid now t :
  table_wf t →
  delivered_for_good (id <$> getUndeliveredMessages uid t)
    (snd (markAsDelivered now (id <$> getUndeliveredMessages uid t) t)).
Proof.
  intros [_ Hlt]. split.
  - rewrite rows_markAsDelivered. apply Forall_fmap, Forall_forall.
    intros m _. unfold compose. case_decide as Hin; [done|].
    intros Hin'. by destruct Hin.
  - rewrite seq_markAsDelivered. apply Forall_fmap, Forall_forall.
    intros m Hm. apply elem_of_getUndeliveredMessages in Hm as [_ Hm].
    rewrite Forall_forall in Hlt. by apply Hlt.
Qed.

(** The primary-key invariant holds for the empty table and is kept by
    every effect, so it holds in every world the handlers reach. *)
Lemma table_wf_empty : table_wf empty_table.
Proof. split; simpl; [apply NoDup_nil_2|constructor]. Qed.

Lemma fmap_id_marked (f : Message → Message) (l : list Message) :
  (∀ m, id (f m) = id m) → id <$> (f <$> l) = id <$> l.
Proof.
  intros Hf. rewrite <- list_fmap_compose. apply list_fmap_ext.
  intros _ m _. apply Hf.
Qed.

Lemma table_wf_step e w :
  table_wf (messages w) → table_wf (messages (step e w)).
Proof.
  intros [Hnd Hlt]. destruct e; try done; simpl.
  - (* storeMessage *)
    pose proof (seq_storeMessage (user_ids w) now senderId recipientId content
                  (messages w)) as Hseq.
    unfold table_wf. rewrite rows_storeMessage.
    destruct (fst (storeMessage _ _ _ _ _ _)) as [m|] eqn:Hm; simpl.
    + apply fst_storeMessage in Hm as (-> & _ & Hnext). split.
      * rewrite fmap_app. apply NoDup_app. split; [done|]. split; [|apply NoDup_singleton].
        intros i Hi Hi'. simpl in Hi'. apply list_elem_of_singleton in Hi' as ->.
        apply list_elem_of_fmap in Hi as (m & Hm & Hin).
        rewrite Forall_forall in Hlt. specialize (Hlt m Hin). lia.
      * apply Forall_app. split.
        -- eapply Forall_impl; [exact Hlt|]. simpl. intros; lia.
        -- constructor; [simpl; lia|done].
    + rewrite app_nil_r. split; [done|].
      eapply Forall_impl; [exact Hlt|]. simpl. intros; lia.
  - (* markAsDelivered *)
    split.
    + rewrite rows_markAsDelivered, fmap_id_marked; [done|].
      intros m. by case_decide.
    + rewrite rows_markAsDelivered, seq_markAsDelivered. apply Forall_fmap.
      eapply Forall_impl; [exact Hlt|]. intros m Hm. unfold compose. by case_decide.
  - (* markAsRead *)
    by rewrite snd_markAsRead.
  - (* cleanupOldMessages *)
    split; simpl.
    + eapply sublist_NoDup; [exact Hnd|apply fmap_sublist, sublist_filter].
    + rewrite Forall_forall in Hlt. apply Forall_forall. intros m Hm.
      apply list_elem_of_filter in Hm as [_ Hm]. by apply Hlt.
Qed.

Lemma table_wf_run es w :
  table_wf (messages w) → table_wf (messages (run es w)).
Proof.
  revert w. induction es as [|e es IH]; intros w H; [done|].
  apply (IH (step e w)). by apply table_wf_step.
Qed.

End DeliveredForGood.

Section ConnectClaims.
Import MessageModel.
Variable verifyToken : string → option TokenPayload.

(** C6: a connect with a valid token performs, in this order, the
    registration of the transport, the presence write to online with a
    60-second expiry, (the confirmation frame,) the presence-online
    broadcast to every registered entry, the fetch of the peer's
    undelivered messages, their push to the new transport as one bundle and
    the delivery marking of the fetched ids (bundle and marking are skipped
    when nothing was fetched).  The bundle is one frame that lists every
    fetched row, in fetch order, with its id, sender, content and creation
    time.  Afterwards exactly the fetched rows have become delivered, the
    peer has no undelivered row, and whatever effects follow, no fetch
    returns a row with one of those ids again. *)
Theorem C6_handleConnect_registers_and_flushes
    (s : WS) (token : string) (now : Z) (w : World) (d : TokenPayload)
    (Hvalid : verifyToken token = Some d)
    (Hwf : table_wf (messages w)) :
  let uid := tp_userId d in
  let w' := handleConnect verifyToken s (with_token token) now w in
  let fetched := getUndeliveredMessages uid (messages w) in
  let bundle := (λ m, mkPending (id m) (sender_id m) (encrypted_content m) (created_at m))
                  <$> fetched in
  onMessage verifyToken s (Some (MsgConnect (with_token token))) now w = w'
  ∧ trace w' = trace w ++ connect_effects uid s now w
  ∧ (fetched ≠ [] →
     ∃ pre, trace w' = trace w ++ pre
                       ++ [EvGetUndelivered uid;
                           EvWsSend s (FrPendingMessages bundle);
                           EvMarkAsDelivered now (id <$> fetched)])
  ∧ (∀ m, m ∈ fetched →
          mkPending (id m) (sender_id m) (encrypted_content m) (created_at m) ∈ bundle)
  ∧ (fetched = [] →
     ∀ e, e ∈ connect_effects uid s now w →
          (∀ b, e ≠ EvWsSend s (FrPendingMessages b))
          ∧ (∀ t ids, e ≠ EvMarkAsDelivered t ids))
  ∧ clients w' = register uid s (clients w)
  ∧ redis w' !! presence_key uid = Some (mkEntry "online" (Some 60))
  ∧ rows (messages w')
    = (λ m, if decide (recipient_id m = uid ∧ is_delivered m = false)
            then set_delivered now m else m) <$> rows (messages w)
  ∧ getUndeliveredMessages uid (messages w') = []
  ∧ (∀ es u, Forall (λ m, id m ∉ id <$> fetched)
                    (getUndeliveredMessages u (messages (run es w')))).
Proof.
  intros uid w' fetched bundle.
  split; [done|]. unfold w'.
  rewrite (handleConnect_valid verifyToken s token now w d Hvalid). fold uid. simpl.
  split; [done|].
  split.
  { intros Hsome. unfold connect_effects. fold uid. fold fetched.
    destruct fetched as [|m l] eqn:Hf; [done|].
    exists ([EvClientsFilterUser uid; EvClientsPush (mkClient uid s);
             EvRedisSet (presence_key uid) "online"; EvRedisExpire (presence_key uid) 60;
             EvWsSend s (FrConnect true uid)]
            ++ ((λ c, EvWsSend (ws c) (FrPresence uid online))
                  <$> register uid s (clients w))).
    by rewrite <- !app_assoc. }
  split.
  { intros m Hm. unfold bundle. apply list_elem_of_fmap. by exists m. }
  split.
  { intros Hnone e He. unfold connect_effects in He. fold uid in He. fold fetched in He.
    rewrite Hnone, app_nil_r in He.
    rewrite !elem_of_app, !elem_of_cons, list_elem_of_fmap in He.
    destruct He as [He|[(c & -> & _)|He]].
    - destruct He as [->|[->|[->|[->|[->|He]]]]]; try done.
      by apply not_elem_of_nil in He.
    - done.
    - destruct He as [->|He]; [done|]. by apply not_elem_of_nil in He. }
  split; [done|].
  split; [by rewrite lookup_alter_eq, lookup_insert_eq|].
  split; [apply rows_markAsDelivered_fetched, Hwf|].
  split; [apply getUndeliveredMessages_nil, markAsDelivered_fetched|].
  intros es u. apply delivered_for_good_fetch, delivered_for_good_run. simpl.
  by apply delivered_for_good_markAsDelivered.
Qed.

End ConnectClaims.

Lemma table_wf_queued_for_9 : table_wf (messages queued_for_9).
Proof.
  split; simpl.
  - apply NoDup_singleton.
  - by repeat constructor.
Defined.

Lemma C6_handleConnect_registers_and_flushes_witness :
  trace (handleConnect sample_verifyToken 3 (with_token "token-of-9") 200 queued_for_9)
  = trace queued_for_9
    ++ [EvClientsFilterUser 9; EvClientsPush (mkClient 9 3);
        EvRedisSet "presence:9" "online"; EvRedisExpire "presence:9" 60;
        EvWsSend 3 (FrConnect true 9);
        EvWsSend 1 (FrPresence 9 online); EvWsSend 2 (FrPresence 9 online);
        EvWsSend 3 (FrPresence 9 online);
        EvGetUndelivered 9;
        EvWsSend 3 (FrPendingMessages [mkPending 1 7 "hello" 100]);
        EvMarkAsDelivered 200 [1]].
Proof.
  exact (proj1 (proj2
           (C6_handleConnect_registers_and_flushes sample_verifyToken 3 "token-of-9" 200
              queued_for_9 (mkTokenPayload 9 "nine@example.org") eq_refl
              table_wf_queued_for_9))).
Defined.

(** The scenario of the mailbox flush: "hello" queued for user 9 is pushed in
    the bundle when 9 connects, the row is marked delivered, and a later
    connect of 9 fetches nothing. *)
Example connect_flushes_hello :
  let w1 := handleConnect sample_verifyToken 3 (with_token "token-of-9") 200 queued_for_9 in
  let w2 := handleConnect sample_verifyToken 4 (with_token "token-of-9") 300 (handleDisconnect 3 w1) in
  connect_effects 9 3 200 queued_for_9
  = [EvClientsFilterUser 9; EvClientsPush (mkClient 9 3);
     EvRedisSet "presence:9" "online"; EvRedisExpire "presence:9" 60;
     EvWsSend 3 (FrConnect true 9);
     EvWsSend 1 (FrPresence 9 online); EvWsSend 2 (FrPresence 9 online);
     EvWsSend 3 (FrPresence 9 online);
     EvGetUndelivered 9;
     EvWsSend 3 (FrPendingMessages [mkPending 1 7 "hello" 100]);
     EvMarkAsDelivered 200 [1]]
  ∧ rows (messages w1) = [mkMessage 1 7 9 "hello" true 100 (Some 200)]
  ∧ MessageModel.getUndeliveredMessages 9 (messages w1) = []
  ∧ rows (messages w2) = rows (messages w1)
  ∧ clients w2 = [mkClient 7 1; mkClient 8 2; mkClient 9 4].
Proof. vm_compute. done. Qed.

(** ** The registry *)

Lemma filter_userId_register uid s cs :
  filter (λ c, userId c = uid) (register uid s cs) = [mkClient uid s].
Proof.
  unfold register. rewrite filter_app.
  rewrite (filter_cons_True (λ c, userId c = uid)) by done.
  replace (filter (λ c, userId c = uid) (filter (λ c, userId c ≠ uid) cs))
    with (@nil WebSocketClient); [done|].
  symmetry. induction cs as [|c cs IH]; [done|].
  destruct (decide (userId c = uid)) as [Heq|Hne].
  - by rewrite (filter_cons_False (λ c, userId c ≠ uid)) by (intros H; by apply H).
  - rewrite (filter_cons_True (λ c, userId c ≠ uid)) by done.
    by rewrite (filter_cons_False (λ c, userId c = uid)) by done.
Qed.

Lemma NoDup_register uid s cs :
  NoDup (userId <$> cs) → NoDup (userId <$> register uid s cs).
Proof.
  intros Hnd. unfold register. rewrite fmap_app. apply NoDup_app.
  split; [|split].
  - eapply sublist_NoDup; [exact Hnd|apply fmap_sublist, sublist_filter].
  - intros u Hu Hu'. apply list_elem_of_fmap in Hu as (c & -> & Hc).
    apply list_elem_of_filter in Hc as [Hne _].
    simpl in Hu'. apply list_elem_of_singleton in Hu'. done.
  - apply NoDup_singleton.
Qed.

Lemma NoDup_unregister s cs :
  NoDup (userId <$> cs) → NoDup (userId <$> unregister s cs).
Proof.
  intros Hnd. eapply sublist_NoDup; [exact Hnd|apply fmap_sublist, sublist_filter].
Qed.

Lemma registry_reachable_NoDup cs :
  registry_reachable cs → NoDup (userId <$> cs).
Proof.
  induction 1; [apply NoDup_nil_2|by apply NoDup_register|by apply NoDup_unregister].
Qed.

Lemma clients_handleDisconnect s w :
  clients (handleDisconnect s w) = clients w
  ∨ clients (handleDisconnect s w) = unregister s (clients w).
Proof.
  unfold handleDisconnect. destruct (find_client _ _) as [c|]; [right|by left].
  unfold broadcastPresence.
  by rewrite run_sends_world by (apply Forall_fmap, Forall_forall; by intros).
Qed.

Lemma clients_handleSignal s p w : clients (handleSignal s p w) = clients w.
Proof. unfold handleSignal. by repeat destruct (find_client _ _). Qed.

Lemma clients_handleMessage s p now w : clients (handleMessage s p now w) = clients w.
Proof.
  unfold handleMessage. repeat destruct (find_client _ _); try done.
  by destruct (fst _).
Qed.

Section Registry.
Variable verifyToken : string → option TokenPayload.
Variable JSON_stringify : json → string.
Variable JSON_parse : string → option json.

Lemma clients_handleConnect s payload now w :
  clients (handleConnect verifyToken s payload now w) = clients w
  ∨ ∃ uid, clients (handleConnect verifyToken s payload now w)
           = register uid s (clients w).
Proof.
  destruct payload as [[[token|]]|]; [|by left..].
  destruct (verifyToken token) as [d|] eqn:Hv.
  - right. exists (tp_userId d).
    change (Some {| ConnectPayload.token := Some token |}) with (with_token token).
    by rewrite (handleConnect_valid _ _ _ _ _ _ Hv).
  - left. unfold handleConnect. simpl. by rewrite Hv.
Qed.

Lemma registry_reachable_serve w r :
  registry_reachable (clients w) →
  registry_reachable (clients (serve verifyToken JSON_stringify JSON_parse w r)).
Proof.
  intros Hw.
destruct r as [s [[payload| |p|p|ty]|] now|s|sender p now|uid now|uid now
              |uid [ids|]|sender rcpt c now|rcpt sender c now later]; simpl.
  - destruct (clients_handleConnect s payload now w) as [->|[uid ->]];
      [done|by constructor].
  - destruct (clients_handleDisconnect s w) as [->| ->]; [done|by constructor].
  - by rewrite clients_handleSignal.
  - by rewrite clients_handleMessage.
  - done.
  - done.
  - unfold onClose.
    destruct (clients_handleDisconnect s w) as [->| ->]; [done|by constructor].
  - unfold SignalController.sendSignal.
    destruct (_ || _); [done|].
    destruct (find_client _ _); [done|].
    destruct (negb _); [|done]. by destruct (fst _).
  - unfold SignalController.getPendingSignals. by case_decide.
  - unfold MessageController.getOfflineMessages. by case_decide.
  - unfold MessageController.markMessagesAsRead. by destruct (fst _).
  - done.
  - unfold MessageController.storeMessage.
    destruct (_ || _); [done|]. by destruct (fst _).
  - unfold MessageController.storeReceivedMessage.
    destruct (_ || _); [done|]. by destruct (fst _).
Qed.

(** C5: the registry never holds two entries for one peerId.  A connect
    with a valid token first drops every entry of that peerId and then
    appends the new one; connecting the same peerId twice in a row leaves
    exactly one entry for it, the second transport; and every registry
    state reached from the empty registry by register and unregister, in
    particular every state the server reaches by serving requests, has
    pairwise distinct peerIds. *)
Theorem C5_registry_one_entry_per_peer
    (s1 s2 : WS) (token : string) (now1 now2 : Z) (w : World) (d : TokenPayload)
    (Hvalid : verifyToken token = Some d) :
  let uid := tp_userId d in
  let w1 := handleConnect verifyToken s1 (with_token token) now1 w in
  let w2 := handleConnect verifyToken s2 (with_token token) now2 w1 in
  clients w1 = register uid s1 (clients w)
  ∧ (∃ rest, trace w1 = trace w ++ EvClientsFilterUser uid
                                   :: EvClientsPush (mkClient uid s1) :: rest)
  ∧ filter (λ c, userId c = uid) (clients w1) = [mkClient uid s1]
  ∧ filter (λ c, userId c = uid) (clients w2) = [mkClient uid s2]
  ∧ (∀ cs, registry_reachable cs → NoDup (userId <$> cs))
  ∧ (∀ w0 requests, clients w0 = [] →
       let wn := foldl (serve verifyToken JSON_stringify JSON_parse) w0 requests in
       registry_reachable (clients wn) ∧ NoDup (userId <$> clients wn)).
Proof.
  intros uid w1 w2. unfold w2, w1.
  rewrite !(handleConnect_valid verifyToken _ token _ _ d Hvalid). fold uid. simpl.
  split; [done|]. split; [by eexists|].
  split; [apply filter_userId_register|]. split; [apply filter_userId_register|].
  split; [apply registry_reachable_NoDup|].
  intros w0 requests Hempty.
  assert (Hreach : registry_reachable
                     (clients (foldl (serve verifyToken JSON_stringify JSON_parse)
                                     w0 requests))).
  { assert (H0 : registry_reachable (clients w0)) by (rewrite Hempty; constructor).
    clear Hempty. revert w0 H0.
    induction requests as [|r requests IH]; intros w0 H0; [done|].
    simpl. apply IH. by apply registry_reachable_serve. }
  split; [done|]. by apply registry_reachable_NoDup.
Qed.

End Registry.

Lemma C5_registry_one_entry_per_peer_witness :
  filter (λ c, userId c = 9)
         (clients (handleConnect sample_verifyToken 4 (with_token "token-of-9") 300
                     (handleConnect sample_verifyToken 3 (with_token "token-of-9") 200 two_clients)))
  = [mkClient 9 4].
Proof.
  exact (proj1 (proj2 (proj2 (proj2
           (C5_registry_one_entry_per_peer sample_verifyToken sample_stringify sample_parse
              3 4 "token-of-9" 200 300 two_clients (mkTokenPayload 9 "nine@example.org")
              eq_refl))))).
Defined.

(** * Further properties of the relay *)

(** ** Fetching after marking *)

Lemma insert_by_created_at_least m l :
  Forall (created_le m) l → insert_by_created_at m l = m :: l.
Proof.
  destruct 1 as [|x l Hx _]; simpl; [done|]. by rewrite decide_True.
Qed.

Lemma insert_by_created_at_filter (Q : Message → Prop) `{!∀ m, Decision (Q m)} m l :
  StronglySorted created_le l →
  filter Q (insert_by_created_at m l)
  = if decide (Q m) then insert_by_created_at m (filter Q l) else filter Q l.
Proof.
  induction 1 as [|x l Hl IH Hx]; simpl.
  - rewrite filter_cons, filter_nil. by case_decide.
  - destruct (decide (created_at m ≤ created_at x)) as [Hle|Hgt].
    + rewrite (filter_cons Q m). case_decide; [|done].
      rewrite insert_by_created_at_least; [done|].
      apply Forall_forall. intros y Hy. apply list_elem_of_filter in Hy as [_ Hy].
      apply elem_of_cons in Hy as [->|Hy]; [done|].
      rewrite Forall_forall in Hx. specialize (Hx y Hy). unfold created_le in *. lia.
    + rewrite !(filter_cons Q x), IH.
      destruct (decide (Q x)), (decide (Q m)); try done.
      simpl. by rewrite decide_False.
Qed.

Lemma order_by_created_at_filter (Q : Message → Prop) `{!∀ m, Decision (Q m)} l :
  order_by_created_at (filter Q l) = filter Q (order_by_created_at l).
Proof.
  induction l as [|a l IH]; [done|]. simpl.
  rewrite insert_by_created_at_filter by apply order_by_created_at_sorted.
  rewrite filter_cons. case_decide; [|done]. simpl. by rewrite IH.
Qed.

Lemma filter_ext_in {A} (P Q : A → Prop) `{!∀ x, Decision (P x), !∀ x, Decision (Q x)}
    (l : list A) :
  (∀ x, x ∈ l → (P x ↔ Q x)) → filter P l = filter Q l.
Proof.
  induction l as [|a l IH]; intros Hiff; [done|].
  rewrite !filter_cons.
  assert (Ha : P a ↔ Q a) by (apply Hiff; left).
  rewrite IH by (intros x Hx; apply Hiff; by right).
  destruct (decide (P a)), (decide (Q a)); [done|tauto|tauto|done].
Qed.

Lemma order_by_created_at_fmap (g : Message → Message) l :
  (∀ m, created_at (g m) = created_at m) →
  order_by_created_at (g <$> l) = g <$> order_by_created_at l.
Proof.
  intros Hg. induction l as [|a l IH]; [done|].
  rewrite fmap_cons. simpl. rewrite IH. clear IH.
  induction (order_by_created_at l) as [|x k IH]; [done|].
  rewrite fmap_cons. simpl. rewrite !Hg.
  case_decide; [done|]. rewrite fmap_cons. by rewrite IH.
Qed.

Lemma filter_fmap_iff {A} (P : A → Prop) `{!∀ x, Decision (P x)} (g : A → A)
    (l : list A) :
  (∀ x, P (g x) ↔ P x) → filter P (g <$> l) = g <$> filter P l.
Proof.
  intros Hg. induction l as [|a l IH]; [done|].
  rewrite fmap_cons, !filter_cons, IH.
  pose proof (Hg a).
  destruct (decide (P (g a))), (decide (P a)); [done|tauto|tauto|done].
Qed.

Section MailboxComposition.
Import MessageModel.

Lemma getUndeliveredMessages_markAsDelivered
    (now : Z) (ids : list Z) (u : Z) (t : MessagesTable) :
  getUndeliveredMessages u (snd (markAsDelivered now ids t))
  = filter (λ m, id m ∉ ids) (getUndeliveredMessages u t).
Proof.
  unfold getUndeliveredMessages. rewrite rows_markAsDelivered.
  rewrite <- order_by_created_at_filter. f_equal.
  rewrite list_filter_filter.
  induction (rows t) as [|m l IH]; [done|].
  rewrite fmap_cons, !filter_cons, IH.
  destruct (decide (id m ∈ ids)) as [Hin|Hin].
  - rewrite decide_False by (simpl; intros [_ ?]; done).
    by rewrite decide_False by tauto.
  - destruct (decide (recipient_id m = u ∧ is_delivered m = false)).
    + by rewrite decide_True by tauto.
    + by rewrite decide_False by tauto.
Qed.

(** [markAsDelivered] then [getUndeliveredMessages]: for every user the
    fetch after the marking is the fetch before it without the rows whose id
    was named, the others in the same order; and every row whose id was not
    named is the same row in the table. *)
Theorem markAsDelivered_then_fetch (now : Z) (ids : list Z) (u : Z) (t : MessagesTable) :
  getUndeliveredMessages u (snd (markAsDelivered now ids t))
  = filter (λ m, id m ∉ ids) (getUndeliveredMessages u t)
  ∧ filter (λ m, id m ∉ ids) (rows (snd (markAsDelivered now ids t)))
    = filter (λ m, id m ∉ ids) (rows t).
Proof.
  split.
  - apply getUndeliveredMessages_markAsDelivered.
  - rewrite rows_markAsDelivered.
    induction (rows t) as [|m l IH]; [done|].
    rewrite fmap_cons, !filter_cons, IH.
    destruct (decide (id m ∈ ids)) as [Hin|Hin].
    + rewrite !decide_False; [done|tauto|simpl; tauto].
    + by rewrite !decide_True.
Qed.

(** [markMessagesAsRead] never marks anything, because the UPDATE of
    [markAsRead] cannot run on the [messages] table: the endpoint answers
    400 without an id array, 200 for an empty array (no statement is
    issued) and 500 for every other array, whoever the rows belong to; in
    each case the table, and with it every undelivered fetch, the registry
    and the presence store are as before. *)
Theorem markMessagesAsRead_never_marks
    (uid : Z) (messageIds : option (list Z)) (w : World) :
  let r := MessageController.markMessagesAsRead uid messageIds w in
  fst r = match messageIds with
          | None => mkResponse 400 (BodyFailure "Message IDs are required")
          | Some [] => mkResponse 200 (BodySuccess "Messages marked as read")
          | Some (_ :: _) => mkResponse 500 (BodyFailure "Failed to mark messages as read")
          end
  ∧ messages (snd r) = messages w
  ∧ (∀ u, getUndeliveredMessages u (messages (snd r))
          = getUndeliveredMessages u (messages w))
  ∧ clients (snd r) = clients w ∧ redis (snd r) = redis w.
Proof.
  simpl. unfold MessageController.markMessagesAsRead.
  destruct messageIds as [[|i ids]|]; simpl; done.
Qed.


End MailboxComposition.

(** ** Storing *)

Section Storing.
Import MessageModel.

Lemma filter_undelivered_snoc (u : Z) (l : list Message) (row : Message) :
  filter (λ m, recipient_id m = u ∧ is_delivered m = false) (l ++ [row])
  = filter (λ m, recipient_id m = u ∧ is_delivered m = false) l
    ++ (if decide (recipient_id row = u ∧ is_delivered row = false) then [row] else []).
Proof. by rewrite filter_app. Qed.

(** [storeMessage] between two users appends one undelivered row with a
    fresh id: the recipient's fetch gains exactly the new row (at the end,
    when no row of the table is younger), and storing the same payload again
    gives a second row with the next id, not the first one back.  When the
    sender or the recipient is not a user, nothing is stored and no fetch
    changes, but a value of the sequence is used up unless an id is outside
    INTEGER.  In every case the fetch of every other user is untouched and
    the primary key stays intact. *)
Theorem storeMessage_then_fetch
    (us : list Z) (now now' s r : Z) (c : string) (t : MessagesTable)
    (Hwf : table_wf t) :
  let res := storeMessage us now s r c t in
  let row := mkMessage (messages_id_seq t) s r c false now None in
  (∀ u, u ≠ r → getUndeliveredMessages u (snd res) = getUndeliveredMessages u t)
  ∧ table_wf (snd res)
  ∧ (s ∈ us → r ∈ us →
     fst res = Some row
     ∧ Permutation (getUndeliveredMessages r (snd res))
                   (row :: getUndeliveredMessages r t)
     ∧ (Forall (λ m, created_at m ≤ now) (rows t) →
        getUndeliveredMessages r (snd res) = getUndeliveredMessages r t ++ [row])
     ∧ (id row ∉ (id <$> rows t))
     ∧ fst (storeMessage us now' s r c (snd res))
       = Some (mkMessage (id row + 1) s r c false now' None)
     ∧ length (rows (snd (storeMessage us now' s r c (snd res))))
       = S (S (length (rows t))))
  ∧ (¬ (s ∈ us ∧ r ∈ us) →
     fst res = None
     ∧ rows (snd res) = rows t
     ∧ getUndeliveredMessages r (snd res) = getUndeliveredMessages r t
     ∧ messages_id_seq (snd res)
       = if decide (int4 s ∧ int4 r) then messages_id_seq t + 1 else messages_id_seq t).
Proof.
  pose proof Hwf as [Hnd Hlt]. intros res row.
  split; [|split; [|split]].
  - intros u Hu. unfold getUndeliveredMessages, res. rewrite rows_storeMessage.
    destruct (fst (storeMessage us now s r c t)) as [m|] eqn:Hm; simpl.
    + apply fst_storeMessage in Hm as (-> & _ & _).
      rewrite filter_undelivered_snoc. simpl.
      rewrite decide_False by (intros [? _]; congruence). by rewrite app_nil_r.
    + by rewrite app_nil_r.
  - exact (table_wf_step (EvStoreMessage now s r c) (mkWorld [] ∅ us t []) Hwf).
  - intros Hs Hr. unfold res.
    rewrite (storeMessage_users us now s r c t Hs Hr). fold row. simpl.
    split; [done|]. split; [|split; [|split; [|split]]].
    + unfold getUndeliveredMessages. simpl.
      rewrite filter_undelivered_snoc. simpl. rewrite decide_True by done.
      rewrite !order_by_created_at_perm. by rewrite Permutation_app_comm.
    + intros Hold. unfold getUndeliveredMessages. simpl.
      rewrite filter_undelivered_snoc. simpl. rewrite decide_True by done.
      apply order_by_created_at_app; [|repeat constructor].
      apply Forall_forall. intros m Hm. apply list_elem_of_filter in Hm as [_ Hm].
      rewrite Forall_forall in Hold. specialize (Hold m Hm).
      repeat constructor. unfold created_le. simpl. lia.
    + intros Hin. apply list_elem_of_fmap in Hin as (m & Hid & Hm).
      rewrite Forall_forall in Hlt. specialize (Hlt m Hm). lia.
    + by rewrite (storeMessage_users us now' s r c _ Hs Hr).
    + rewrite (storeMessage_users us now' s r c _ Hs Hr). simpl.
      rewrite !length_app. simpl. lia.
  - intros Hno. unfold res.
    destruct (storeMessage_not_users us now s r c t Hno) as (Hnone & Hrows & Hseq).
    split; [done|]. split; [done|]. split; [|done].
    unfold getUndeliveredMessages. by rewrite Hrows.
Qed.

(** [storeReceivedMessage] with a sender id and a content, between two
    users, stores the row and then marks it delivered: it answers with the
    new row's id, the row is an undelivered row of the recipient between the
    two statements, and after the call no user's undelivered fetch differs
    from before.  When the sender or the recipient is not a user the INSERT
    throws: the answer is 500, nothing is stored and no UPDATE is issued.
    With sender id 0 or an empty content it answers 400 and changes
    nothing. *)
Theorem storeReceivedMessage_ends_delivered
    (recipientId senderId : Z) (content : string) (now later : Z) (w : World)
    (Hwf : table_wf (messages w)) :
  let r := MessageController.storeReceivedMessage recipientId senderId content now later w in
  let insert := EvStoreMessage now senderId recipientId content in
  let row := mkMessage (messages_id_seq (messages w)) senderId recipientId content
                       false now None in
  if (senderId =? 0) || String.eqb content "" then
    r = (mkResponse 400 (BodyFailure "Sender ID and content are required"), w)
  else if decide (senderId ∈ user_ids w ∧ recipientId ∈ user_ids w) then
    fst r = mkResponse 200 (BodyStored (messages_id_seq (messages w))
                                       "P2P message stored successfully")
    ∧ new_events w (snd r) = [insert; EvMarkAsDelivered later [messages_id_seq (messages w)]]
    ∧ row ∈ getUndeliveredMessages recipientId (messages (step insert w))
    ∧ rows (messages (snd r)) = rows (messages w) ++ [set_delivered later row]
    ∧ (∀ u, getUndeliveredMessages u (messages (snd r))
            = getUndeliveredMessages u (messages w))
    ∧ clients (snd r) = clients w ∧ redis (snd r) = redis w
  else
    fst r = mkResponse 500 (BodyFailure "Failed to store received P2P message")
    ∧ new_events w (snd r) = [insert]
    ∧ rows (messages (snd r)) = rows (messages w)
    ∧ clients (snd r) = clients w ∧ redis (snd r) = redis w.
Proof.
  destruct Hwf as [Hnd Hlt]. intros r insert row. unfold r.
  unfold MessageController.storeReceivedMessage.
  destruct (_ || _); [done|].
  destruct (decide (senderId ∈ user_ids w ∧ recipientId ∈ user_ids w)) as [[Hs Hr]|Hno].
  - assert (Hstep : messages (step insert w)
                    = mkTable (rows (messages w) ++ [row])
                              (messages_id_seq (messages w) + 1)).
    { simpl. by rewrite (storeMessage_users _ now senderId recipientId content _ Hs Hr). }
    rewrite (storeMessage_users _ now senderId recipientId content _ Hs Hr).
    cbn [fst snd]. fold row. fold insert.
    assert (Hrows : rows (messages (step (EvMarkAsDelivered later [id row])
                                         (step insert w)))
                    = rows (messages w) ++ [set_delivered later row]).
    { cbn [step messages]. rewrite rows_markAsDelivered.
      change (messages (step insert w)) with (messages (step insert w)) in Hstep.
      cbn [step messages] in Hstep. rewrite Hstep. cbn [rows].
      rewrite fmap_app. f_equal.
      - transitivity (Datatypes.id <$> rows (messages w)); [|by rewrite list_fmap_id].
        apply list_fmap_ext. intros i m Hi. simpl.
        rewrite decide_False; [done|]. intros Hin%list_elem_of_singleton.
        rewrite Forall_forall in Hlt.
        specialize (Hlt m (list_elem_of_lookup_2 _ _ _ Hi)). lia.
      - simpl. by rewrite decide_True by (by apply list_elem_of_singleton). }
    split; [done|]. split; [|split; [|split; [exact Hrows|split; [|done]]]].
    + apply new_events_app. by rewrite !trace_step, <- app_assoc.
    + apply elem_of_getUndeliveredMessages. split; [done|].
      rewrite Hstep. apply elem_of_app. right. left.
    + intros u. unfold getUndeliveredMessages. rewrite Hrows.
      rewrite filter_undelivered_snoc. simpl.
      rewrite decide_False by (intros [_ ?]; done). by rewrite app_nil_r.
  - destruct (storeMessage_not_users (user_ids w) now senderId recipientId content
                (messages w) Hno) as (Hnone & Hrows & _).
    rewrite Hnone. cbn [fst snd]. fold insert.
    split; [done|]. split; [|done].
    apply new_events_app. by rewrite trace_step.
Qed.

End Storing.

Lemma table_wf_one_message : table_wf one_message.
Proof.
  split; simpl.
  - apply NoDup_singleton.
  - by repeat constructor.
Qed.

Lemma storeMessage_then_fetch_witness :
  MessageModel.getUndeliveredMessages 2
    (snd (MessageModel.storeMessage sample_users 7 3 2 "again" one_message))
  = [mkMessage 1 1 2 "hello" false 5 None; mkMessage 2 3 2 "again" false 7 None].
Proof.
  pose proof (storeMessage_then_fetch sample_users 7 8 3 2 "again"
                one_message table_wf_one_message) as Hstore.
  cbv zeta in Hstore. destruct Hstore as (_ & _ & Hstored & _).
  destruct Hstored as (_ & _ & Hend & _); [by_decide|by_decide|].
  apply Hend. repeat constructor; by compute.
Defined.

Lemma storeReceivedMessage_ends_delivered_witness :
  let r := MessageController.storeReceivedMessage 9 7 "seen" 100 101 queued_for_9 in
  fst r = mkResponse 200 (BodyStored 2 "P2P message stored successfully")
  ∧ rows (messages (snd r))
    = rows (messages queued_for_9) ++ [mkMessage 2 7 9 "seen" true 100 (Some 101)].
Proof.
  pose proof (storeReceivedMessage_ends_delivered 9 7 "seen" 100 101 queued_for_9
                table_wf_queued_for_9) as Hstored.
  cbv zeta in Hstored. cbn [Z.eqb orb String.eqb Ascii.eqb Bool.eqb] in Hstored.
  rewrite decide_True in Hstored by (split; by_decide).
  destruct Hstored as (Hanswer & _ & _ & Hrows & _).
  split; [exact Hanswer|exact Hrows].
Defined.

(** ** Unique keys *)

Lemma NoDup_fmap_elem_inj {A B} (f : A → B) (l : list A) (x y : A) :
  NoDup (f <$> l) → x ∈ l → y ∈ l → f x = f y → x = y.
Proof.
  intros Hnd Hx Hy Hf.
  apply list_elem_of_lookup in Hx as [i Hi]. apply list_elem_of_lookup in Hy as [j Hj].
  assert (i = j) as ->; [|congruence].
  eapply NoDup_lookup; [exact Hnd| |].
  - by rewrite list_lookup_fmap, Hi.
  - rewrite list_lookup_fmap, Hj. simpl. by rewrite Hf.
Qed.

(** With one entry per peerId, looking a registered peer up by its id
    finds that entry. *)
Lemma find_client_userId_unique (l : list WebSocketClient) (c : WebSocketClient) :
  NoDup (userId <$> l) → c ∈ l →
  find_client (λ c', userId c' = userId c) l = Some c.
Proof.
  intros Hnd Hc.
  destruct (find_client (λ c', userId c' = userId c) l) as [c'|] eqn:Hfind.
  - apply find_client_Some in Hfind as [Hc' Heq].
    f_equal. by apply (NoDup_fmap_elem_inj userId l).
  - apply find_client_None in Hfind. rewrite Forall_forall in Hfind.
    by destruct (Hfind c Hc).
Qed.

(** ** Signals over HTTP *)

Section Signals.
Import MessageModel.
Variable JSON_stringify : json → string.
Variable JSON_parse : string → option json.

Lemma as_signal_id (m : Message) (d : SignalDTO) :
  SignalController.as_signal JSON_parse m = Some d → sg_id d = id m.
Proof.
  unfold SignalController.as_signal.
  destruct (JSON_parse _) as [[| | | | |fields]|]; try done.
  destruct (get_field "type" fields) as [[| | |ty| |]|]; try done.
  destruct (String.eqb ty "signal"); [|done]. by intros [= <-].
Qed.

Lemma messages_getPendingSignals uid now w :
  messages (snd (SignalController.getPendingSignals JSON_parse uid now w))
  = snd (markAsDelivered now
           (sg_id <$> omap (SignalController.as_signal JSON_parse)
                           (getUndeliveredMessages uid (messages w)))
           (messages w)).
Proof.
  unfold SignalController.getPendingSignals.
  change (messages (step (EvGetUndelivered uid) w)) with (messages w).
  case_decide as Hlen; [done|].
  destruct (omap _ _); [done|simpl in Hlen; lia].
Qed.

Lemma getPendingSignals_no_signal uid now w :
  omap (SignalController.as_signal JSON_parse) (getUndeliveredMessages uid (messages w)) = [] →
  SignalController.getPendingSignals JSON_parse uid now w
  = (mkResponse 200 (BodySignals []), step (EvGetUndelivered uid) w).
Proof.
  intros Hnil. unfold SignalController.getPendingSignals.
  change (messages (step (EvGetUndelivered uid) w)) with (messages w).
  by rewrite Hnil.
Qed.

Lemma filter_all {A} (P : A → Prop) `{!∀ x, Decision (P x)} (l : list A) :
  (∀ x, x ∈ l → P x) → filter P l = l.
Proof.
  induction l as [|a l IH]; intros Hall; [done|].
  rewrite filter_cons_True by (apply Hall; left).
  f_equal. apply IH. intros x Hx. apply Hall. by right.
Qed.

Lemma omap_filter_None {A B} (f : A → option B) (l : list A) :
  omap f (filter (λ x, f x = None) l) = [].
Proof.
  induction l as [|a l IH]; [done|].
  rewrite filter_cons. case_decide as Ha; [|done]. simpl. by rewrite Ha.
Qed.

(** What [getPendingSignals] marks: with a primary key on the ids, a row's
    id is among the returned signals exactly when the row is one of the
    user's undelivered rows that parse to a signal. *)
Lemma signal_ids (uid : Z) (t : MessagesTable) (m : Message) :
  NoDup (id <$> rows t) → m ∈ rows t →
  id m ∈ sg_id <$> omap (SignalController.as_signal JSON_parse)
                       (getUndeliveredMessages uid t)
  ↔ m ∈ getUndeliveredMessages uid t
    ∧ SignalController.as_signal JSON_parse m ≠ None.
Proof.
  intros Hnd Hm. split.
  - intros Hin. apply list_elem_of_fmap in Hin as (d & Hid & Hd).
    apply list_elem_of_omap in Hd as (m' & Hm' & Hsig).
    assert (m = m') as ->.
    { apply (NoDup_fmap_elem_inj id (rows t)); [done|done| |].
      - by apply elem_of_getUndeliveredMessages in Hm' as [_ ?].
      - rewrite Hid. by apply as_signal_id. }
    split; [done|]. by rewrite Hsig.
  - intros [Hin Hsig].
    destruct (SignalController.as_signal JSON_parse m) as [d|] eqn:Hd; [|done].
    apply list_elem_of_fmap. exists d. split.
    + symmetry. by apply as_signal_id.
    + apply list_elem_of_omap. by exists m.
Qed.

(** [getPendingSignals] answers with the user's undelivered rows that parse
    to a signal and marks only those delivered: the user's other undelivered
    rows stay undelivered, in the same order, and are what a following
    [getOfflineMessages] returns; other users' rows are untouched; a second
    [getPendingSignals] returns no signal. *)
Theorem getPendingSignals_leaves_other_rows
    (uid now now' : Z) (w : World) (Hwf : table_wf (messages w)) :
  let r := SignalController.getPendingSignals JSON_parse uid now w in
  let pending := getUndeliveredMessages uid (messages w) in
  let others := filter (λ m, SignalController.as_signal JSON_parse m = None) pending in
  fst r = mkResponse 200 (BodySignals (omap (SignalController.as_signal JSON_parse) pending))
  ∧ getUndeliveredMessages uid (messages (snd r)) = others
  ∧ (∀ u, u ≠ uid →
          getUndeliveredMessages u (messages (snd r)) = getUndeliveredMessages u (messages w))
  ∧ fst (SignalController.getPendingSignals JSON_parse uid now' (snd r))
    = mkResponse 200 (BodySignals [])
  ∧ fst (MessageController.getOfflineMessages uid now' (snd r))
    = mkResponse 200 (BodyOfflineMessages true (to_pending <$> others)
                                          "Offline messages retrieved successfully").
Proof.
  intros r pending others. destruct Hwf as [Hnd _].
  assert (Hrest : getUndeliveredMessages uid (messages (snd r)) = others).
  { unfold r. rewrite messages_getPendingSignals.
    rewrite getUndeliveredMessages_markAsDelivered.
    apply filter_ext_in. intros m Hm.
    assert (Hrow : m ∈ rows (messages w))
      by (by apply elem_of_getUndeliveredMessages in Hm as [_ ?]).
    rewrite (signal_ids uid (messages w) m Hnd Hrow).
    destruct (SignalController.as_signal JSON_parse m); split; try done.
    - intros Hno. exfalso. apply Hno. by split.
    - by intros _ [_ ?]. }
  split; [done|]. split; [done|]. split; [|split].
  - intros u Hu. unfold r. rewrite messages_getPendingSignals.
    rewrite getUndeliveredMessages_markAsDelivered.
    apply filter_all. intros m Hm Hin.
    apply elem_of_getUndeliveredMessages in Hm as [[Hr _] Hrow].
    apply (signal_ids uid (messages w) m Hnd Hrow) in Hin as [Hin _].
    apply elem_of_getUndeliveredMessages in Hin as [[Hr' _] _]. congruence.
  - rewrite getPendingSignals_no_signal; [done|].
    rewrite Hrest. apply omap_filter_None.
  - unfold MessageController.getOfflineMessages.
    change (messages (step (EvGetUndelivered uid) (snd r))) with (messages (snd r)).
    by rewrite Hrest.
Qed.

End Signals.

Lemma table_wf_mixed_for_9 : table_wf (messages mixed_for_9).
Proof.
  exact (table_wf_step (EvStoreMessage 110 7 9 "{signal}") queued_for_9
           table_wf_queued_for_9).
Defined.

Lemma getPendingSignals_leaves_other_rows_witness :
  let r := SignalController.getPendingSignals sample_parse 9 120 mixed_for_9 in
  fst r = mkResponse 200
            (BodySignals [mkSignalDTO 2 7 (Some (JStr "offer")) (Some (JStr "sdp")) 110])
  ∧ MessageModel.getUndeliveredMessages 9 (messages (snd r))
    = [mkMessage 1 7 9 "hello" false 100 None].
Proof.
  pose proof (getPendingSignals_leaves_other_rows sample_parse 9 120 130 mixed_for_9
                table_wf_mixed_for_9) as (H1 & H2 & _).
  split; [exact H1|exact H2].
Defined.

Section SignalDelivery.
Import MessageModel.
Variable JSON_stringify : json → string.
Variable JSON_parse : string → option json.

(** A well-formed signal sent over HTTP to a peer with a registered
    connection is written once to that peer's transport, carrying the
    authenticated sender id, the type and the data; the answer is 200 and
    nothing is stored. *)
Theorem sendSignal_live
    (senderId : Z) (signalData : SignalMessage.t) (now : Z) (w : World) (sr : WS)
    (Hrecipient : SignalMessage.recipient signalData ≠ 0)
    (Htype : SignalMessage.type signalData ≠ "")
    (Hdata : truthy (SignalMessage.data signalData) = true)
    (Hreg : NoDup (userId <$> clients w))
    (Hconn : mkClient (SignalMessage.recipient signalData) sr ∈ clients w) :
  SignalController.sendSignal JSON_stringify senderId signalData now w
  = (mkResponse 200 (BodyMessage "Signal sent successfully"),
     step (EvWsSend sr (FrSignal senderId (SignalMessage.type signalData)
                                 (SignalMessage.data signalData))) w).
Proof.
  unfold SignalController.sendSignal.
  apply Z.eqb_neq in Hrecipient. apply String.eqb_neq in Htype.
  rewrite Hrecipient, Htype, Hdata. simpl.
  pose proof (find_client_userId_unique _ _ Hreg Hconn) as Hfind. simpl in Hfind.
  by rewrite Hfind.
Qed.

(** A well-formed offer or answer (any type but 'ice-candidate') for a peer
    without a registered connection.  When sender and recipient are users,
    the signal is queued and answered with 202, and when the codec reads
    back what it wrote, the peer's next [getPendingSignals] returns the signal
    with its sender, type, data and storing time, and marks the row
    delivered.  When the recipient (or the sender) is not a user, the INSERT
    throws: the answer is 500 'Server error' and nothing is queued. *)
Theorem sendSignal_queued_then_pending
    (senderId : Z) (signalData : SignalMessage.t) (now now' : Z) (w : World)
    (Hrecipient : SignalMessage.recipient signalData ≠ 0)
    (Htype : SignalMessage.type signalData ≠ "")
    (Hdata : truthy (SignalMessage.data signalData) = true)
    (Hnot_ice : SignalMessage.type signalData ≠ "ice-candidate")
    (Hoffline : SignalMessage.recipient signalData ∉ userId <$> clients w)
    (Hcodec : JSON_parse (JSON_stringify (SignalController.signal_content signalData))
              = Some (SignalController.signal_content signalData)) :
  let content := JSON_stringify (SignalController.signal_content signalData) in
  let recipient := SignalMessage.recipient signalData in
  let row := mkMessage (messages_id_seq (messages w)) senderId recipient content
                       false now None in
  let r := SignalController.sendSignal JSON_stringify senderId signalData now w in
  let r' := SignalController.getPendingSignals JSON_parse recipient now' (snd r) in
  snd r = step (EvStoreMessage now senderId recipient content) w
  ∧ (senderId ∈ user_ids w → recipient ∈ user_ids w →
     fst r = mkResponse 202 (BodyMessage "Recipient offline, signal queued for delivery")
     ∧ rows (messages (snd r)) = rows (messages w) ++ [row]
     ∧ (∃ signals, fst r' = mkResponse 200 (BodySignals signals)
                   ∧ mkSignalDTO (id row) senderId
                                 (Some (JStr (SignalMessage.type signalData)))
                                 (Some (SignalMessage.data signalData)) now ∈ signals)
     ∧ set_delivered now' row ∈ rows (messages (snd r')))
  ∧ (¬ (senderId ∈ user_ids w ∧ recipient ∈ user_ids w) →
     fst r = mkResponse 500 (BodyMessage "Server error")
     ∧ rows (messages (snd r)) = rows (messages w)
     ∧ fst r' = mkResponse 200 (BodySignals (omap (SignalController.as_signal JSON_parse)
                                    (getUndeliveredMessages recipient (messages w))))).
Proof.
  intros content recipient row r r'.
  assert (Hr : r = (match fst (storeMessage (user_ids w) now senderId recipient content
                                 (messages w)) with
                    | Some _ => mkResponse 202
                                  (BodyMessage "Recipient offline, signal queued for delivery")
                    | None => mkResponse 500 (BodyMessage "Server error")
                    end,
                    step (EvStoreMessage now senderId recipient content) w)).
  { unfold r, SignalController.sendSignal.
    apply Z.eqb_neq in Hrecipient. apply String.eqb_neq in Htype.
    apply String.eqb_neq in Hnot_ice.
    rewrite Hrecipient, Htype, Hdata, Hnot_ice. simpl.
    rewrite (find_client_userId_None _ _ Hoffline).
    fold recipient. fold content. by destruct (fst _). }
  split; [by rewrite Hr|]. split.
  - intros Hs Hu.
    assert (Hstore := storeMessage_users (user_ids w) now senderId recipient content
                        (messages w) Hs Hu).
    assert (Hrows : rows (messages (snd r)) = rows (messages w) ++ [row]).
    { rewrite Hr. cbn [snd step messages]. by rewrite Hstore. }
    assert (Hpending : row ∈ getUndeliveredMessages recipient (messages (snd r))).
    { apply elem_of_getUndeliveredMessages. split; [done|].
      rewrite Hrows. apply elem_of_app. right. left. }
    assert (Hsig : SignalController.as_signal JSON_parse row
                   = Some (mkSignalDTO (id row) senderId
                             (Some (JStr (SignalMessage.type signalData)))
                             (Some (SignalMessage.data signalData)) now)).
    { unfold SignalController.as_signal. simpl. fold content. unfold content.
      by rewrite Hcodec. }
    split; [by rewrite Hr, Hstore|]. split; [done|]. split.
    + eexists. split; [done|]. apply list_elem_of_omap. by exists row.
    + unfold r'. rewrite messages_getPendingSignals, rows_markAsDelivered.
      apply list_elem_of_fmap. exists row. split.
      * rewrite decide_True; [done|].
        apply list_elem_of_fmap. eexists. split; [|apply list_elem_of_omap; by exists row].
        done.
      * rewrite Hrows. apply elem_of_app. right. left.
  - intros Hno.
    destruct (storeMessage_not_users (user_ids w) now senderId recipient content
                (messages w) Hno) as (Hnone & Hrows & _).
    assert (Hrows' : rows (messages (snd r)) = rows (messages w)).
    { rewrite Hr. cbn [snd step messages]. exact Hrows. }
    split; [by rewrite Hr, Hnone|]. split; [done|].
    unfold r', SignalController.getPendingSignals. cbn [fst].
    change (messages (step (EvGetUndelivered recipient) (snd r)))
      with (messages (snd r)).
    unfold getUndeliveredMessages. by rewrite Hrows'.
Qed.

End SignalDelivery.

Lemma sendSignal_live_witness :
  SignalController.sendSignal sample_stringify 7
    (SignalMessage.mk "offer" 8 (JStr "sdp")) 100 two_clients
  = (mkResponse 200 (BodyMessage "Signal sent successfully"),
     step (EvWsSend 2 (FrSignal 7 "offer" (JStr "sdp"))) two_clients).
Proof.
  apply (sendSignal_live sample_stringify 7 (SignalMessage.mk "offer" 8 (JStr "sdp"))
           100 two_clients 2).
  - discriminate.
  - discriminate.
  - reflexivity.
  - simpl. rewrite !NoDup_cons, !not_elem_of_cons.
    repeat split; try discriminate; try apply not_elem_of_nil. apply NoDup_nil_2.
  - simpl. right. left.
Defined.

Lemma sendSignal_queued_then_pending_witness :
  let r := SignalController.sendSignal sample_stringify 7
             (SignalMessage.mk "offer" 9 (JStr "sdp")) 100 two_clients in
  fst r = mkResponse 202 (BodyMessage "Recipient offline, signal queued for delivery")
  ∧ rows (messages (snd r)) = [mkMessage 1 7 9 "{signal}" false 100 None].
Proof.
  pose proof (sendSignal_queued_then_pending sample_stringify sample_parse 7
                (SignalMessage.mk "offer" 9 (JStr "sdp")) 100 110 two_clients) as Hsend.
  cbv zeta in Hsend.
  destruct Hsend as (_ & Hqueued & _).
  - discriminate.
  - discriminate.
  - reflexivity.
  - discriminate.
  - simpl. rewrite !not_elem_of_cons. repeat split; try discriminate. apply not_elem_of_nil.
  - reflexivity.
  - destruct Hqueued as (Hanswer & Hrows & _); [by_decide|by_decide|].
    split; [exact Hanswer|exact Hrows].
Defined.

(** ** Live delivery over the WebSocket *)

Section Live.
Import MessageModel.
Variable verifyToken : string → option TokenPayload.

(** A chat frame from an authenticated transport to a registered peer is
    written once to the peer's transport, with the sender id of the
    transport's own registration (nothing in the payload can change it), and
    acknowledged to the sender with a delivered frame; nothing is stored. *)
Theorem onMessage_message_live
    (s : WS) (payload : ChatMessage.t) (now : Z) (w : World)
    (sender : WebSocketClient) (sr : WS)
    (Hreg : NoDup (userId <$> clients w))
    (Hsender : find_client (λ c, ws c = s) (clients w) = Some sender)
    (Hconn : mkClient (ChatMessage.recipient payload) sr ∈ clients w) :
  let w' := onMessage verifyToken s (Some (MsgMessage payload)) now w in
  new_events w w'
  = [EvWsSend sr (FrMessage (userId sender) (ChatMessage.encryptedContent payload)
                            (ChatMessage.timestamp payload));
     EvWsSend s (FrDelivered (ChatMessage.recipient payload) (ChatMessage.timestamp payload))]
  ∧ messages w' = messages w ∧ clients w' = clients w ∧ redis w' = redis w.
Proof.
  simpl. unfold handleMessage. rewrite Hsender.
  pose proof (find_client_userId_unique _ _ Hreg Hconn) as Hfind. simpl in Hfind.
  rewrite Hfind. simpl. split; [|done].
  apply new_events_app. simpl. by rewrite <- app_assoc.
Qed.

(** A signal frame from an authenticated transport to a registered peer is
    forwarded once to the peer's transport with the sender id of the
    transport's registration, the type and the data; nothing else happens. *)
Theorem onMessage_signal_live
    (s : WS) (payload : SignalMessage.t) (now : Z) (w : World)
    (sender : WebSocketClient) (sr : WS)
    (Hreg : NoDup (userId <$> clients w))
    (Hsender : find_client (λ c, ws c = s) (clients w) = Some sender)
    (Hconn : mkClient (SignalMessage.recipient payload) sr ∈ clients w) :
  let w' := onMessage verifyToken s (Some (MsgSignal payload)) now w in
  new_events w w'
  = [EvWsSend sr (FrSignal (userId sender) (SignalMessage.type payload)
                           (SignalMessage.data payload))]
  ∧ messages w' = messages w ∧ clients w' = clients w ∧ redis w' = redis w.
Proof.
  simpl. unfold handleSignal. rewrite Hsender.
  pose proof (find_client_userId_unique _ _ Hreg Hconn) as Hfind. simpl in Hfind.
  rewrite Hfind. simpl. split; [|done].
  by apply new_events_app.
Qed.

(** Store and forward: a chat frame for a peer that is not registered.
    When the sender of the transport's registration and the recipient are
    users, the message is stored under that sender id and confirmed to the
    sender with a stored frame; when the peer then connects with a valid
    token, the bundle pushed to its transport contains that message, the row
    is marked delivered, and the peer has nothing undelivered left.  When
    the recipient (or the sender) is not a user, the INSERT throws: the
    sender gets the error frame 'Failed to store message' and nothing is
    stored. *)
Theorem message_queued_then_flushed
    (s : WS) (payload : ChatMessage.t) (now : Z) (w : World) (sender : WebSocketClient)
    (Hsender : find_client (λ c, ws c = s) (clients w) = Some sender)
    (Hoffline : ChatMessage.recipient payload ∉ userId <$> clients w) :
  let recipient := ChatMessage.recipient payload in
  let content := ChatMessage.encryptedContent payload in
  let row := mkMessage (messages_id_seq (messages w)) (userId sender) recipient content
                       false now None in
  let insert := EvStoreMessage now (userId sender) recipient content in
  let w1 := onMessage verifyToken s (Some (MsgMessage payload)) now w in
  (userId sender ∈ user_ids w → recipient ∈ user_ids w →
   new_events w w1 = [insert; EvWsSend s (FrStored recipient (ChatMessage.timestamp payload))]
   ∧ rows (messages w1) = rows (messages w) ++ [row]
   ∧ ∀ (s' : WS) (token : string) (d : TokenPayload) (now' : Z),
       verifyToken token = Some d → tp_userId d = recipient →
       let w2 := onMessage verifyToken s' (Some (MsgConnect (with_token token))) now' w1 in
       (∃ bundle, EvWsSend s' (FrPendingMessages bundle) ∈ new_events w1 w2
                  ∧ mkPending (id row) (userId sender) content now ∈ bundle)
       ∧ set_delivered now' row ∈ rows (messages w2)
       ∧ getUndeliveredMessages recipient (messages w2) = [])
  ∧ (¬ (userId sender ∈ user_ids w ∧ recipient ∈ user_ids w) →
     new_events w w1 = [insert; EvWsSend s (FrError "Failed to store message")]
     ∧ rows (messages w1) = rows (messages w)
     ∧ clients w1 = clients w ∧ redis w1 = redis w).
Proof.
  intros recipient content row insert w1.
  assert (Hw1 : w1 = step (EvWsSend s
                             match fst (storeMessage (user_ids w) now (userId sender)
                                          recipient content (messages w)) with
                             | Some _ => FrStored recipient (ChatMessage.timestamp payload)
                             | None => FrError "Failed to store message"
                             end)
                          (step insert w)).
  { unfold w1. simpl. unfold handleMessage. rewrite Hsender.
    rewrite (find_client_userId_None _ _ Hoffline).
    fold recipient. fold content. fold insert. by destruct (fst _). }
  split.
  - intros Hs Hu.
    assert (Hstore := storeMessage_users (user_ids w) now (userId sender) recipient content
                        (messages w) Hs Hu).
    rewrite Hstore in Hw1. cbn [fst] in Hw1.
    assert (Hrows : rows (messages w1) = rows (messages w) ++ [row]).
    { rewrite Hw1. unfold insert. cbn [step messages]. by rewrite Hstore. }
    split; [|split; [done|]].
    { apply new_events_app. rewrite Hw1. by rewrite !trace_step, <- app_assoc. }
    intros s' token d now' Hvalid Hpeer w2.
    assert (Hin : row ∈ getUndeliveredMessages recipient (messages w1)).
    { apply elem_of_getUndeliveredMessages. split; [done|].
      rewrite Hrows. apply elem_of_app. right. left. }
    assert (Hw2 : w2 = handleConnect verifyToken s' (with_token token) now' w1) by done.
    rewrite (handleConnect_valid verifyToken s' token now' w1 d Hvalid) in Hw2.
    rewrite Hpeer in Hw2.
    split; [|split].
    + exists ((λ m, mkPending (id m) (sender_id m) (encrypted_content m) (created_at m))
                <$> getUndeliveredMessages recipient (messages w1)). split.
      * rewrite (new_events_app w1 w2 (connect_effects recipient s' now' w1))
          by (by rewrite Hw2).
        unfold connect_effects.
        destruct (getUndeliveredMessages recipient (messages w1)) as [|m l] eqn:Hf.
        -- by apply not_elem_of_nil in Hin.
        -- rewrite !elem_of_app. right. right. right. left.
      * apply list_elem_of_fmap. by exists row.
    + rewrite Hw2. cbn [messages]. rewrite rows_markAsDelivered.
      apply list_elem_of_fmap. exists row. split.
      * rewrite decide_True; [done|]. by apply (list_elem_of_fmap_2 id) in Hin.
      * rewrite Hrows. apply elem_of_app. right. left.
    + rewrite Hw2. cbn [messages].
      apply getUndeliveredMessages_nil, markAsDelivered_fetched.
  - intros Hno.
    destruct (storeMessage_not_users (user_ids w) now (userId sender) recipient content
                (messages w) Hno) as (Hnone & Hrows & _).
    rewrite Hnone in Hw1. rewrite Hw1. unfold insert.
    cbn [step messages clients redis].
    split; [|done].
    apply new_events_app. cbn [trace]. by rewrite <- app_assoc.
Qed.

End Live.

Lemma NoDup_two_clients : NoDup (userId <$> clients two_clients).
Proof.
  simpl. rewrite !NoDup_cons, !not_elem_of_cons.
  repeat split; try discriminate; try apply not_elem_of_nil. apply NoDup_nil_2.
Defined.

Lemma not_registered_9 : 9 ∉ userId <$> clients two_clients.
Proof.
  simpl. rewrite !not_elem_of_cons. repeat split; try discriminate. apply not_elem_of_nil.
Defined.

Lemma onMessage_message_live_witness :
  let w' := onMessage sample_verifyToken 1
              (Some (MsgMessage (ChatMessage.mk 8 "hello" 5))) 100 two_clients in
  new_events two_clients w'
  = [EvWsSend 2 (FrMessage 7 "hello" 5); EvWsSend 1 (FrDelivered 8 5)]
  ∧ messages w' = messages two_clients ∧ clients w' = clients two_clients
  ∧ redis w' = redis two_clients.
Proof.
  apply (onMessage_message_live sample_verifyToken 1 (ChatMessage.mk 8 "hello" 5) 100
           two_clients (mkClient 7 1) 2 NoDup_two_clients eq_refl).
  simpl. right. left.
Defined.

Lemma onMessage_signal_live_witness :
  let w' := onMessage sample_verifyToken 1
              (Some (MsgSignal (SignalMessage.mk "answer" 8 (JStr "sdp")))) 100 two_clients in
  new_events two_clients w' = [EvWsSend 2 (FrSignal 7 "answer" (JStr "sdp"))]
  ∧ messages w' = messages two_clients ∧ clients w' = clients two_clients
  ∧ redis w' = redis two_clients.
Proof.
  apply (onMessage_signal_live sample_verifyToken 1
           (SignalMessage.mk "answer" 8 (JStr "sdp")) 100
           two_clients (mkClient 7 1) 2 NoDup_two_clients eq_refl).
  simpl. right. left.
Defined.

Lemma message_queued_then_flushed_witness :
  let w1 := onMessage sample_verifyToken 1
              (Some (MsgMessage (ChatMessage.mk 9 "hello" 5))) 100 two_clients in
  let w2 := onMessage sample_verifyToken 3
              (Some (MsgConnect (with_token "token-of-9"))) 200 w1 in
  rows (messages w1) = [mkMessage 1 7 9 "hello" false 100 None]
  ∧ mkMessage 1 7 9 "hello" true 100 (Some 200) ∈ rows (messages w2)
  ∧ MessageModel.getUndeliveredMessages 9 (messages w2) = [].
Proof.
  pose proof (message_queued_then_flushed sample_verifyToken 1 (ChatMessage.mk 9 "hello" 5)
                100 two_clients (mkClient 7 1) eq_refl not_registered_9) as Hqueued.
  cbv zeta in Hqueued. destruct Hqueued as [Hstored _].
  destruct Hstored as (_ & Hrows & Hflush); [by_decide|by_decide|].
  destruct (Hflush 3%nat "token-of-9" (mkTokenPayload 9 "nine@example.org") 200
              eq_refl eq_refl) as (_ & Hmarked & Hnone).
  split; [exact Hrows|]. split; [exact Hmarked|exact Hnone].
Defined.

(** ** Closing, eviction and stale presence *)

Lemma closed_by_sends (es : list Event) : Forall is_send es → closed_by es = [].
Proof.
  induction 1 as [|e es He _ IH]; [done|]. by destruct e.
Qed.

Lemma closed_by_app (es1 es2 : list Event) :
  closed_by (es1 ++ es2) = closed_by es1 ++ closed_by es2.
Proof. apply omap_app. Qed.

Lemma new_events_handleDisconnect (s : WS) (w : World) :
  closed_by (new_events w (handleDisconnect s w)) = [].
Proof.
  unfold handleDisconnect. destruct (find_client _ _) as [c|].
  - erewrite new_events_app.
    2:{ rewrite trace_broadcastPresence. simpl. rewrite <- !app_assoc. reflexivity. }
    simpl. apply closed_by_sends, Forall_fmap, Forall_forall. by intros.
  - by rewrite (new_events_app w w []) by (by rewrite app_nil_r).
Qed.

Lemma presence_key_inj (a b : Z) : presence_key a = presence_key b → a = b.
Proof.
  unfold presence_key. intros H. apply (inj pretty). by apply (inj (String.app _)) in H.
Qed.

Section Closing.
Import MessageModel.
Variable verifyToken : string → option TokenPayload.

(** The server closes a transport only on a connect frame that fails: one
    without payload, which is answered with a 'Connection error' frame, and
    one whose token is missing or does not verify, which is answered with
    an 'Invalid token' frame.  In both cases the transport is closed and
    registry, presence store and mailbox are as before.  No other frame,
    malformed or of unknown type or valid, makes the server close any
    transport, and neither does a transport close. *)
Theorem server_closes_only_on_failed_connect
    (s : WS) (data : option WebSocketMessage) (now : Z) (w : World) :
  let w' := onMessage verifyToken s data now w in
  closed_by (new_events w w')
  = match data with
    | Some (MsgConnect None) => [s]
    | Some (MsgConnect (Some p)) =>
        match ConnectPayload.token p ≫= verifyToken with None => [s] | Some _ => [] end
    | _ => []
    end
  ∧ closed_by (new_events w (onClose s w)) = []
  ∧ (data = Some (MsgConnect None) →
       new_events w w' = [EvWsSend s (FrError "Connection error"); EvWsClose s]
       ∧ clients w' = clients w ∧ redis w' = redis w ∧ messages w' = messages w)
  ∧ (∀ p, data = Some (MsgConnect (Some p)) →
          ConnectPayload.token p ≫= verifyToken = None →
       new_events w w' = [EvWsSend s (FrError "Invalid token"); EvWsClose s]
       ∧ clients w' = clients w ∧ redis w' = redis w ∧ messages w' = messages w).
Proof.
  simpl. split; [|split; [|split]].
  - destruct data as [[[[[token|]]|]| |p|p|ty]|];
      [destruct (verifyToken token) as [d|] eqn:Hv; [|simpl]|simpl..].
    + change (onMessage verifyToken s _ now w)
          with (handleConnect verifyToken s (with_token token) now w).
      rewrite (new_events_app w _ (connect_effects (tp_userId d) s now w))
        by (by rewrite (handleConnect_valid verifyToken s token now w d Hv)).
      simpl. rewrite Hv.
      unfold connect_effects. rewrite !closed_by_app.
      rewrite (closed_by_sends (_ <$> _))
        by (apply Forall_fmap, Forall_forall; by intros).
      by destruct (getUndeliveredMessages _ _).
    + unfold handleConnect. simpl. rewrite Hv.
      by rewrite (new_events_app w _ [EvWsSend s (FrError "Invalid token"); EvWsClose s])
        by (simpl; by rewrite <- app_assoc).
    + by rewrite (new_events_app w _ [EvWsSend s (FrError "Invalid token"); EvWsClose s])
        by (simpl; by rewrite <- app_assoc).
    + by rewrite (new_events_app w _ [EvWsSend s (FrError "Connection error"); EvWsClose s])
        by (simpl; by rewrite <- app_assoc).
    + apply new_events_handleDisconnect.
    + unfold handleSignal.
      destruct (find_client _ _); [destruct (find_client _ _)|];
        by erewrite new_events_app by apply trace_step.
    + unfold handleMessage.
      destruct (find_client _ _); [destruct (find_client _ _)|].
      * by erewrite new_events_app by (simpl; by rewrite <- app_assoc).
      * destruct (fst _);
          by erewrite new_events_app by (rewrite !trace_step; by rewrite <- app_assoc).
      * by erewrite new_events_app by apply trace_step.
    + by erewrite new_events_app by (simpl; reflexivity).
    + by erewrite new_events_app by (simpl; reflexivity).
  - apply new_events_handleDisconnect.
  - intros ->. simpl.
    split; [|done]. apply new_events_app. simpl. by rewrite <- app_assoc.
  - intros p -> Hv. simpl. unfold handleConnect. rewrite Hv. simpl.
    split; [|done]. apply new_events_app. simpl. by rewrite <- app_assoc.
Qed.

(** A transport that was evicted by a newer connection of the same peer
    does not take the peer down when it closes: after two connects of one
    peer on different transports, the close of the first changes nothing, so
    the peer stays registered on the second transport and online. *)
Theorem evicted_transport_close_is_ignored
    (s1 s2 : WS) (token : string) (now1 now2 : Z) (w : World) (d : TokenPayload)
    (Hvalid : verifyToken token = Some d)
    (Hfresh : s1 ∉ ws <$> clients w)
    (Hother : s1 ≠ s2) :
  let w2 := handleConnect verifyToken s2 (with_token token) now2
              (handleConnect verifyToken s1 (with_token token) now1 w) in
  onClose s1 w2 = w2
  ∧ mkClient (tp_userId d) s2 ∈ clients w2
  ∧ isUserOnline (tp_userId d) w2 = true.
Proof.
  intros w2.
  assert (Hw2 : clients w2 = register (tp_userId d) s2 (register (tp_userId d) s1 (clients w))
                ∧ redis w2 !! presence_key (tp_userId d) = Some (mkEntry "online" (Some 60))).
  { unfold w2. rewrite !(handleConnect_valid verifyToken _ token _ _ d Hvalid). simpl.
    split; [done|]. by rewrite lookup_alter_eq, lookup_insert_eq. }
  destruct Hw2 as [Hcl Hredis].
  split; [|split].
  - unfold onClose, handleDisconnect.
    rewrite find_client_ws_None; [done|].
    rewrite Hcl. unfold register. intros Hin.
    apply list_elem_of_fmap in Hin as (c & Hc & Hin).
    apply elem_of_app in Hin as [Hin|Hin].
    + apply list_elem_of_filter in Hin as [Hne Hin].
      apply elem_of_app in Hin as [Hin|Hin].
      * apply list_elem_of_filter in Hin as [_ Hin].
        apply Hfresh. rewrite Hc. by apply list_elem_of_fmap_2.
      * apply list_elem_of_singleton in Hin as ->. by apply Hne.
    + apply list_elem_of_singleton in Hin as ->. by apply Hother.
  - rewrite Hcl. unfold register. apply elem_of_app. right. left.
  - unfold isUserOnline. by rewrite Hredis.
Qed.

End Closing.

Lemma evicted_transport_close_is_ignored_witness :
  let w2 := handleConnect sample_verifyToken 4 (with_token "token-of-9") 300
              (handleConnect sample_verifyToken 3 (with_token "token-of-9") 200 two_clients) in
  onClose 3 w2 = w2
  ∧ mkClient 9 4 ∈ clients w2
  ∧ isUserOnline 9 w2 = true.
Proof.
  apply (evicted_transport_close_is_ignored sample_verifyToken 3 4 "token-of-9" 200 300
           two_clients (mkTokenPayload 9 "nine@example.org") eq_refl).
  - simpl. rewrite !not_elem_of_cons. repeat split; try discriminate. apply not_elem_of_nil.
  - discriminate.
Defined.

Lemma find_client_cons (P : WebSocketClient → Prop) `{!∀ c, Decision (P c)} c l :
  find_client P (c :: l) = if decide (P c) then Some c else find_client P l.
Proof.
  unfold find_client. simpl. case_decide; [done|].
  by destruct (list_find P l) as [[??]|].
Qed.

Lemma find_client_app_first (P : WebSocketClient → Prop) `{!∀ c, Decision (P c)} l1 c l2 :
  Forall (λ c', ¬ P c') l1 → P c → find_client P (l1 ++ c :: l2) = Some c.
Proof.
  intros Hl1 Hc. induction Hl1 as [|x l1 Hx _ IH]; simpl.
  - rewrite find_client_cons. by rewrite decide_True.
  - rewrite find_client_cons. by rewrite decide_False.
Qed.

Section SharedTransport.
Variable verifyToken : string → option TokenPayload.

(** One transport may authenticate as two peers in turn; both registrations
    then carry that transport.  When it closes, both entries leave the
    registry, but only the first-registered peer is written offline: the
    presence key of the second stays online (until its expiry) although the
    peer has no registry entry any more. *)
Theorem shared_transport_leaves_stale_presence
    (s : WS) (token_a token_b : string) (now1 now2 : Z) (w : World)
    (da db : TokenPayload)
    (Ha : verifyToken token_a = Some da)
    (Hb : verifyToken token_b = Some db)
    (Hne : tp_userId da ≠ tp_userId db)
    (Hfresh : s ∉ ws <$> clients w) :
  let a := tp_userId da in
  let b := tp_userId db in
  let rest := filter (λ c, userId c ≠ b) (filter (λ c, userId c ≠ a) (clients w)) in
  let w2 := handleConnect verifyToken s (with_token token_b) now2
              (handleConnect verifyToken s (with_token token_a) now1 w) in
  let w3 := onClose s w2 in
  clients w2 = rest ++ [mkClient a s; mkClient b s]
  ∧ clients w3 = rest
  ∧ isUserOnline a w3 = false
  ∧ isUserOnline b w3 = true
  ∧ b ∉ userId <$> clients w3.
Proof.
  intros a b rest w2 w3.
  assert (Hw2 : w2 = mkWorld (rest ++ [mkClient a s; mkClient b s]) (redis w2)
                             (user_ids w2) (messages w2) (trace w2)
                ∧ redis w2 !! presence_key b = Some (mkEntry "online" (Some 60))).
  { unfold w2. rewrite !(handleConnect_valid verifyToken _ _ _ _ _ Ha).
    rewrite !(handleConnect_valid verifyToken _ _ _ _ _ Hb). simpl. fold a b.
    split; [|by rewrite lookup_alter_eq, lookup_insert_eq].
    f_equal. unfold register. rewrite filter_app.
    rewrite (filter_cons_True (λ c, userId c ≠ b)) by done.
    by rewrite <- app_assoc. }
  destruct Hw2 as [Hw2 Hredis].
  assert (Hrest : Forall (λ c, ¬ ws c = s) rest).
  { apply Forall_forall. intros c Hc Hws.
    apply list_elem_of_filter in Hc as [_ Hc]. apply list_elem_of_filter in Hc as [_ Hc].
    apply Hfresh. rewrite <- Hws. by apply list_elem_of_fmap_2. }
  assert (Hw3 : w3 = broadcastPresence a offline
                       (step (EvClientsFilterWs s)
                             (step (EvRedisSet (presence_key a) "offline") w2))).
  { unfold w3, onClose, handleDisconnect. rewrite Hw2 at 1. simpl.
    by rewrite (find_client_app_first (λ c, ws c = s) rest (mkClient a s) [mkClient b s]
                  Hrest eq_refl). }
  destruct (broadcastPresence_frame a offline
              (step (EvClientsFilterWs s)
                    (step (EvRedisSet (presence_key a) "offline") w2))) as (Hc & Hr & _).
  rewrite <- Hw3 in Hc, Hr. simpl in Hc, Hr.
  assert (Hcl : clients w3 = rest).
  { rewrite Hc, Hw2. simpl. rewrite filter_app.
    rewrite !filter_cons_False by (simpl; intros Hs; by apply Hs).
    rewrite filter_nil, app_nil_r. apply filter_all.
    intros c Hc'. rewrite Forall_forall in Hrest. by apply Hrest. }
  split; [by rewrite Hw2|]. split; [done|]. split; [|split].
  - unfold isUserOnline. by rewrite Hr, lookup_insert_eq.
  - unfold isUserOnline. rewrite Hr, lookup_insert_ne, Hredis; [done|].
    intros Hk. apply presence_key_inj in Hk. by apply Hne.
  - rewrite Hcl. intros Hin. apply list_elem_of_fmap in Hin as (c & Hcb & Hin).
    apply list_elem_of_filter in Hin as [Hnb _]. by apply Hnb.
Qed.

End SharedTransport.

Lemma shared_transport_leaves_stale_presence_witness :
  let w3 := onClose 3 (handleConnect two_tokens 3 (with_token "token-of-10") 210
                         (handleConnect two_tokens 3 (with_token "token-of-9") 200 two_clients)) in
  clients w3 = clients two_clients
  ∧ isUserOnline 9 w3 = false
  ∧ isUserOnline 10 w3 = true
  ∧ 10 ∉ userId <$> clients w3.
Proof.
  apply (proj2 (shared_transport_leaves_stale_presence two_tokens 3
                  "token-of-9" "token-of-10" 200 210 two_clients
                  (mkTokenPayload 9 "nine@example.org") (mkTokenPayload 10 "ten@example.org")
                  eq_refl eq_refl ltac:(discriminate)
                  ltac:(simpl; rewrite !not_elem_of_cons;
                        repeat split; try discriminate; apply not_elem_of_nil))).
Defined.

(** ** The heartbeat *)

Lemma presenceHeartbeat_fold (l : list WebSocketClient) (v : World) :
  clients (foldl refresh_presence v l) = clients v
  ∧ messages (foldl refresh_presence v l) = messages v
  ∧ trace (foldl refresh_presence v l) = trace v ++ (l ≫= heartbeat_effects)
  ∧ ∀ k, redis (foldl refresh_presence v l) !! k
         = if decide (k ∈ (λ c, presence_key (userId c)) <$> l)
           then Some (mkEntry "online" (Some 60)) else redis v !! k.
Proof.
  revert v. induction l as [|c l IH]; intros v.
  - simpl. by rewrite app_nil_r.
  - cbn [foldl]. destruct (IH (refresh_presence v c)) as (Hc & Hm & Ht & Hr).
    split; [by rewrite Hc|]. split; [by rewrite Hm|]. split.
    + rewrite Ht. unfold refresh_presence. simpl. by rewrite <- !app_assoc.
    + intros k. rewrite Hr, fmap_cons.
      destruct (decide (k ∈ (λ c0, presence_key (userId c0)) <$> l)) as [Hin|Hin].
      * rewrite decide_True; [done|by right].
      * unfold refresh_presence. cbn [redis step].
        destruct (decide (k = presence_key (userId c))) as [->|Hk].
        -- rewrite decide_True by left.
           by rewrite lookup_alter_eq, lookup_insert_eq.
        -- rewrite decide_False by (rewrite not_elem_of_cons; done).
           by rewrite lookup_alter_ne, lookup_insert_ne.
Qed.

(** One heartbeat sets the presence key of every registered peer to online
    with a 60-second expiry, whatever it held before, by one SET and one
    EXPIRE per registry entry in registry order; the keys of peers that are
    not registered, the registry and the mailbox are left alone. *)
Theorem presenceHeartbeat_refreshes_registered (w : World) :
  let w' := presenceHeartbeat w in
  (∀ c, c ∈ clients w →
        redis w' !! presence_key (userId c) = Some (mkEntry "online" (Some 60))
        ∧ isUserOnline (userId c) w' = true)
  ∧ (∀ uid, uid ∉ userId <$> clients w →
            redis w' !! presence_key uid = redis w !! presence_key uid)
  ∧ clients w' = clients w ∧ messages w' = messages w
  ∧ new_events w w' = clients w ≫= heartbeat_effects.
Proof.
  destruct (presenceHeartbeat_fold (clients w) w) as (Hc & Hm & Ht & Hr).
  simpl. unfold presenceHeartbeat. split; [|split; [|split; [|split]]]; try done.
  - intros c Hin.
    assert (Hk : redis (presenceHeartbeat w) !! presence_key (userId c)
                 = Some (mkEntry "online" (Some 60))).
    { unfold presenceHeartbeat. rewrite Hr, decide_True; [done|].
      by apply (list_elem_of_fmap_2 (λ c, presence_key (userId c))). }
    split; [exact Hk|]. unfold isUserOnline. unfold presenceHeartbeat in Hk. by rewrite Hk.
  - intros uid Hnot. rewrite Hr, decide_False; [done|].
    intros Hin. apply list_elem_of_fmap in Hin as (c & Hk & Hin).
    apply presence_key_inj in Hk. subst uid. apply Hnot. by apply list_elem_of_fmap_2.
  - by apply new_events_app.
Qed.

(** ** What the requests leave alone *)

Section Frames.
Import MessageModel.
Variable verifyToken : string → option TokenPayload.
Variable JSON_stringify : json → string.
Variable JSON_parse : string → option json.

(** Only a connect frame, a disconnect frame or a transport close changes
    the registry or the presence store; every other request leaves both as
    they are.  The HTTP mailbox endpoints write to no transport and close
    none, and a WebSocket signal frame never changes the mailbox. *)
Theorem only_sessions_touch_registry_and_presence (w : World) (r : Request) :
  (¬ is_session_request r → clients (serve verifyToken JSON_stringify JSON_parse w r) = clients w ∧ redis (serve verifyToken JSON_stringify JSON_parse w r) = redis w)
  ∧ (is_mailbox_request r →
       Forall (λ e, ¬ is_send e) (new_events w (serve verifyToken JSON_stringify JSON_parse w r))
       ∧ closed_by (new_events w (serve verifyToken JSON_stringify JSON_parse w r)) = [])
  ∧ (∀ s payload now, r = ReqFrame s (Some (MsgSignal payload)) now →
       messages (serve verifyToken JSON_stringify JSON_parse w r) = messages w).
Proof.
  split; [|split].
  - intros Hr.
    destruct r as [s [[payload| |p|p|ty]|] now|s|sender p now|uid now|uid now
                  |uid [ids|]|sender rcpt c now|rcpt sender c now later]; simpl;
      try (by destruct Hr); try done.
    + unfold handleSignal.
      by destruct (find_client _ _); [destruct (find_client _ _)|].
    + unfold handleMessage.
      destruct (find_client _ _); [destruct (find_client _ _)|]; try done.
      by destruct (fst _).
    + unfold SignalController.sendSignal.
      destruct (_ || _); [done|].
      destruct (find_client _ _); [done|].
      destruct (negb _); [|done]. by destruct (fst _).
    + unfold SignalController.getPendingSignals. by case_decide.
    + unfold MessageController.getOfflineMessages. by case_decide.
    + unfold MessageController.markMessagesAsRead. by destruct (fst _).
    + unfold MessageController.storeMessage.
      destruct (_ || _); [done|]. by destruct (fst _).
    + unfold MessageController.storeReceivedMessage.
      destruct (_ || _); [done|]. by destruct (fst _).
  - intros Hr.
    destruct r as [s [[payload| |p|p|ty]|] now|s|sender p now|uid now|uid now
                  |uid [ids|]|sender rcpt c now|rcpt sender c now later]; simpl;
      try (by destruct Hr).
    + unfold SignalController.getPendingSignals. case_decide.
      * erewrite new_events_app by (simpl; by rewrite <- app_assoc).
        split; [|done]. repeat constructor; by intros [].
      * erewrite new_events_app by (simpl; reflexivity).
        split; [|done]. repeat constructor; by intros [].
    + unfold MessageController.getOfflineMessages. case_decide.
      * erewrite new_events_app by (simpl; by rewrite <- app_assoc).
        split; [|done]. repeat constructor; by intros [].
      * erewrite new_events_app by (simpl; reflexivity).
        split; [|done]. repeat constructor; by intros [].
    + unfold MessageController.markMessagesAsRead. destruct (fst _).
      * erewrite new_events_app by (simpl; reflexivity).
        split; [|done]. repeat constructor; by intros [].
      * erewrite new_events_app by (simpl; reflexivity).
        split; [|done]. repeat constructor; by intros [].
    + erewrite new_events_app by (by rewrite app_nil_r). by split.
    + unfold MessageController.storeMessage. destruct (_ || _).
      * erewrite new_events_app by (by rewrite app_nil_r). by split.
      * destruct (fst _).
        -- erewrite new_events_app by (simpl; reflexivity).
           split; [|done]. repeat constructor; by intros [].
        -- erewrite new_events_app by (simpl; reflexivity).
           split; [|done]. repeat constructor; by intros [].
    + unfold MessageController.storeReceivedMessage. destruct (_ || _).
      * erewrite new_events_app by (by rewrite app_nil_r). by split.
      * destruct (fst _).
        -- erewrite new_events_app by (simpl; by rewrite <- app_assoc).
           split; [|done]. repeat constructor; by intros [].
        -- erewrite new_events_app by (simpl; reflexivity).
           split; [|done]. repeat constructor; by intros [].
  - intros s payload now ->. simpl. unfold handleSignal.
    by destruct (find_client _ _); [destruct (find_client _ _)|].
Qed.

End Frames.

(** ** Stored messages are never rewritten *)

Lemma same_message_refl (m : Message) : same_message m m.
Proof. by repeat split. Qed.

Lemma same_message_trans (m1 m2 m3 : Message) :
  same_message m1 m2 → same_message m2 m3 → same_message m1 m3.
Proof.
  unfold same_message. intros (?&?&?&?&?&?) (?&?&?&?&?&?).
  repeat split; try congruence; auto.
Qed.

Lemma step_keeps_messages (e : Event) (w : World) :
  messages_id_seq (messages w) ≤ messages_id_seq (messages (step e w))
  ∧ ∀ m', m' ∈ rows (messages (step e w)) → id m' < messages_id_seq (messages w) →
          ∃ m, m ∈ rows (messages w) ∧ same_message m m'.
Proof.
  destruct e; simpl;
    try (split; [lia|]; intros m' Hm' _; exists m'; split; [done|apply same_message_refl]).
  - split; [apply seq_storeMessage|]. intros m' Hm' Hlt.
    rewrite rows_storeMessage in Hm'.
    apply elem_of_app in Hm' as [Hm'|Hm'].
    + exists m'. split; [done|apply same_message_refl].
    + destruct (fst (MessageModel.storeMessage _ _ _ _ _ _)) as [m|] eqn:Hm;
        [|by apply not_elem_of_nil in Hm'].
      apply fst_storeMessage in Hm as (-> & _ & _).
      apply list_elem_of_singleton in Hm' as ->. simpl in Hlt. lia.
  - rewrite seq_markAsDelivered. split; [lia|]. intros m' Hm' _.
    rewrite rows_markAsDelivered in Hm'.
    apply list_elem_of_fmap in Hm' as (m & -> & Hm). exists m. split; [done|].
    case_decide; [by repeat split|apply same_message_refl].
  - rewrite snd_markAsRead. split; [lia|]. intros m' Hm' _.
    exists m'. split; [done|apply same_message_refl].
  - split; [lia|]. intros m' Hm' _.
    apply list_elem_of_filter in Hm' as [_ Hm'].
    exists m'. split; [done|apply same_message_refl].
Qed.

(** Whatever effects run, a row that is in the table afterwards under an id
    that was already issued is one of the earlier rows, with the same sender,
    recipient, content and creation time, and still delivered if it was: no
    statement of the model rewrites a stored message or takes a delivery
    mark back. *)
Theorem stored_messages_are_never_rewritten (es : list Event) (w : World) (m' : Message)
    (Hrow : m' ∈ rows (messages (run es w)))
    (Hold : id m' < messages_id_seq (messages w)) :
  ∃ m, m ∈ rows (messages w) ∧ same_message m m'.
Proof.
  revert w Hrow Hold. induction es as [|e es IH]; intros w Hrow Hold.
  - exists m'. split; [done|apply same_message_refl].
  - destruct (step_keeps_messages e w) as [Hseq Hstep].
    destruct (IH (step e w) Hrow ltac:(lia)) as (m1 & Hm1 & Hsame1).
    destruct (Hstep m1 Hm1) as (m & Hm & Hsame).
    { destruct Hsame1 as (Hid & _). lia. }
    exists m. split; [done|]. by eapply same_message_trans.
Qed.

Lemma stored_messages_are_never_rewritten_witness :
  ∃ m, m ∈ rows (messages queued_for_9)
       ∧ same_message m (mkMessage 1 7 9 "hello" true 100 (Some 200)).
Proof.
  apply (stored_messages_are_never_rewritten
           [EvMarkAsDelivered 200 [1]; EvStoreMessage 210 8 9 "next";
            EvCleanupOldMessages 300 7]
           queued_for_9 (mkMessage 1 7 9 "hello" true 100 (Some 200))).
  - vm_compute. left.
  - reflexivity.
Defined.

(** * Contact requests, contacts and keys *)

Lemma head_filter_None {A} (P : A → Prop) `{!∀ x, Decision (P x)} (l : list A) :
  head (filter P l) = None ↔ Forall (λ x, ¬ P x) l.
Proof.
  induction l as [|a l IH].
  - split; [constructor|done].
  - rewrite filter_cons. destruct (decide (P a)) as [Ha|Ha]; simpl.
    + split; [done|]. intros Hall. inversion Hall; subst. done.
    + rewrite IH. split; [by constructor|]. intros Hall. by inversion Hall.
Qed.

Lemma filter_none {A} (P : A → Prop) `{!∀ x, Decision (P x)} (l : list A) :
  Forall (λ x, ¬ P x) l → filter P l = [].
Proof.
  induction 1 as [|a l Ha _ IH]; [done|]. by rewrite filter_cons_False.
Qed.

Lemma head_filter_Some {A} (P : A → Prop) `{!∀ x, Decision (P x)} (l : list A) (x : A) :
  head (filter P l) = Some x → x ∈ l ∧ P x.
Proof.
  intros Hh. assert (Hin : x ∈ filter P l).
  { destruct (filter P l) as [|y k]; [done|]. simpl in Hh. injection Hh as ->. left. }
  apply list_elem_of_filter in Hin. tauto.
Qed.

(** Under a unique key the first row with a given key is any row with it. *)
Lemma head_filter_unique {A K} (key : A → K) `{!EqDecision K} (l : list A) (x : A) :
  NoDup (key <$> l) → x ∈ l → head (filter (λ y, key y = key x) l) = Some x.
Proof.
  intros Hnd Hx.
  destruct (head (filter (λ y, key y = key x) l)) as [y|] eqn:Hh.
  - apply head_filter_Some in Hh as [Hy Hk]. f_equal.
    by apply (NoDup_fmap_elem_inj key l).
  - apply head_filter_None in Hh. rewrite Forall_forall in Hh. by destruct (Hh x Hx).
Qed.

Lemma filter_unique_singleton {A K} (key : A → K) `{!EqDecision K} (l : list A) (x : A) :
  NoDup (key <$> l) → x ∈ l → filter (λ y, key y = key x) l = [x].
Proof.
  intros Hnd Hx. induction l as [|a l IH]; [by apply not_elem_of_nil in Hx|].
  rewrite fmap_cons in Hnd. apply NoDup_cons in Hnd as [Ha Hnd].
  rewrite filter_cons. apply elem_of_cons in Hx as [->|Hx].
  - rewrite decide_True by done. f_equal.
    apply filter_none. apply Forall_forall. intros y Hy Hk.
    apply Ha. rewrite <- Hk. by apply list_elem_of_fmap_2.
  - rewrite decide_False; [by apply IH|].
    intros Hk. apply Ha. rewrite Hk. by apply list_elem_of_fmap_2.
Qed.

Lemma head_filter_fmap {A} (P : A → Prop) `{!∀ x, Decision (P x)} (g : A → A) (l : list A) :
  (∀ x, P (g x) ↔ P x) → head (filter P (g <$> l)) = g <$> head (filter P l).
Proof.
  intros Hg. rewrite filter_fmap_iff by done. by destruct (filter P l).
Qed.

Section ContactRequests.
Import ContactRequestModel.

Lemma filter_request_pair (s r : Z) (l : list ContactRequest.t) :
  filter (λ q, ContactRequest.sender_id q = s ∧ ContactRequest.recipient_id q = r) l
  = filter (λ q, request_pair q = (s, r)) l.
Proof.
  apply list_filter_iff. intros q. unfold request_pair. split.
  - by intros [-> ->].
  - by intros [= -> ->].
Qed.

Lemma request_pair_set_status st now q : request_pair (set_status st now q) = request_pair q.
Proof. done. Qed.

Lemma findBySenderAndRecipient_unique (db : Db) (q : ContactRequest.t) :
  NoDup (request_pair <$> contact_requests db) → q ∈ contact_requests db →
  findBySenderAndRecipient (ContactRequest.sender_id q) (ContactRequest.recipient_id q) db
  = Some q.
Proof.
  intros Hnd Hq. unfold findBySenderAndRecipient. rewrite filter_request_pair.
  by apply (head_filter_unique request_pair).
Qed.

Lemma fmap_key_update {A K} (key : A → K) (g : A → A) (l : list A) :
  (∀ x, key (g x) = key x) → key <$> (g <$> l) = key <$> l.
Proof.
  intros Hg. rewrite <- list_fmap_compose. apply list_fmap_ext. intros _ x _. apply Hg.
Qed.

(** [create] never makes a second request for the same sender and
    recipient and never hands back a rejected one: the returned request is
    from the sender to the recipient, pending or accepted, and is the row
    that the lookup by sender and recipient now finds; exactly one row exists
    for the pair; a second [create] returns the same request and changes
    nothing; the constraints of the schema keep holding. *)
Theorem create_never_duplicates
    (now now' s r : Z) (db : Db) (Hwf : db_wf db) :
  let res := create now s r db in
  ContactRequest.sender_id (fst res) = s
  ∧ ContactRequest.recipient_id (fst res) = r
  ∧ ContactRequest.status (fst res) ≠ StRejected
  ∧ findBySenderAndRecipient s r (snd res) = Some (fst res)
  ∧ filter (λ q, ContactRequest.sender_id q = s ∧ ContactRequest.recipient_id q = r)
           (contact_requests (snd res)) = [fst res]
  ∧ create now' s r (snd res) = res
  ∧ db_wf (snd res)
  ∧ contacts (snd res) = contacts db.
Proof.
  destruct Hwf as [Hids Hseq Hpairs Hcontacts Hkeys].
  assert (Hmain :
    let res := create now s r db in
    ContactRequest.sender_id (fst res) = s
    ∧ ContactRequest.recipient_id (fst res) = r
    ∧ ContactRequest.status (fst res) ≠ StRejected
    ∧ fst res ∈ contact_requests (snd res)
    ∧ db_wf (snd res)
    ∧ contacts (snd res) = contacts db).
  { unfold create.
    destruct (findBySenderAndRecipient s r db) as [q|] eqn:Hfind.
    - apply head_filter_Some in Hfind as [Hq [Hs Hr]].
      destruct (decide (ContactRequest.status q = StRejected)) as [Hrej|Hrej]; simpl.
      + split; [done|]. split; [done|]. split; [done|]. split; [|split; [|done]].
        * apply list_elem_of_fmap. exists q. split; [|done]. by rewrite decide_True.
        * split; simpl.
          -- rewrite fmap_key_update; [done|]. intros x. by case_decide.
          -- apply Forall_fmap. eapply Forall_impl; [exact Hseq|].
             intros x Hx. unfold compose. by case_decide.
          -- rewrite fmap_key_update; [done|]. intros x. by case_decide.
          -- done.
          -- done.
      + by repeat split.
    - apply head_filter_None in Hfind. simpl.
      split; [done|]. split; [done|]. split; [done|]. split; [|split; [|done]].
      + apply elem_of_app. right. left.
      + split; simpl.
        * rewrite fmap_app. apply NoDup_app. split; [done|]. split; [|apply NoDup_singleton].
          intros i Hi Hi'. apply list_elem_of_singleton in Hi'. subst i.
          apply list_elem_of_fmap in Hi as (x & Hid & Hx).
          rewrite Forall_forall in Hseq. specialize (Hseq x Hx). simpl in Hid. lia.
        * apply Forall_app. split.
          -- eapply Forall_impl; [exact Hseq|]. simpl. intros; lia.
          -- constructor; [simpl; lia|done].
        * rewrite fmap_app. apply NoDup_app. split; [done|]. split; [|apply NoDup_singleton].
          intros p Hp Hp'. apply list_elem_of_singleton in Hp'. subst p.
          apply list_elem_of_fmap in Hp as (x & Hpair & Hx).
          rewrite Forall_forall in Hfind. apply (Hfind x Hx).
          unfold request_pair in Hpair. simpl in Hpair. by injection Hpair as <- <-.
        * done.
        * done. }
  simpl in Hmain. destruct Hmain as (Hs & Hr & Hst & Hin & Hwf' & Hc).
  simpl. split; [done|]. split; [done|]. split; [done|].
  assert (Hfind' : findBySenderAndRecipient s r (snd (create now s r db))
                   = Some (fst (create now s r db))).
  { pose proof (findBySenderAndRecipient_unique _ _ (wf_request_pairs _ Hwf') Hin) as Hf.
    by rewrite Hs, Hr in Hf. }
  split; [done|]. split; [|split; [|done]].
  - rewrite filter_request_pair.
    pose proof (filter_unique_singleton request_pair _ _ (wf_request_pairs _ Hwf') Hin)
      as Hf.
    rewrite <- Hf. apply list_filter_iff. intros q.
    unfold request_pair. simpl. by rewrite Hs, Hr.
  - unfold create at 1. rewrite Hfind'.
    rewrite decide_False by done. by destruct (create now s r db).
Qed.

End ContactRequests.

Lemma db_wf_two_users : db_wf two_users.
Proof. split; simpl; try apply NoDup_nil_2. constructor. Defined.

Lemma create_never_duplicates_witness :
  ContactRequestModel.create 20 1 2 (snd (ContactRequestModel.create 10 1 2 two_users))
  = ContactRequestModel.create 10 1 2 two_users.
Proof.
  exact (proj1 (proj2 (proj2 (proj2 (proj2 (proj2
           (create_never_duplicates 10 20 1 2 two_users db_wf_two_users))))))).
Defined.

Section Accepting.
Import ContactRequestModel.

Lemma filter_contact_pair (u v : Z) (l : list Contact.t) :
  filter (λ c, Contact.user_id c = u ∧ Contact.contact_id c = v) l
  = filter (λ c, contact_pair c = (u, v)) l.
Proof.
  apply list_filter_iff. intros c. unfold contact_pair. split.
  - by intros [-> ->].
  - by intros [= -> ->].
Qed.

Lemma filter_nonempty {A} (P : A → Prop) `{!∀ x, Decision (P x)} (l : list A) :
  (0 < length (filter P l))%nat ↔ ∃ x, x ∈ l ∧ P x.
Proof.
  split.
  - destruct (filter P l) as [|x k] eqn:Hf; simpl; [lia|]. intros _.
    exists x. assert (Hx : x ∈ filter P l) by (rewrite Hf; left).
    apply list_elem_of_filter in Hx. tauto.
  - intros (x & Hx & HP).
    assert (Hin : x ∈ filter P l) by (by apply list_elem_of_filter).
    destruct (filter P l); [by apply not_elem_of_nil in Hin|simpl; lia].
Qed.

Lemma insert_contact_spec (now u v : Z) (db : Db) :
  contact_requests (insert_contact now u v db) = contact_requests db
  ∧ contact_requests_id_seq (insert_contact now u v db) = contact_requests_id_seq db
  ∧ users (insert_contact now u v db) = users db
  ∧ user_keys (insert_contact now u v db) = user_keys db
  ∧ (∃ c, c ∈ contacts (insert_contact now u v db) ∧ contact_pair c = (u, v))
  ∧ (∀ c, c ∈ contacts db → c ∈ contacts (insert_contact now u v db))
  ∧ (NoDup (contact_pair <$> contacts db) →
     NoDup (contact_pair <$> contacts (insert_contact now u v db)))
  ∧ ((∃ c, c ∈ contacts db ∧ contact_pair c = (u, v)) →
     contacts (insert_contact now u v db) = contacts db).
Proof.
  unfold insert_contact. case_decide as Hex; simpl.
  - apply filter_nonempty in Hex as (c & Hc & Hu & Hv).
    repeat split; try done. exists c. split; [done|]. unfold contact_pair. by rewrite Hu, Hv.
  - repeat split; try done.
    + eexists. split; [apply elem_of_app; right; left|done].
    + intros c Hc. apply elem_of_app. by left.
    + intros Hnd. rewrite fmap_app. apply NoDup_app.
      split; [done|]. split; [|apply NoDup_singleton].
      intros p Hp Hp'. apply list_elem_of_singleton in Hp'. subst p.
      apply list_elem_of_fmap in Hp as (c & Hpair & Hc).
      apply Hex, filter_nonempty. exists c. split; [done|].
      unfold contact_pair in Hpair. simpl in Hpair. by injection Hpair as <- <-.
    + intros (c & Hc & Hpair). exfalso. apply Hex, filter_nonempty.
      exists c. split; [done|]. unfold contact_pair in Hpair. by injection Hpair as -> ->.
Qed.

Lemma accept_lookup (rid uid : Z) (db : Db) (q : ContactRequest.t) :
  NoDup (ContactRequest.id <$> contact_requests db) →
  q ∈ contact_requests db → ContactRequest.id q = rid →
  ContactRequest.recipient_id q = uid →
  head (filter (λ q, ContactRequest.id q = rid ∧ ContactRequest.recipient_id q = uid)
               (contact_requests db)) = Some q.
Proof.
  intros Hnd Hq Hid Hr.
  destruct (head (filter _ (contact_requests db))) as [q'|] eqn:Hh.
  - apply head_filter_Some in Hh as [Hq' [Hid' _]]. f_equal.
    apply (NoDup_fmap_elem_inj ContactRequest.id (contact_requests db)); try done.
    congruence.
  - apply head_filter_None in Hh. rewrite Forall_forall in Hh. by destruct (Hh q Hq).
Qed.

(** Accepting a request as its recipient answers 200, sets the request to
    accepted and makes the two users contacts of each other, whatever the
    status of the request was; contacts that existed stay, the constraints of
    the schema keep holding, and accepting the same request again succeeds
    without adding a contact. *)
Theorem acceptRequest_makes_mutual_contacts
    (now now' rid uid : Z) (db : Db) (q : ContactRequest.t)
    (Hwf : db_wf db)
    (Hq : q ∈ contact_requests db)
    (Hid : ContactRequest.id q = rid)
    (Hrecipient : ContactRequest.recipient_id q = uid) :
  ∃ db',
    acceptRequest now rid uid db = Returned true db'
    ∧ ContactRequestController.acceptRequest uid rid now db
      = (mkContactResponse 200 (CbSuccess "Contact request accepted successfully"), db')
    ∧ findById rid db' = Some (set_status StAccepted now q)
    ∧ (∃ c, c ∈ contacts db' ∧ contact_pair c = (uid, ContactRequest.sender_id q))
    ∧ (∃ c, c ∈ contacts db' ∧ contact_pair c = (ContactRequest.sender_id q, uid))
    ∧ (∀ c, c ∈ contacts db → c ∈ contacts db')
    ∧ db_wf db'
    ∧ ∃ db'', acceptRequest now' rid uid db' = Returned true db''
              ∧ contacts db'' = contacts db'.
Proof.
  destruct Hwf as [Hids Hseq Hpairs Hcontacts Hkeys].
  pose proof (accept_lookup rid uid db q Hids Hq Hid Hrecipient) as Hlook.
  unfold ContactRequestController.acceptRequest, acceptRequest. rewrite Hlook.
  set (db1 := with_contact_requests _ _ db).
  set (db2 := insert_contact now (ContactRequest.recipient_id q)
                             (ContactRequest.sender_id q) db1).
  set (db3 := insert_contact now (ContactRequest.sender_id q)
                             (ContactRequest.recipient_id q) db2).
  destruct (insert_contact_spec now (ContactRequest.recipient_id q)
              (ContactRequest.sender_id q) db1) as (Hr2 & Hs2 & _ & Hk2 & Hin2 & Hkeep2 & Hnd2 & _).
  destruct (insert_contact_spec now (ContactRequest.sender_id q)
              (ContactRequest.recipient_id q) db2)
    as (Hr3 & Hs3 & _ & Hk3 & Hin3 & Hkeep3 & Hnd3 & Hsame3).
  fold db2 in Hr2, Hs2, Hk2, Hin2, Hkeep2, Hnd2.
  fold db3 in Hr3, Hs3, Hk3, Hin3, Hkeep3, Hnd3, Hsame3.
  assert (Hrows3 : contact_requests db3
                   = (λ x, if decide (ContactRequest.id x = rid)
                           then set_status StAccepted now x else x)
                       <$> contact_requests db) by (by rewrite Hr3, Hr2).
  assert (Hq3 : set_status StAccepted now q ∈ contact_requests db3).
  { rewrite Hrows3. apply list_elem_of_fmap. exists q. split; [|done].
    by rewrite decide_True. }
  assert (Hwf3 : db_wf db3).
  { split.
    - rewrite Hrows3, fmap_key_update; [done|]. intros x. by case_decide.
    - rewrite Hrows3, Hs3, Hs2. apply Forall_fmap.
      eapply Forall_impl; [exact Hseq|]. intros x Hx. unfold compose. by case_decide.
    - rewrite Hrows3, fmap_key_update; [done|]. intros x. by case_decide.
    - by apply Hnd3, Hnd2.
    - by rewrite Hk3, Hk2. }
  exists db3. split; [done|]. split; [done|]. split; [|split; [|split; [|split; [|split]]]].
  - unfold findById. rewrite Hrows3.
    rewrite (head_filter_fmap (λ x, ContactRequest.id x = rid))
      by (intros x; by case_decide).
    rewrite <- Hid.
    rewrite (head_filter_unique ContactRequest.id (contact_requests db) q Hids Hq).
    simpl. by rewrite decide_True.
  - destruct Hin2 as (c & Hc & Hpair). exists c. split; [by apply Hkeep3|].
    by rewrite Hpair, Hrecipient.
  - destruct Hin3 as (c & Hc & Hpair). exists c. split; [done|].
    by rewrite Hpair, Hrecipient.
  - intros c Hc. by apply Hkeep3, Hkeep2.
  - done.
  - assert (Hlook3 : head (filter (λ x, ContactRequest.id x = rid
                                        ∧ ContactRequest.recipient_id x = uid)
                                  (contact_requests db3))
                     = Some (set_status StAccepted now q)).
    { apply accept_lookup; [apply Hwf3|done|done|done]. }
    rewrite Hlook3. simpl.
    set (db4 := with_contact_requests _ _ db3).
    destruct (insert_contact_spec now' (ContactRequest.recipient_id q)
                (ContactRequest.sender_id q) db4) as (_ & _ & _ & _ & _ & _ & _ & Hsame5).
    set (db5 := insert_contact now' (ContactRequest.recipient_id q)
                               (ContactRequest.sender_id q) db4) in *.
    destruct (insert_contact_spec now' (ContactRequest.sender_id q)
                (ContactRequest.recipient_id q) db5) as (_ & _ & _ & _ & _ & _ & _ & Hsame6).
    eexists. split; [done|].
    rewrite Hsame6.
    + rewrite Hsame5; [done|].
      destruct Hin2 as (c & Hc & Hpair). exists c. split; [by apply Hkeep3|done].
    + rewrite Hsame5.
      * destruct Hin3 as (c & Hc & Hpair). by exists c.
      * destruct Hin2 as (c & Hc & Hpair). exists c. split; [by apply Hkeep3|done].
Qed.

(** For a request id that parses to a number, [acceptRequest] of the
    controller answers 200 or 500 and nothing else: when no request has this
    id with this user as recipient, the model throws inside its transaction,
    the database stays as it was, and the answer is 500; the 404 answer of
    the controller is never given. *)
Theorem acceptRequest_answers_200_or_500 (uid rid now : Z) (db : Db) :
  let res := ContactRequestController.acceptRequest uid rid now db in
  (cr_status (fst res) = 200 ∨ cr_status (fst res) = 500)
  ∧ (cr_status (fst res) = 500
     ↔ Forall (λ q, ¬ (ContactRequest.id q = rid ∧ ContactRequest.recipient_id q = uid))
              (contact_requests db))
  ∧ (cr_status (fst res) = 500 → snd res = db).
Proof.
  simpl. unfold ContactRequestController.acceptRequest, acceptRequest.
  destruct (head (filter _ (contact_requests db))) as [q|] eqn:Hh; simpl.
  - split; [by left|]. split; [|done]. split; [done|].
    intros Hall. apply head_filter_Some in Hh as [Hq HP].
    rewrite Forall_forall in Hall. by destruct (Hall q Hq).
  - split; [by right|]. split; [|done]. split; [|done].
    intros _. by apply head_filter_None in Hh.
Qed.

End Accepting.

Lemma db_wf_requested_1_2 : db_wf requested_1_2.
Proof.
  split; vm_compute.
  - apply NoDup_singleton.
  - by repeat constructor.
  - apply NoDup_singleton.
  - apply NoDup_nil_2.
  - apply NoDup_nil_2.
Qed.

Lemma acceptRequest_makes_mutual_contacts_witness :
  ∃ db',
    ContactRequestModel.acceptRequest 20 1 2 requested_1_2 = Returned true db'
    ∧ ContactRequestController.acceptRequest 2 1 20 requested_1_2
      = (mkContactResponse 200 (CbSuccess "Contact request accepted successfully"), db')
    ∧ ContactRequestModel.findById 1 db'
      = Some (ContactRequest.mk 1 1 2 StAccepted 10 20)
    ∧ (∃ c, c ∈ contacts db' ∧ contact_pair c = (2, 1))
    ∧ (∃ c, c ∈ contacts db' ∧ contact_pair c = (1, 2))
    ∧ (∀ c, c ∈ contacts requested_1_2 → c ∈ contacts db')
    ∧ db_wf db'
    ∧ ∃ db'', ContactRequestModel.acceptRequest 30 1 2 db' = Returned true db''
              ∧ contacts db'' = contacts db'.
Proof.
  apply (acceptRequest_makes_mutual_contacts 20 30 1 2 requested_1_2
           (ContactRequest.mk 1 1 2 StPending 10 10) db_wf_requested_1_2).
  - simpl. left.
  - reflexivity.
  - reflexivity.
Defined.

Section RejectCancel.
Import ContactRequestModel.

Lemma unchanged_requests (rs : list ContactRequest.t) (P : ContactRequest.t → Prop)
    `{!∀ q, Decision (P q)} (g : ContactRequest.t → ContactRequest.t) :
  ¬ (0 < length (filter P rs))%nat →
  (λ q, if decide (P q) then g q else q) <$> rs = rs
  ∧ filter (λ q, ¬ P q) rs = rs.
Proof.
  intros Hnone. split.
  - transitivity (Datatypes.id <$> rs); [|by rewrite list_fmap_id].
    apply list_fmap_ext. intros i q Hi. simpl.
    rewrite decide_False; [done|]. intros HP. apply Hnone, filter_nonempty.
    exists q. split; [by eapply list_elem_of_lookup_2|done].
  - apply filter_all. intros q Hq HP. apply Hnone, filter_nonempty. by exists q.
Qed.

Lemma with_contact_requests_same (db : Db) :
  with_contact_requests (contact_requests db) (contact_requests_id_seq db) db = db.
Proof. by destruct db. Qed.

(** Only the recipient can reject.  The answer is 200 exactly when the
    request id is in the range of INTEGER and a request with this id is
    addressed to this user; then that request is set to rejected and every
    other request is left as it is.  The answer is 404 when the id is in
    range and no such request exists, and 500 when the id is out of range,
    where the query throws; in both of these cases nothing changes.
    Rejecting never removes a contact, also not for a request that had been
    accepted. *)
Theorem rejectRequest_only_by_recipient (now rid uid : Z) (db : Db) :
  let answer := ContactRequestController.rejectRequest uid rid now db in
  let addressed := ∃ q, q ∈ contact_requests db ∧ ContactRequest.id q = rid
                        ∧ ContactRequest.recipient_id q = uid in
  (rejectRequest now rid uid db = Returned true (snd answer) ↔ int4 rid ∧ addressed)
  ∧ (cr_status (fst answer) = 200 ↔ int4 rid ∧ addressed)
  ∧ (cr_status (fst answer) = 404 ↔ int4 rid ∧ ¬ addressed)
  ∧ (cr_status (fst answer) = 500 ↔ ¬ int4 rid)
  ∧ (cr_status (fst answer) ≠ 200 → snd answer = db)
  ∧ contacts (snd answer) = contacts db
  ∧ Forall2 (λ q q', q' = if decide (int4 rid ∧ ContactRequest.id q = rid
                                     ∧ ContactRequest.recipient_id q = uid)
                          then ContactRequest.mk rid (ContactRequest.sender_id q) uid
                                 StRejected (ContactRequest.created_at q) now
                          else q)
            (contact_requests db) (contact_requests (snd answer)).
Proof.
  intros answer addressed. unfold answer.
  unfold ContactRequestController.rejectRequest, rejectRequest.
  destruct (decide (int4 rid)) as [Hrange|Hrange].
  - destruct (bool_decide _) eqn:Hhit.
    + apply bool_decide_eq_true in Hhit.
      assert (Haddressed : addressed).
      { apply filter_nonempty in Hhit as (q & Hq & Hi & Hr). by exists q. }
      simpl. split_and!; try (by intuition).
      apply Forall2_fmap_r, Forall_Forall2_diag, Forall_forall. intros q _.
      unfold compose. simpl.
      destruct (decide (ContactRequest.id q = rid ∧ ContactRequest.recipient_id q = uid))
        as [[Hi Hr]|Hq].
      * rewrite decide_True by tauto. unfold set_status. by rewrite Hi, Hr.
      * by rewrite decide_False by tauto.
    + apply bool_decide_eq_false in Hhit.
      assert (Hnot : ¬ addressed).
      { intros (q & Hq & Hi & Hr). apply Hhit, filter_nonempty. by exists q. }
      destruct (unchanged_requests (contact_requests db) _ (set_status StRejected now) Hhit)
        as [Hsame _].
      simpl. rewrite Hsame, with_contact_requests_same.
      split_and!; try (by intuition).
      apply Forall_Forall2_diag, Forall_forall. intros q Hq.
      rewrite decide_False; [done|]. intros (_ & Hi & Hr). apply Hnot. by exists q.
  - simpl. split_and!; try (by intuition).
    apply Forall_Forall2_diag, Forall_forall. intros q Hq.
    rewrite decide_False; [done|]. tauto.
Qed.

(** Only the sender can cancel.  The answer is 200 exactly when the request
    id is in the range of INTEGER and a request with this id was sent by
    this user; the rows that stay are the requests that are not that one, in
    table order.  The answer is 404 when the id is in range and no such
    request exists, and 500 when the id is out of range, where the query
    throws; in both of these cases nothing changes.  Contacts are never
    touched. *)
Theorem cancelRequest_only_by_sender (rid uid : Z) (db : Db) :
  let answer := ContactRequestController.cancelRequest uid rid db in
  let sent := ∃ q, q ∈ contact_requests db ∧ ContactRequest.id q = rid
                   ∧ ContactRequest.sender_id q = uid in
  (cancelRequest rid uid db = Returned true (snd answer) ↔ int4 rid ∧ sent)
  ∧ (cr_status (fst answer) = 200 ↔ int4 rid ∧ sent)
  ∧ (cr_status (fst answer) = 404 ↔ int4 rid ∧ ¬ sent)
  ∧ (cr_status (fst answer) = 500 ↔ ¬ int4 rid)
  ∧ (cr_status (fst answer) ≠ 200 → snd answer = db)
  ∧ contacts (snd answer) = contacts db
  ∧ contact_requests (snd answer)
    = filter (λ q, ¬ (int4 rid ∧ ContactRequest.id q = rid
                      ∧ ContactRequest.sender_id q = uid)) (contact_requests db).
Proof.
  intros answer sent. unfold answer.
  unfold ContactRequestController.cancelRequest, cancelRequest.
  destruct (decide (int4 rid)) as [Hrange|Hrange].
  - destruct (bool_decide _) eqn:Hhit.
    + apply bool_decide_eq_true in Hhit.
      assert (Hsent : sent).
      { apply filter_nonempty in Hhit as (q & Hq & Hi & Hr). by exists q. }
      simpl. split_and!; try (by intuition).
      apply list_filter_iff. intros q. tauto.
    + apply bool_decide_eq_false in Hhit.
      assert (Hnot : ¬ sent).
      { intros (q & Hq & Hi & Hr). apply Hhit, filter_nonempty. by exists q. }
      destruct (unchanged_requests (contact_requests db) _ (set_status StRejected 0) Hhit)
        as [_ Hsame].
      simpl. rewrite Hsame, with_contact_requests_same.
      split_and!; try (by intuition).
      symmetry. apply filter_all. intros q Hq (_ & Hi & Hr). apply Hnot. by exists q.
  - simpl. split_and!; try (by intuition).
    symmetry. apply filter_all. intros q Hq. tauto.
Qed.

End RejectCancel.

Section SendRequest.


End SendRequest.

(** ** Contacts *)

Section Contacts.

Lemma elem_of_getUserContacts (u : UserDTO.t) (userId : Z) (db : Db) :
  u ∈ UserModel.getUserContacts userId db
  ↔ u ∈ users db
    ∧ ∃ c, c ∈ contacts db ∧ contact_pair c = (userId, UserDTO.id u).
Proof.
  unfold UserModel.getUserContacts. rewrite list_elem_of_bind. split.
  - intros (c & Hu & Hc). apply list_elem_of_filter in Hu as [Hid Hu].
    apply list_elem_of_filter in Hc as [Huid Hc].
    split; [done|]. exists c. split; [done|]. unfold contact_pair. by rewrite Huid, Hid.
  - intros (Hu & c & Hc & Hpair). unfold contact_pair in Hpair.
    injection Hpair as Huid Hid. exists c. split; by apply list_elem_of_filter.
Qed.

(** No contact request to an existing contact: when the sender already has
    the recipient as a contact, [sendRequest] never answers 200 and leaves
    the database as it is; when the request passes the checks before (a
    recipient other than the sender, who exists and has both keys), the
    answer is 400 'User is already in your contacts'. *)
Theorem sendRequest_to_contact_is_refused
    (senderId recipientId now : Z) (db : Db) (c : Contact.t)
    (Hc : c ∈ contacts db)
    (Hpair : contact_pair c = (senderId, recipientId)) :
  let res := ContactRequestController.sendRequest senderId recipientId now db in
  cr_status (fst res) ≠ 200 ∧ snd res = db
  ∧ (recipientId ≠ 0 → recipientId ≠ senderId →
     (∃ u, UserModel.findById recipientId db = Returned (Some u) db) →
     KeyModel.hasRequiredKeys recipientId db = true →
     fst res = mkContactResponse 400 (CbFailure "User is already in your contacts")).
Proof.
  simpl. unfold ContactRequestController.sendRequest.
  destruct (recipientId =? 0) eqn:H0;
    [by split_and!; try done; intros Hne; apply Z.eqb_eq in H0|].
  unfold UserModel.findById. case_decide as Hrange; [|by split_and!; try done; intros _ _ [u ?]].
  destruct (head (filter _ (users db))) as [u|] eqn:Hu;
    [|by split_and!; try done; intros _ _ [u ?]].
  destruct (recipientId =? senderId) eqn:Hself;
    [by split_and!; try done; intros _ Hne; apply Z.eqb_eq in Hself|].
  destruct (KeyModel.hasRequiredKeys recipientId db) eqn:Hkeys;
    [|by split_and!; try done; intros _ _ _ ?]. simpl.
  rewrite bool_decide_eq_true_2; [done|].
  apply head_filter_Some in Hu as [Hu Hid].
  apply Exists_exists. exists u. split; [|done].
  apply elem_of_getUserContacts. split; [done|]. exists c. by rewrite Hid.
Qed.

(** [addContact] between two users returns true and is idempotent:
    afterwards the pair is in [contacts], a second call changes nothing, the
    contact is listed by [getUserContacts], earlier contacts stay, and the
    UNIQUE constraint keeps holding.  For a pair that is not in [contacts]
    and an id that is not a user, the call throws and adds no row. *)
Theorem addContact_is_idempotent (now now' userId contactId : Z) (db : Db)
    (Hwf : db_wf db) :
  let both_users := userId ∈ UserDTO.id <$> users db
                    ∧ contactId ∈ UserDTO.id <$> users db in
  let is_contact := ∃ c, c ∈ contacts db ∧ contact_pair c = (userId, contactId) in
  (both_users ∨ is_contact →
   ∃ db', UserModel.addContact now userId contactId db = Returned true db'
          ∧ (∃ c, c ∈ contacts db' ∧ contact_pair c = (userId, contactId))
          ∧ UserModel.addContact now' userId contactId db' = Returned true db'
          ∧ (∀ c, c ∈ contacts db → c ∈ contacts db')
          ∧ (∀ u, u ∈ users db → UserDTO.id u = contactId →
                  u ∈ UserModel.getUserContacts userId db')
          ∧ db_wf db')
  ∧ (¬ both_users → ¬ is_contact →
     ∃ message db', UserModel.addContact now userId contactId db = Thrown message db'
                    ∧ contacts db' = contacts db ∧ users db' = users db
                    ∧ contacts_id_seq db'
                      = if decide (int4 userId ∧ int4 contactId)
                        then contacts_id_seq db + 1 else contacts_id_seq db).
Proof.
  destruct Hwf as [Hids Hseq Hpairs Hcontacts Hkeys]. intros both_users is_contact.
  assert (Hexists : (0 < length (filter (λ c, Contact.user_id c = userId
                                              ∧ Contact.contact_id c = contactId)
                                        (contacts db)))%nat ↔ is_contact).
  { rewrite filter_nonempty. unfold is_contact, contact_pair. split.
    - intros (c & Hc & Hu & Hv). exists c. split; [done|]. by rewrite Hu, Hv.
    - intros (c & Hc & [= Hu Hv]). by exists c. }
  split.
  - intros Hok.
    assert (Hmain :
      ∃ db', UserModel.addContact now userId contactId db = Returned true db'
             ∧ (∃ c, c ∈ contacts db' ∧ contact_pair c = (userId, contactId))
             ∧ (∀ c, c ∈ contacts db → c ∈ contacts db')
             ∧ users db' = users db
             ∧ db_wf db').
    { unfold UserModel.addContact. case_decide as Hex.
      - exists db. apply Hexists in Hex. by split_and!.
      - rewrite decide_True by (destruct Hok as [?|Hcontact]; [done|by apply Hexists in Hcontact]).
        eexists. split; [done|]. simpl. split_and!.
        + eexists. split; [apply elem_of_app; right; left|done].
        + intros c Hc. apply elem_of_app. by left.
        + done.
        + split; simpl; try done.
          rewrite fmap_app. apply NoDup_app. split; [done|]. split; [|apply NoDup_singleton].
          intros p Hp Hp'. apply list_elem_of_singleton in Hp'. subst p.
          apply list_elem_of_fmap in Hp as (c & Hpair & Hc).
          apply Hex, Hexists. exists c. split; [done|]. by rewrite <- Hpair. }
    destruct Hmain as (db' & Hadd & (c & Hc & Hpair) & Hkeep & Husers & Hwf').
    exists db'. split; [done|]. split; [by exists c|].
    split; [|split; [done|split; [|done]]].
    + unfold UserModel.addContact. rewrite decide_True; [done|].
      apply filter_nonempty. exists c. split; [done|].
      unfold contact_pair in Hpair. by injection Hpair as -> ->.
    + intros u Hu Hid. apply elem_of_getUserContacts. rewrite Husers.
      split; [done|]. exists c. by rewrite Hid.
  - intros Hno Hnew. unfold UserModel.addContact.
    rewrite decide_False by (by rewrite Hexists).
    rewrite decide_False by done.
    case_decide; eexists _, _; by split_and!.
Qed.

End Contacts.

Lemma addContact_is_idempotent_witness :
  ∃ db', UserModel.addContact 20 1 2 two_users = Returned true db'
         ∧ UserModel.addContact 30 1 2 db' = Returned true db'
         ∧ contact_pair <$> contacts db' = [(1, 2)].
Proof.
  pose proof (addContact_is_idempotent 20 30 1 2 two_users db_wf_two_users) as Hadd.
  cbv zeta in Hadd. destruct Hadd as [Hadd _].
  destruct Hadd as (db' & Hfirst & _ & Hsecond & _).
  - left. split; by_decide.
  - exists db'. split; [exact Hfirst|]. split; [exact Hsecond|].
    injection Hfirst as <-. reflexivity.
Defined.

Lemma bob_is_contact_has_contact :
  Contact.mk 1 1 2 20 ∈ contacts bob_is_contact.
Proof. vm_compute. left. Qed.

Lemma sendRequest_to_contact_is_refused_witness :
  cr_status (fst (ContactRequestController.sendRequest 1 2 30 bob_has_keys)) = 200
  ∧ fst (ContactRequestController.sendRequest 1 2 30 bob_is_contact)
    = mkContactResponse 400 (CbFailure "User is already in your contacts")
  ∧ snd (ContactRequestController.sendRequest 1 2 30 bob_is_contact) = bob_is_contact.
Proof.
  split; [reflexivity|].
  pose proof (sendRequest_to_contact_is_refused 1 2 30 bob_is_contact
                (Contact.mk 1 1 2 20) bob_is_contact_has_contact eq_refl) as Hrefused.
  cbv zeta in Hrefused. destruct Hrefused as (_ & Hsame & Hanswer).
  split; [|exact Hsame].
  apply Hanswer.
  - discriminate.
  - discriminate.
  - by eexists.
  - reflexivity.
Defined.

(** ** Keys *)

Lemma two_distinct_elements {A} (l : list A) (x y : A) :
  x ∈ l → y ∈ l → x ≠ y → (2 ≤ length l)%nat.
Proof.
  intros Hx Hy Hne. destruct l as [|a [|b l]]; simpl; [| |lia].
  - by apply not_elem_of_nil in Hx.
  - apply list_elem_of_singleton in Hx. apply list_elem_of_singleton in Hy. congruence.
Qed.

Lemma key_types_of_user (userId : Z) (ty : string) (db : Db) :
  ty ∈ UserKey.key_type <$> filter (λ k, UserKey.user_id k = userId) (user_keys db)
  ↔ ∃ k, k ∈ user_keys db ∧ key_pair k = (userId, ty).
Proof.
  rewrite list_elem_of_fmap. split.
  - intros (k & -> & Hk). apply list_elem_of_filter in Hk as [Hu Hk].
    exists k. split; [done|]. unfold key_pair. by rewrite Hu.
  - intros (k & Hk & Hpair). unfold key_pair in Hpair. injection Hpair as Hu Hty.
    exists k. split; [done|]. by apply list_elem_of_filter.
Qed.

Lemma hasRequiredKeys_intro (userId : Z) (db : Db) (k1 k2 : UserKey.t) :
  k1 ∈ user_keys db → key_pair k1 = (userId, "ecdh") →
  k2 ∈ user_keys db → key_pair k2 = (userId, "ed25519") →
  KeyModel.hasRequiredKeys userId db = true.
Proof.
  intros Hk1 Hp1 Hk2 Hp2.
  assert (He : "ecdh" ∈ UserKey.key_type
                 <$> filter (λ k, UserKey.user_id k = userId) (user_keys db))
    by (apply key_types_of_user; by exists k1).
  assert (Hd : "ed25519" ∈ UserKey.key_type
                 <$> filter (λ k, UserKey.user_id k = userId) (user_keys db))
    by (apply key_types_of_user; by exists k2).
  unfold KeyModel.hasRequiredKeys. case_decide as Hlen.
  - pose proof (two_distinct_elements _ _ _ He Hd ltac:(done)). lia.
  - by rewrite !bool_decide_eq_true_2.
Qed.

Section Keys.
Variable signPublicKey : string → string.

(** [hasRequiredKeys] is true exactly when the user has a key row of type
    'ecdh' and a key row of type 'ed25519'; the row count it checks first
    never decides otherwise. *)
Theorem hasRequiredKeys_iff (userId : Z) (db : Db) :
  KeyModel.hasRequiredKeys userId db = true
  ↔ (∃ k, k ∈ user_keys db ∧ key_pair k = (userId, "ecdh"))
    ∧ (∃ k, k ∈ user_keys db ∧ key_pair k = (userId, "ed25519")).
Proof.
  split.
  - unfold KeyModel.hasRequiredKeys. rewrite <- !key_types_of_user.
    case_decide as Hlen; [done|].
    by rewrite andb_true_iff, !bool_decide_eq_true.
  - intros [(k1 & Hk1 & Hp1) (k2 & Hk2 & Hp2)].
    by apply (hasRequiredKeys_intro userId db k1 k2).
Qed.

Lemma filter_key_pair (u : Z) (ty : string) (l : list UserKey.t) :
  filter (λ k, UserKey.user_id k = u ∧ UserKey.key_type k = ty) l
  = filter (λ k, key_pair k = (u, ty)) l.
Proof.
  apply list_filter_iff. intros k. unfold key_pair. split.
  - by intros [-> ->].
  - by intros [= -> ->].
Qed.

(** Insert and lookup: after [storeKey] the lookup by user and type finds
    the returned row, which carries the given public key and its signature;
    an existing key of that user and type is replaced in place (same id),
    keys of other users or types are untouched, and there is still at most
    one key per user and type. *)
Theorem storeKey_then_getKey
    (now userId : Z) (publicKey keyType : string) (db : Db) (Hwf : db_wf db) :
  let res := KeyModel.storeKey signPublicKey now userId publicKey keyType db in
  KeyModel.getKey userId keyType (snd res) = Some (fst res)
  ∧ UserKey.public_key (fst res) = publicKey
  ∧ UserKey.signed_key (fst res) = signPublicKey publicKey
  ∧ key_pair (fst res) = (userId, keyType)
  ∧ (∀ k0, KeyModel.getKey userId keyType db = Some k0 →
           UserKey.id (fst res) = UserKey.id k0
           ∧ length (user_keys (snd res)) = length (user_keys db))
  ∧ (∀ k, k ∈ user_keys db → key_pair k ≠ (userId, keyType) → k ∈ user_keys (snd res))
  ∧ db_wf (snd res).
Proof.
  destruct Hwf as [Hids Hseq Hpairs Hcontacts Hkeys].
  assert (Hmain :
    let res := KeyModel.storeKey signPublicKey now userId publicKey keyType db in
    fst res ∈ user_keys (snd res)
    ∧ UserKey.public_key (fst res) = publicKey
    ∧ UserKey.signed_key (fst res) = signPublicKey publicKey
    ∧ key_pair (fst res) = (userId, keyType)
    ∧ (∀ k0, KeyModel.getKey userId keyType db = Some k0 →
             UserKey.id (fst res) = UserKey.id k0
             ∧ length (user_keys (snd res)) = length (user_keys db))
    ∧ (∀ k, k ∈ user_keys db → key_pair k ≠ (userId, keyType) → k ∈ user_keys (snd res))
    ∧ db_wf (snd res)).
  { unfold KeyModel.storeKey.
    destruct (KeyModel.getKey userId keyType db) as [k0|] eqn:Hget; simpl.
    - apply head_filter_Some in Hget as [Hk0 [Hu Hty]].
      split; [|split; [done|split; [done|split; [|split; [|split]]]]].
      + apply list_elem_of_fmap. exists k0. split; [|done]. by rewrite decide_True.
      + unfold key_pair. simpl. by rewrite Hu, Hty.
      + intros k [= <-]. split; [done|]. by rewrite length_fmap.
      + intros k Hk Hne. apply list_elem_of_fmap. exists k. split; [|done].
        rewrite decide_False; [done|]. intros [Hu' Hty']. apply Hne.
        unfold key_pair. by rewrite Hu', Hty'.
      + split; simpl; try done.
        rewrite fmap_key_update; [done|]. intros k. by case_decide.
    - apply head_filter_None in Hget.
      split; [|split; [done|split; [done|split; [done|split; [done|split]]]]].
      + apply elem_of_app. right. left.
      + intros k Hk _. apply elem_of_app. by left.
      + split; simpl; try done.
        rewrite fmap_app. apply NoDup_app. split; [done|]. split; [|apply NoDup_singleton].
        intros p Hp Hp'. apply list_elem_of_singleton in Hp'. subst p.
        apply list_elem_of_fmap in Hp as (k & Hpair & Hk).
        rewrite Forall_forall in Hget. apply (Hget k Hk).
        unfold key_pair in Hpair. simpl in Hpair. by injection Hpair as <- <-. }
  simpl in Hmain. destruct Hmain as (Hin & Hpk & Hsk & Hpair & Hold & Hkeep & Hwf').
  simpl. split; [|done].
  unfold KeyModel.getKey. rewrite filter_key_pair, <- Hpair.
  apply (head_filter_unique key_pair); [apply Hwf'|done].
Qed.

(** Publishing an 'ecdh' key and then an 'ed25519' key for a user makes
    [hasRequiredKeys] true for that user; a [publishKey] with an empty key,
    an empty type or any other type answers 400 and stores nothing. *)
Theorem publishing_both_keys_suffices
    (userId now now' : Z) (pk1 pk2 ty : string) (db : Db) :
  KeyModel.hasRequiredKeys userId
    (snd (KeyModel.storeKey signPublicKey now' userId pk2 "ed25519"
            (snd (KeyModel.storeKey signPublicKey now userId pk1 "ecdh" db)))) = true
  ∧ (pk1 ≠ "" →
     KeyController.publishKey signPublicKey userId pk1 "ecdh" now db
     = (mkContactResponse 200
          (CbKey (UserKey.id (fst (KeyModel.storeKey signPublicKey now userId pk1 "ecdh" db)))
                 pk1 (signPublicKey pk1) "ecdh" "Key published successfully"),
        snd (KeyModel.storeKey signPublicKey now userId pk1 "ecdh" db)))
  ∧ (pk1 = "" ∨ (ty ≠ "ecdh" ∧ ty ≠ "ed25519") →
     cr_status (fst (KeyController.publishKey signPublicKey userId pk1 ty now db)) = 400
     ∧ snd (KeyController.publishKey signPublicKey userId pk1 ty now db) = db).
Proof.
  assert (Hstored : ∀ n u pk t d,
            (∃ k, k ∈ user_keys (snd (KeyModel.storeKey signPublicKey n u pk t d))
                  ∧ key_pair k = (u, t))
            ∧ ∀ k, k ∈ user_keys d → key_pair k ≠ (u, t) →
                   k ∈ user_keys (snd (KeyModel.storeKey signPublicKey n u pk t d))).
  { intros n u pk t d. unfold KeyModel.storeKey.
    destruct (KeyModel.getKey u t d) as [k0|] eqn:Hget; simpl.
    - apply head_filter_Some in Hget as [Hk0 [Hu Hty]]. split.
      + exists (KeyModel.set_key pk (signPublicKey pk) n k0). split.
        * apply list_elem_of_fmap. exists k0. split; [|done]. by rewrite decide_True.
        * unfold key_pair. simpl. by rewrite Hu, Hty.
      + intros k Hk Hne. apply list_elem_of_fmap. exists k. split; [|done].
        rewrite decide_False; [done|]. intros [Hu' Hty']. apply Hne.
        unfold key_pair. by rewrite Hu', Hty'.
    - split.
      + eexists. split; [apply elem_of_app; right; left|done].
      + intros k Hk _. apply elem_of_app. by left. }
  split; [|split].
  - destruct (Hstored now userId pk1 "ecdh" db) as [(k1 & Hk1 & Hp1) _].
    destruct (Hstored now' userId pk2 "ed25519"
                (snd (KeyModel.storeKey signPublicKey now userId pk1 "ecdh" db)))
      as [(k2 & Hk2 & Hp2) Hkeep].
    apply (hasRequiredKeys_intro _ _ k1 k2); try done.
    apply Hkeep; [done|]. rewrite Hp1. by intros [=].
  - intros Hpk. unfold KeyController.publishKey.
    apply String.eqb_neq in Hpk. rewrite Hpk. simpl.
    unfold KeyModel.storeKey.
    destruct (KeyModel.getKey userId "ecdh" db) as [k0|] eqn:Hget; simpl; [|done].
    apply head_filter_Some in Hget as [_ [_ Hty]]. by rewrite Hty.
  - intros Hbad. unfold KeyController.publishKey.
    destruct (String.eqb pk1 "") eqn:Hpk; [done|]. simpl.
    destruct (String.eqb ty "") eqn:Hty; [done|].
    destruct Hbad as [->|[He Hd]]; [done|].
    apply String.eqb_neq in He. apply String.eqb_neq in Hd. by rewrite He, Hd.
Qed.

End Keys.

Lemma storeKey_then_getKey_witness :
  let sign := String.append "signed:" in
  let res := KeyModel.storeKey sign 20 1 "pk" "ecdh" two_users in
  KeyModel.getKey 1 "ecdh" (snd res) = Some (fst res)
  ∧ UserKey.signed_key (fst res) = "signed:pk".
Proof.
  pose proof (storeKey_then_getKey (String.append "signed:") 20 1 "pk" "ecdh"
                two_users db_wf_two_users) as Hstore.
  simpl in Hstore. destruct Hstore as (Hget & _ & Hsigned & _).
  split; [exact Hget|exact Hsigned].
Defined.

(** ** The lists of pending and sent requests *)

Section RequestLists.
Import ContactRequestModel.

Lemma elem_of_getPendingRequests (d : ContactRequestDTO) (userId : Z) (db : Db) :
  d ∈ getPendingRequests userId db
  ↔ ∃ q u, d = mkRequestDTO q (Some u) None
           ∧ q ∈ contact_requests db
           ∧ ContactRequest.recipient_id q = userId
           ∧ ContactRequest.status q = StPending
           ∧ u ∈ users db ∧ UserDTO.id u = ContactRequest.sender_id q.
Proof.
  unfold getPendingRequests. rewrite list_elem_of_bind. split.
  - intros (q & Hd & Hq). apply list_elem_of_fmap in Hd as (u & -> & Hu).
    apply list_elem_of_filter in Hu as [Hid Hu].
    apply list_elem_of_filter in Hq as [[Hr Hst] Hq]. by exists q, u.
  - intros (q & u & -> & Hq & Hr & Hst & Hu & Hid). exists q. split.
    + apply list_elem_of_fmap. exists u. split; [done|]. by apply list_elem_of_filter.
    + by apply list_elem_of_filter.
Qed.

Lemma elem_of_getSentRequests (d : ContactRequestDTO) (userId : Z) (db : Db) :
  d ∈ getSentRequests userId db
  ↔ ∃ q u, d = mkRequestDTO q None (Some u)
           ∧ q ∈ contact_requests db
           ∧ ContactRequest.sender_id q = userId
           ∧ u ∈ users db ∧ UserDTO.id u = ContactRequest.recipient_id q.
Proof.
  unfold getSentRequests. rewrite list_elem_of_bind. split.
  - intros (q & Hd & Hq). apply list_elem_of_fmap in Hd as (u & -> & Hu).
    apply list_elem_of_filter in Hu as [Hid Hu].
    apply list_elem_of_filter in Hq as [Hs Hq]. by exists q, u.
  - intros (q & u & -> & Hq & Hs & Hu & Hid). exists q. split.
    + apply list_elem_of_fmap. exists u. split; [done|]. by apply list_elem_of_filter.
    + by apply list_elem_of_filter.
Qed.

(** A request made by [create] is listed: it is among the sender's sent
    requests, and, when it is pending (always so for a new pair and for a pair
    whose request had been rejected, which keeps its id), among the recipient's
    pending requests, each joined with the other user's row. *)
Theorem created_request_is_listed
    (now s r : Z) (db : Db) (us ur : UserDTO.t)
    (Hus : us ∈ users db) (Hs : UserDTO.id us = s)
    (Hur : ur ∈ users db) (Hr : UserDTO.id ur = r) :
  let res := create now s r db in
  mkRequestDTO (fst res) None (Some ur) ∈ getSentRequests s (snd res)
  ∧ (ContactRequest.status (fst res) = StPending →
     mkRequestDTO (fst res) (Some us) None ∈ getPendingRequests r (snd res))
  ∧ (findBySenderAndRecipient s r db = None → ContactRequest.status (fst res) = StPending)
  ∧ (∀ q, findBySenderAndRecipient s r db = Some q →
          ContactRequest.status q = StRejected →
          ContactRequest.status (fst res) = StPending
          ∧ ContactRequest.id (fst res) = ContactRequest.id q).
Proof.
  assert (Hmain :
    let res := create now s r db in
    fst res ∈ contact_requests (snd res)
    ∧ ContactRequest.sender_id (fst res) = s
    ∧ ContactRequest.recipient_id (fst res) = r
    ∧ users (snd res) = users db).
  { unfold create. destruct (findBySenderAndRecipient s r db) as [q|] eqn:Hfind.
    - apply head_filter_Some in Hfind as [Hq [Hqs Hqr]]. case_decide as Hst; simpl.
      + split; [|done]. apply list_elem_of_fmap. exists q. split; [|done].
        by rewrite decide_True.
      + done.
    - simpl. split; [|done]. apply elem_of_app. right. left. }
  simpl in Hmain. destruct Hmain as (Hin & Hfs & Hfr & Husers). simpl.
  split; [|split; [|split]].
  - apply elem_of_getSentRequests. eexists _, _. split; [done|].
    rewrite Husers, Hfr. done.
  - intros Hst. apply elem_of_getPendingRequests. eexists _, _. split; [done|].
    rewrite Husers, Hfs. done.
  - intros Hnone. unfold create. by rewrite Hnone.
  - intros q Hsome Hst. unfold create. rewrite Hsome. by rewrite decide_True.
Qed.

(** A request that was accepted or rejected is in nobody's list of pending
    requests any more, and a cancelled request is in no list of pending or
    sent requests, given that request ids are unique. *)
Theorem settled_request_leaves_the_lists
    (now rid uid who : Z) (db : Db) (d : ContactRequestDTO)
    (Hwf : db_wf db)
    (Hd : ContactRequest.id (dto_request d) = rid) :
  (∀ db', acceptRequest now rid uid db = Returned true db' →
          d ∉ getPendingRequests who db')
  ∧ (∀ db', rejectRequest now rid uid db = Returned true db' →
          d ∉ getPendingRequests who db')
  ∧ (∀ db', cancelRequest rid uid db = Returned true db' →
          (d ∉ getPendingRequests who db') ∧ (d ∉ getSentRequests who db')).
Proof.
  destruct Hwf as [Hids _ _ _ _]. split; [|split].
  - intros db'. unfold acceptRequest.
    destruct (head _) as [q0|]; [|done]. intros [= <-].
    rewrite elem_of_getPendingRequests. intros (q & u & -> & Hq & _ & Hst & _).
    destruct (insert_contact_spec now (ContactRequest.sender_id q0)
                (ContactRequest.recipient_id q0)
                (insert_contact now (ContactRequest.recipient_id q0)
                   (ContactRequest.sender_id q0)
                   (with_contact_requests
                      ((λ q, if decide (ContactRequest.id q = rid)
                             then set_status StAccepted now q else q)
                         <$> contact_requests db)
                      (contact_requests_id_seq db) db))) as (Hrows & _).
    rewrite Hrows in Hq.
    destruct (insert_contact_spec now (ContactRequest.recipient_id q0)
                (ContactRequest.sender_id q0)
                (with_contact_requests
                   ((λ q, if decide (ContactRequest.id q = rid)
                          then set_status StAccepted now q else q)
                      <$> contact_requests db)
                   (contact_requests_id_seq db) db)) as (Hrows' & _).
    rewrite Hrows' in Hq. simpl in Hq, Hd.
    apply list_elem_of_fmap in Hq as (q1 & -> & Hq1).
    by destruct (decide (ContactRequest.id q1 = rid)) as [Hi|Hi].
  - intros db'. unfold rejectRequest. case_decide as Hrange; [|done].
    intros [= Hhit <-]. revert Hhit. rewrite bool_decide_eq_true, filter_nonempty.
    intros (q1 & Hq1 & Hi1 & Hr1).
    rewrite elem_of_getPendingRequests. intros (q & u & -> & Hq & _ & Hst & _).
    simpl in Hq, Hd. apply list_elem_of_fmap in Hq as (q2 & -> & Hq2).
    assert (q2 = q1) as ->.
    { apply (NoDup_fmap_elem_inj ContactRequest.id (contact_requests db)); try done.
      rewrite Hi1, <- Hd. by case_decide. }
    by rewrite decide_True in Hst.
  - intros db'. unfold cancelRequest. case_decide as Hrange; [|done].
    intros [= Hhit <-]. revert Hhit. rewrite bool_decide_eq_true, filter_nonempty.
    intros (q1 & Hq1 & Hi1 & Hs1).
    assert (Hgone : ∀ q, q ∈ filter (λ q, ¬ (ContactRequest.id q = rid
                                             ∧ ContactRequest.sender_id q = uid))
                                    (contact_requests db) →
                         ContactRequest.id q ≠ rid).
    { intros q Hq Hi. apply list_elem_of_filter in Hq as [Hnot Hq]. apply Hnot.
      assert (q = q1) as ->; [|done].
      apply (NoDup_fmap_elem_inj ContactRequest.id (contact_requests db)); try done.
      by rewrite Hi. }
    split.
    + rewrite elem_of_getPendingRequests. intros (q & u & -> & Hq & _).
      by apply (Hgone q Hq).
    + rewrite elem_of_getSentRequests. intros (q & u & -> & Hq & _).
      by apply (Hgone q Hq).
Qed.

End RequestLists.

Lemma created_request_is_listed_witness :
  let res := ContactRequestModel.create 10 1 2 two_users in
  mkRequestDTO (fst res) (Some (UserDTO.mk 1 "ann" "ann@example.org")) None
  ∈ ContactRequestModel.getPendingRequests 2 (snd res).
Proof.
  apply (created_request_is_listed 10 1 2 two_users
           (UserDTO.mk 1 "ann" "ann@example.org") (UserDTO.mk 2 "bob" "bob@example.org")).
  - left.
  - reflexivity.
  - right. left.
  - reflexivity.
  - reflexivity.
Defined.

Lemma settled_request_leaves_the_lists_witness :
  let d := mkRequestDTO (ContactRequest.mk 1 1 2 StPending 10 10)
                        (Some (UserDTO.mk 1 "ann" "ann@example.org")) None in
  d ∈ ContactRequestModel.getPendingRequests 2 requested_1_2
  ∧ d ∉ ContactRequestModel.getPendingRequests 2
          (db_of (ContactRequestModel.rejectRequest 20 1 2 requested_1_2)).
Proof.
  split.
  - left.
  - apply (proj1 (proj2 (settled_request_leaves_the_lists 20 1 2 2 requested_1_2
                           (mkRequestDTO (ContactRequest.mk 1 1 2 StPending 10 10)
                              (Some (UserDTO.mk 1 "ann" "ann@example.org")) None)
                           db_wf_requested_1_2 eq_refl))).
    reflexivity.
Defined.
